(** * Insurance spreadsheet ingestion: the pipeline of [src/ingestion.py]

    A shallow embedding of the Excel ingestion pipeline
    ([ExcelParser], [InsuranceDataIngestionPipeline]), of the record
    validation of [src/schema.py] and of the bulk insertion of
    [src/database.py], with the properties the specification states about
    them; then of the structure check, of the route [/ingest-excel] of
    [src/main.py] and of the single-policy operations of the repository,
    with further properties of the code.

    Conventions of the embedding.
    - A Python [str] is a list of Unicode code points ([str] below).
    - A Python [float] is an IEEE-754 binary64 value, [spec_float] of the
      Standard Library with precision 53 and maximal exponent 1024.
    - A [DataFrame] is its ordered column labels and its rows; a row
      carries its index label and its cells, keyed by column label.
    - Code that can raise returns in [res]; code that talks to the
      database or the audit log threads a [world] through the monad [M].
    - Texts that the program builds with f-strings to describe an error
      are kept as terms of [text], one constructor per template. *)

From Stdlib Require Import String Ascii ZArith NArith List Bool Lia SpecFloat.
Import ListNotations.

Set Implicit Arguments.

(* ================================================================== *)
(** * Text: Python [str] *)
(* ================================================================== *)

Definition char := N.
Definition str := list char.

(** An ASCII literal of the source as a [str]. *)
Definition lit (s : string) : str := map N_of_ascii (list_ascii_of_string s).

(** The naira sign U+20A6, the currency symbol the sanitizer removes. *)
Definition naira : char := 8358%N.

Fixpoint str_eqb (a b : str) : bool :=
  match a, b with
  | [], [] => true
  | x :: a', y :: b' => N.eqb x y && str_eqb a' b'
  | _, _ => false
  end.

Definition in_range (lo hi c : N) : bool := (N.leb lo c && N.leb c hi)%bool.

(** [str.isspace] on one code point: the code points Python strips. *)
Definition is_space (c : char) : bool :=
  (in_range 9 13 c || in_range 28 32 c || N.eqb c 133 || N.eqb c 160
   || N.eqb c 5760 || in_range 8192 8202 c || in_range 8232 8233 c
   || N.eqb c 8239 || N.eqb c 8287 || N.eqb c 12288)%bool.

Fixpoint lstrip (s : str) : str :=
  match s with
  | c :: t => if is_space c then lstrip t else s
  | [] => []
  end.

Definition rstrip (s : str) : str := rev (lstrip (rev s)).

(** [s.strip()] *)
Definition strip (s : str) : str := rstrip (lstrip s).

(** [s.lower()] and [s.upper()] on the ASCII letters.  The sanitizer
    compares lowered text with "nan", "null" and "none" only, and no
    code point outside ASCII lowers to one of their letters; the column
    aliases of the source are ASCII. *)
Definition lower_char (c : char) : char :=
  if in_range 65 90 c then (c + 32)%N else c.
Definition upper_char (c : char) : char :=
  if in_range 97 122 c then (c - 32)%N else c.
Definition lower (s : str) : str := map lower_char s.
Definition upper (s : str) : str := map upper_char s.

(** [Series.str.replace(c, '')] for a one-character pattern: every
    occurrence of the character is removed. *)
Definition remove_char (c : char) (s : str) : str :=
  filter (fun x => negb (N.eqb x c)) s.

Fixpoint is_prefix (p s : str) : bool :=
  match p, s with
  | [], _ => true
  | x :: p', y :: s' => N.eqb x y && is_prefix p' s'
  | _ :: _, [] => false
  end.

(** [p in s] on strings: [p] occurs in [s] as a substring. *)
Fixpoint is_infix (p s : str) : bool :=
  is_prefix p s ||
  match s with
  | [] => false
  | _ :: s' => is_infix p s'
  end.

(** [x in l] for a list of strings. *)
Definition mem_str (x : str) (l : list str) : bool := existsb (str_eqb x) l.

Definition is_digit (c : char) : bool := in_range 48 57 c.
Definition digit_val (c : char) : Z := Z.of_N c - 48.

(** Decimal digits to their number, most significant first. *)
Definition Z_of_digits (ds : str) : Z :=
  fold_left (fun acc c => (10 * acc + digit_val c)%Z) ds 0%Z.

(** [str(n)] for a natural number of at most [fuel] digits. *)
Fixpoint digits_of_pos (fuel : nat) (n : Z) (acc : str) : str :=
  match fuel with
  | O => acc
  | S fuel' =>
      let acc' := (Z.to_N (n mod 10) + 48)%N :: acc in
      if (n <? 10)%Z then acc' else digits_of_pos fuel' (n / 10)%Z acc'
  end.

Definition str_of_Z (z : Z) : str :=
  let n := Z.abs z in
  let ds := digits_of_pos (S (Z.to_nat (Z.log2_up (n + 1)))) n [] in
  if (z <? 0)%Z then 45%N :: ds else ds.

(* ================================================================== *)
(** * Floats: Python [float] *)
(* ================================================================== *)

Definition float := spec_float.
Definition prec : Z := 53.
Definition emax : Z := 1024.

Definition float_of_Z (z : Z) : float := binary_normalize prec emax z 0 false.

(** The comparisons [a < b] and [a <= b] of Python floats: false as soon
    as one side is a NaN. *)
Definition flt (a b : float) : bool := SFltb a b.
Definition fle (a b : float) : bool := SFleb a b.

Definition f_zero : float := S754_zero false.
Definition f_hundred : float := float_of_Z 100.

Open Scope Z_scope.

(** The binary64 value nearest to [m * 10^e], ties to even, with the
    sign [neg]; [m] is the digit string read as a number. *)
Definition float_of_decimal (neg : bool) (m e : Z) : float :=
  match m with
  | Zpos p =>
      let d := Z.of_nat (List.length (str_of_Z m)) in
      if 309 <=? d - 1 + e then S754_infinity neg
      else if d + e <=? -324 then S754_zero neg
      else if 0 <=? e then
        binary_normalize prec emax ((if neg then -1 else 1) * (m * 10 ^ e)) 0 false
      else
        SFdiv prec emax (S754_finite neg p 0)
                        (S754_finite false (Z.to_pos (10 ^ (- e))) 0)
  | _ => S754_zero neg
  end.

Fixpoint span (p : char -> bool) (s : str) : str * str :=
  match s with
  | c :: t => if p c then let (a, b) := span p t in (c :: a, b) else ([], s)
  | [] => ([], [])
  end.

(** The underscores of a numeric literal: each must stand between two
    digits, and is dropped; [None] when one does not. *)
Fixpoint drop_underscores (prev : option char) (s : str) : option str :=
  match s with
  | [] => match prev with
          | Some 95%N => None
          | _ => Some []
          end
  | c :: t =>
      if N.eqb c 95 then
        match prev with
        | Some q => if is_digit q then drop_underscores (Some c) t else None
        | None => None
        end
      else
        match prev with
        | Some 95%N =>
            if is_digit c then option_map (cons c) (drop_underscores (Some c) t)
            else None
        | _ => option_map (cons c) (drop_underscores (Some c) t)
        end
  end.

(** An optional sign: whether it is a minus, and the rest. *)
Definition read_sign (s : str) : bool * str :=
  match s with
  | 45%N :: t => (true, t)
  | 43%N :: t => (false, t)
  | _ => (false, s)
  end.

(** The exponent part of a decimal literal: empty, or [e] or [E], an
    optional sign and at least one digit, up to the end of the text. *)
Definition read_exponent (s : str) : option Z :=
  match s with
  | [] => Some 0
  | c :: t =>
      if N.eqb (lower_char c) 101 then
        let (neg, r) := read_sign t in
        let (ds, rest) := span is_digit r in
        match ds, rest with
        | _ :: _, [] => Some ((if neg then -1 else 1) * Z_of_digits ds)
        | _, _ => None
        end
      else None
  end.

(** [float(s)] for a string: surrounding whitespace is ignored; the text
    is an optional sign followed by "inf", "infinity" or "nan" in any
    case, or by a decimal literal with an optional fraction and exponent.
    [None] stands for the [ValueError] Python raises.  Decimal digits
    outside ASCII, which Python also reads, are not part of the model. *)
Definition py_float (s : str) : option float :=
  match drop_underscores None (strip s) with
  | None => None
  | Some u =>
      let (neg, body) := read_sign u in
      let lb := lower body in
      if str_eqb lb (lit "inf") || str_eqb lb (lit "infinity")
      then Some (S754_infinity neg)
      else if str_eqb lb (lit "nan") then Some S754_nan
      else
        let (ip, r1) := span is_digit body in
        let '(fp, r2) := match r1 with
                         | 46%N :: r => span is_digit r
                         | _ => ([], r1)
                         end in
        match ip ++ fp with
        | [] => None
        | ds =>
            match read_exponent r2 with
            | None => None
            | Some ex =>
                Some (float_of_decimal neg (Z_of_digits ds)
                                       (ex - Z.of_nat (List.length fp)))
            end
        end
  end.

(** ** [str(x)] of a float: the shortest decimal text that reads back as [x] *)

Definition num_digits (z : Z) : Z := Z.of_nat (List.length (str_of_Z z)).

(** The decimal exponent [t] of the positive rational [n/d]:
    [10^t <= n/d < 10^(t+1)]. *)
Definition decimal_exponent (n d : Z) : Z :=
  if d <=? n then num_digits (n / d) - 1
  else
    let k := num_digits d - num_digits n in
    if d <=? n * 10 ^ k then - k else - (k + 1).

(** The [p]-digit decimals next to [n/d] that read back as [x], shortest
    first: the digits as a number and the exponent of its last digit. *)
Fixpoint shortest_digits (fuel : nat) (p : Z) (x : float) (n d t : Z) : Z * Z :=
  match fuel with
  | O => (0, 0)
  | S fuel' =>
      let sc := p - 1 - t in
      let '(a, b) := if 0 <=? sc then (n * 10 ^ sc, d) else (n, d * 10 ^ (- sc)) in
      let lo := a / b in
      let hi := lo + 1 in
      let back c := SFeqb (float_of_decimal false c (- sc)) x in
      let lo_near := if 2 * (a - lo * b) =? b then Z.even lo
                     else 2 * (a - lo * b) <? b in
      match back lo, back hi with
      | true, true => if lo_near then (lo, - sc) else (hi, - sc)
      | true, false => (lo, - sc)
      | false, true => (hi, - sc)
      | false, false => shortest_digits fuel' (p + 1) x n d t
      end
  end.

Fixpoint drop_trailing_zeros (rev_ds : str) : str :=
  match rev_ds with
  | 48%N :: t => drop_trailing_zeros t
  | _ => rev_ds
  end.

Definition zeros (n : Z) : str := repeat 48%N (Z.to_nat n).

(** The layout of [repr]: plain notation while the decimal point falls
    within 16 digits of the first one, exponent notation otherwise. *)
Definition layout_float (ds : str) (decpt : Z) : str :=
  let nd := Z.of_nat (List.length ds) in
  if (decpt <=? -4) || (16 <? decpt) then
    let ex := decpt - 1 in
    let exd := str_of_Z (Z.abs ex) in
    let exd := if Z.abs ex <? 10 then 48%N :: exd else exd in
    (match ds with
     | c :: (_ :: _) as r => c :: 46%N :: r
     | _ => ds
     end) ++ [101%N; if ex <? 0 then 45%N else 43%N] ++ exd
  else if decpt <=? 0 then
    lit "0." ++ zeros (- decpt) ++ ds
  else if nd <=? decpt then
    ds ++ zeros (decpt - nd) ++ lit ".0"
  else
    firstn (Z.to_nat decpt) ds ++ [46%N] ++ skipn (Z.to_nat decpt) ds.

Definition repr_float (x : float) : str :=
  match x with
  | S754_nan => lit "nan"
  | S754_infinity s => if s then lit "-inf" else lit "inf"
  | S754_zero s => if s then lit "-0.0" else lit "0.0"
  | S754_finite s m e =>
      let '(n, d) := if 0 <=? e then (Zpos m * 2 ^ e, 1) else (Zpos m, 2 ^ (- e)) in
      let t := decimal_exponent n d in
      let '(c, le) := shortest_digits 17 1 (S754_finite false m e) n d t in
      let all := str_of_Z c in
      let ds := rev (drop_trailing_zeros (rev all)) in
      let body := layout_float ds (Z.of_nat (List.length all) + le) in
      if s then 45%N :: body else body
  end.

(* ================================================================== *)
(** * Calendar dates: [datetime.date] *)
(* ================================================================== *)

Record date := mk_date { year : Z; month : Z; day : Z }.

Definition is_leap (y : Z) : bool :=
  (y mod 4 =? 0) && (negb (y mod 100 =? 0) || (y mod 400 =? 0)).

Definition days_in_month (y m : Z) : Z :=
  if m =? 2 then (if is_leap y then 29 else 28)
  else if (m =? 4) || (m =? 6) || (m =? 9) || (m =? 11) then 30
  else 31.

(** [date(y, m, d)] is accepted: otherwise the constructor raises
    [ValueError]. *)
Definition valid_date (y m d : Z) : bool :=
  (1 <=? y) && (y <=? 9999) && (1 <=? m) && (m <=? 12)
  && (1 <=? d) && (d <=? days_in_month y m).

(** [a <= b] on dates. *)
Definition date_leb (a b : date) : bool :=
  (year a <? year b)
  || ((year a =? year b)
      && ((month a <? month b)
          || ((month a =? month b) && (day a <=? day b)))).

(** [str(d)]: the ISO form YYYY-MM-DD. *)
Definition pad (w : nat) (s : str) : str :=
  repeat 48%N (w - List.length s) ++ s.
Definition str_of_date (d : date) : str :=
  pad 4 (str_of_Z (year d)) ++ [45%N] ++ pad 2 (str_of_Z (month d))
  ++ [45%N] ++ pad 2 (str_of_Z (day d)).

(* ================================================================== *)
(** * Regular expressions: the fragment of [re] the parser uses *)
(* ================================================================== *)

(** Greedy, backtracking matching with capture groups, as [re] does it.
    [\d] is the ASCII digits (Python also takes other decimal digits),
    [\s] is [is_space]. *)
Inductive regex :=
| RSet (p : char -> bool)           (* one character of a class *)
| RSeq (a b : regex)                (* a b *)
| RAlt (a b : regex)                (* a|b, left first *)
| RRep (lo hi : nat) (r : regex)    (* r{lo,hi} *)
| RStar (p : char -> bool)          (* [class]* *)
| RGroup (r : regex).               (* ( r ) *)

Definition RChr (c : char) : regex := RSet (N.eqb c).
Definition RDigit : regex := RSet is_digit.

Definition or_else {A} (x y : option A) : option A :=
  match x with
  | Some _ => x
  | None => y
  end.

Section Matcher.
Variable A : Type.

(** [rmatch r s caps k]: match [r] at the head of [s]; on each way of
    matching, most preferred first, hand the rest of the text and the
    groups closed so far to [k], until [k] accepts. *)
Fixpoint rmatch (r : regex) (s : str) (caps : list str)
         (k : str -> list str -> option A) {struct r} : option A :=
  match r with
  | RSet p =>
      match s with
      | c :: t => if p c then k t caps else None
      | [] => None
      end
  | RSeq a b => rmatch a s caps (fun s' caps' => rmatch b s' caps' k)
  | RAlt a b => or_else (rmatch a s caps k) (rmatch b s caps k)
  | RRep lo hi r' =>
      (fix rep (lo hi : nat) (s : str) (caps : list str) {struct hi} : option A :=
         match hi with
         | O => k s caps
         | S hi' =>
             or_else
               (rmatch r' s caps (fun s' caps' => rep (Nat.pred lo) hi' s' caps'))
               (match lo with
                | O => k s caps
                | S _ => None
                end)
         end) lo hi s caps
  | RStar p =>
      (fix star (s : str) : option A :=
         match s with
         | c :: t => if p c then or_else (star t) (k s caps) else k s caps
         | [] => k s caps
         end) s
  | RGroup r' =>
      rmatch r' s caps
             (fun s' caps' =>
                k s' (caps' ++ [firstn (List.length s - List.length s') s]))
  end.
End Matcher.

(** [re.match(r, s)]: the preferred match at the start of [s], as the
    text after it and its groups. *)
Definition re_match (r : regex) (s : str) : option (str * list str) :=
  rmatch r s [] (fun rest caps => Some (rest, caps)).

(** [re.search(r, s)]: the groups of the leftmost match. *)
Fixpoint re_search (r : regex) (s : str) : option (list str) :=
  match re_match r s with
  | Some (_, caps) => Some caps
  | None =>
      match s with
      | [] => None
      | _ :: t => re_search r t
      end
  end.

(** The expressions of a list, one after the other; the empty list
    matches the empty text. *)
Fixpoint RSeqs (rs : list regex) : regex :=
  match rs with
  | [] => RRep 0 0 RDigit
  | [r] => r
  | r :: rs' => RSeq r (RSeqs rs')
  end.

(* ================================================================== *)
(** * [datetime.strptime] for the formats of the parser *)
(* ================================================================== *)

Inductive directive := Dday | Dmonth | Dyear | Dlit (c : char).

Definition between (lo hi : N) : regex := RSet (in_range lo hi).

(** The expressions [_strptime] substitutes for [%d], [%m] and [%Y]:
    [3[0-1]|[1-2]\d|0[1-9]|[1-9]| [1-9]], [1[0-2]|0[1-9]|[1-9]] and
    [\d\d\d\d]. *)
Definition re_day : regex :=
  RAlt (RSeq (RChr 51%N) (between 48%N 49%N))
  (RAlt (RSeq (between 49%N 50%N) RDigit)
  (RAlt (RSeq (RChr 48%N) (between 49%N 57%N))
  (RAlt (between 49%N 57%N)
        (RSeq (RChr 32%N) (between 49%N 57%N))))).

Definition re_month : regex :=
  RAlt (RSeq (RChr 49%N) (between 48%N 50%N))
  (RAlt (RSeq (RChr 48%N) (between 49%N 57%N))
        (between 49%N 57%N)).

Definition re_year : regex := RRep 4 4 RDigit.

Definition regex_of_directive (d : directive) : regex :=
  match d with
  | Dday => RGroup re_day
  | Dmonth => RGroup re_month
  | Dyear => RGroup re_year
  | Dlit c => RChr c
  end.

Definition regex_of_format (fmt : list directive) : regex :=
  RSeqs (map regex_of_directive fmt).

(** The fields found, in the order of the directives; a field the format
    does not name keeps its default (1900-01-01). *)
Fixpoint assign_fields (fmt : list directive) (caps : list str)
         (acc : Z * Z * Z) : Z * Z * Z :=
  match fmt, caps with
  | Dlit _ :: fmt', _ => assign_fields fmt' caps acc
  | d :: fmt', c :: caps' =>
      let '(y, m, dd) := acc in
      let v := Z_of_digits (strip c) in
      assign_fields fmt' caps'
        match d with
        | Dyear => (v, m, dd)
        | Dmonth => (y, v, dd)
        | _ => (y, m, v)
        end
  | _, _ => acc
  end.

(** [datetime.strptime(s, fmt).date()]; [None] is the [ValueError] of a
    text that does not match, of text left over after the match, or of
    a day that does not exist. *)
Definition strptime (s : str) (fmt : list directive) : option date :=
  match re_match (regex_of_format fmt) s with
  | Some ([], caps) =>
      let '(y, m, d) := assign_fields fmt caps (1900, 1, 1) in
      if valid_date y m d then Some (mk_date y m d) else None
  | _ => None
  end.

Definition slash : char := 47%N.
Definition hyphen : char := 45%N.
Definition dot : char := 46%N.

Definition fmt_dmy (sep : char) := [Dday; Dlit sep; Dmonth; Dlit sep; Dyear].
Definition fmt_mdy (sep : char) := [Dmonth; Dlit sep; Dday; Dlit sep; Dyear].
Definition fmt_ymd (sep : char) := [Dyear; Dlit sep; Dmonth; Dlit sep; Dday].

(* ================================================================== *)
(** * [ExcelParser]: the period parser *)
(* ================================================================== *)

Definition re_digits (lo hi : nat) : regex := RRep lo hi RDigit.

Definition re_dmy (sep : char) : regex :=
  RSeqs [re_digits 1 2; RChr sep; re_digits 1 2; RChr sep; re_digits 4 4].
Definition re_ymd (sep : char) : regex :=
  RSeqs [re_digits 4 4; RChr sep; re_digits 1 2; RChr sep; re_digits 1 2].

(** [(d)\s*-\s*(d)] *)
Definition re_range (d : regex) : regex :=
  RSeqs [RGroup d; RStar is_space; RChr hyphen; RStar is_space; RGroup d].

(** [self.date_patterns] *)
Definition date_patterns : list regex :=
  [ re_range (re_dmy slash);      (* DD/MM/YYYY - DD/MM/YYYY *)
    re_range (re_ymd hyphen);     (* YYYY-MM-DD - YYYY-MM-DD *)
    re_range (re_dmy hyphen);     (* DD-MM-YYYY - DD-MM-YYYY *)
    re_range (re_dmy dot) ].      (* DD.MM.YYYY - DD.MM.YYYY *)

(** [self.date_formats] *)
Definition date_formats : list (list directive) :=
  [ fmt_dmy slash;     (* %d/%m/%Y *)
    fmt_mdy slash;     (* %m/%d/%Y *)
    fmt_ymd hyphen;    (* %Y-%m-%d *)
    fmt_dmy hyphen;    (* %d-%m-%Y *)
    fmt_dmy dot;       (* %d.%m.%Y *)
    fmt_ymd slash ].   (* %Y/%m/%d *)

(** The first element on which [f] succeeds, taken in list order: a
    [for] loop that returns from its body. *)
Fixpoint first_some {A B} (f : A -> option B) (l : list A) : option B :=
  match l with
  | [] => None
  | x :: l' =>
      match f x with
      | Some y => Some y
      | None => first_some f l'
      end
  end.

(** [_parse_single_date] *)
Definition _parse_single_date (date_str : str) : option date :=
  first_some (strptime (strip date_str)) date_formats.

(** One turn of the loop of [_parse_insurance_period]: the pattern is
    searched; when it matches, both groups are parsed; the turn returns
    only when both are dates. *)
Definition try_pattern (period_str : str) (pattern : regex) : option (date * date) :=
  match re_search pattern period_str with
  | Some [start_str; end_str] =>
      match _parse_single_date start_str, _parse_single_date end_str with
      | Some start_date, Some end_date => Some (start_date, end_date)
      | _, _ => None
      end
  | _ => None
  end.

(* ================================================================== *)
(** * Cell values, error texts and exceptions *)
(* ================================================================== *)

(** A value held by a cell of the sheet or of the frame.  An empty cell
    is the float NaN, as pandas has it. *)
Inductive pyval :=
| VStr (s : str)
| VInt (z : Z)
| VFloat (f : float)
| VDate (d : date).

Definition empty_cell : pyval := VFloat S754_nan.

(** [str(v)], which is also what [astype(str)] makes of a cell. *)
Definition str_of_val (v : pyval) : str :=
  match v with
  | VStr s => s
  | VInt z => str_of_Z z
  | VFloat f => repr_float f
  | VDate d => str_of_date d
  end.

(** [pd.isna(v)] *)
Definition isna (v : pyval) : bool :=
  match v with
  | VFloat S754_nan => true
  | _ => false
  end.

(** The texts the program builds to describe a failure, one constructor
    per template of the source, with the template's arguments. *)
Inductive text :=
| Plain (s : str)                         (* a text of a collaborator *)
| CannotConvert (value : str)             (* Cannot convert '{value}' to number *)
| PercentageRange (v : float)             (* Percentage must be between 0 and 100, got {v} *)
| CannotParsePeriod (period_str : str)    (* Cannot parse insurance period: {period_str} *)
| CannotParseDateRange (cause : text)     (* Cannot parse date range: {str(e)} *)
| MissingRequiredColumns (missing : list str)  (* Missing required columns: {missing_columns} *)
| ExcelParsingFailed (cause : text)       (* Excel parsing failed: {str(e)} *)
| NoValidData                             (* No valid data found in Excel file *)
| PolicyNumberRequired                    (* Policy number is required *)
| InsuredNameRequired                     (* Insured name is required *)
| DataConversionError (cause : text)      (* Data conversion error: {str(e)} *)
| NotANumber (v : str)                    (* float() refusing its argument *)
| NotADate (v : str)                      (* strptime refusing its argument *)
| SchemaRejected (fields : list str)      (* pydantic's report on these fields *)
| KeyMissing (label : str)                (* KeyError on a column label *)
| RowError (row : nat) (cause : text)     (* Row {idx + 2}: {str(e)} *)
| PolicyError (number : str) (cause : text)   (* Policy {policy_number}: {str(e)} *)
| BatchError (batch : Z) (cause : text)   (* Batch {i//batch_size + 1}: {str(e)} *)
| JoinItemNotStr (position : nat)         (* sequence item {n}: expected str instance *)
| RangeStepZero                           (* range() arg 3 must not be zero *)
| FrameHasNoStr                           (* 'DataFrame' object has no attribute 'str' *)
| StrPlusInt                              (* can only concatenate str (not "int") to str *)
| LengthMismatch (values index : nat).    (* Length of values ({values}) does not match
                                             length of index ({index}) *)

Inductive exn :=
| ValueError (t : text)
| TypeError (t : text)
| KeyError (t : text)
| AttributeError (t : text)
| OtherError (t : text).

(** [str(e)] *)
Definition str_of_exn (e : exn) : text :=
  match e with
  | ValueError t | TypeError t | KeyError t | AttributeError t | OtherError t => t
  end.

(** Code that returns or raises. *)
Inductive res (A : Type) :=
| Ok (a : A)
| Raise (e : exn).
Arguments Ok {A} a.
Arguments Raise {A} e.

Definition res_bind {A B} (x : res A) (f : A -> res B) : res B :=
  match x with
  | Ok a => f a
  | Raise e => Raise e
  end.

(** [_parse_insurance_period] *)
Definition _parse_insurance_period (period_str : str) : res (date * date) :=
  let period_str := strip period_str in
  match first_some (try_pattern period_str) date_patterns with
  | Some dates => Ok dates
  | None => Raise (ValueError (CannotParsePeriod period_str))
  end.

(* ================================================================== *)
(** * [src/schema.py] *)
(* ================================================================== *)

(** [ExcelColumnMapping] *)
Record ExcelColumnMapping := {
  policy_number_col : str;
  insured_name_col : str;
  sum_insured_col : str;
  premium_col : str;
  own_retention_ppn_col : str;
  own_retention_sum_col : str;
  own_retention_premium_col : str;
  treaty_ppn_col : str;
  treaty_sum_col : str;
  treaty_premium_col : str;
  period_of_insurance_col : str;
  start_date_col : option str;
  end_date_col : option str
}.

(** [ExcelColumnMapping()], the defaults of the fields. *)
Definition default_mapping : ExcelColumnMapping := {|
  policy_number_col := lit "POLICY NUMBER";
  insured_name_col := lit "INSURED NAME";
  sum_insured_col := lit "SUM INSURED";
  premium_col := lit "PREMIUM";
  own_retention_ppn_col := lit "OWN RETENTION %";
  own_retention_sum_col := lit "OWN RETENTION SUM INSURED";
  own_retention_premium_col := lit "OWN RETENTION PREMIUM";
  treaty_ppn_col := lit "TREATY %";
  treaty_sum_col := lit "TREATY SUM INSURED";
  treaty_premium_col := lit "TREATY PREMIUM";
  period_of_insurance_col := lit "PERIOD OF INSURANCE";
  start_date_col := None;
  end_date_col := None
|}.

(** [ExcelValidationError] *)
Record ExcelValidationError := {
  row_number : nat;
  column_name : str;
  error_type : str;
  error_message : text;
  raw_value : option str
}.

(** The twelve fields of [InsurancePolicyBase], with the type [D] of the
    two dates left open: the dictionary [policy_data] that
    [_convert_row_to_policy] builds holds whatever the row has there, a
    validated [InsurancePolicyCreate] holds dates. *)
Record policy_fields (D : Type) := {
  policy_number : str;
  insured_name : str;
  sum_insured : float;
  premium : float;
  own_retention_ppn : float;
  own_retention_sum_insured : float;
  own_retention_premium : float;
  treaty_ppn : float;
  treaty_sum_insured : float;
  treaty_premium : float;
  insurance_period_start_date : D;
  insurance_period_end_date : D
}.

Definition policy_data := policy_fields (option pyval).
Definition InsurancePolicyCreate := policy_fields date.

(** The canonical field names, as the strings the source uses. *)
Module F.
Definition policy_number := lit "policy_number".
Definition insured_name := lit "insured_name".
Definition sum_insured := lit "sum_insured".
Definition premium := lit "premium".
Definition own_retention_ppn := lit "own_retention_ppn".
Definition own_retention_sum_insured := lit "own_retention_sum_insured".
Definition own_retention_premium := lit "own_retention_premium".
Definition treaty_ppn := lit "treaty_ppn".
Definition treaty_sum_insured := lit "treaty_sum_insured".
Definition treaty_premium := lit "treaty_premium".
Definition period_of_insurance := lit "period_of_insurance".
Definition insurance_period_start_date := lit "insurance_period_start_date".
Definition insurance_period_end_date := lit "insurance_period_end_date".
End F.

(** The field constraints of [InsurancePolicyBase] on the ten text and
    number fields ([min_length], [max_length], [gt], [ge], [le]) and the
    validator [validate_percentages]: the names of the fields that fail.
    A bound is read as the comparison it names, so a NaN meets none. *)
Definition field_violations {D} (p : policy_fields D) : list str :=
  let len s := Z.of_nat (List.length s) in
  let check (ok : bool) (name : str) := if ok then [] else [name] in
  let pct v := fle f_zero v && fle v f_hundred in
  check ((1 <=? len (policy_number p)) && (len (policy_number p) <=? 50))
        F.policy_number
  ++ check ((1 <=? len (insured_name p)) && (len (insured_name p) <=? 200))
           F.insured_name
  ++ check (flt f_zero (sum_insured p)) F.sum_insured
  ++ check (flt f_zero (premium p)) F.premium
  ++ check (pct (own_retention_ppn p)) F.own_retention_ppn
  ++ check (fle f_zero (own_retention_sum_insured p)) F.own_retention_sum_insured
  ++ check (fle f_zero (own_retention_premium p)) F.own_retention_premium
  ++ check (pct (treaty_ppn p)) F.treaty_ppn
  ++ check (fle f_zero (treaty_sum_insured p)) F.treaty_sum_insured
  ++ check (fle f_zero (treaty_premium p)) F.treaty_premium.

(** A date field accepts a date object.  (A text is converted by the
    caller beforehand; the pipeline presents nothing else.) *)
Definition date_field (v : option pyval) : option date :=
  match v with
  | Some (VDate d) => Some d
  | _ => None
  end.

Definition with_dates {D E} (p : policy_fields D) (s e : E) : policy_fields E := {|
  policy_number := policy_number p;
  insured_name := insured_name p;
  sum_insured := sum_insured p;
  premium := premium p;
  own_retention_ppn := own_retention_ppn p;
  own_retention_sum_insured := own_retention_sum_insured p;
  own_retention_premium := own_retention_premium p;
  treaty_ppn := treaty_ppn p;
  treaty_sum_insured := treaty_sum_insured p;
  treaty_premium := treaty_premium p;
  insurance_period_start_date := s;
  insurance_period_end_date := e
|}.

(** The constructor of [InsurancePolicyCreate] on the dictionary
    [policy_data]: every field is checked; the
    root validators run only when all fields passed ([skip_on_failure]):
    [validate_period_dates] refuses an end date that is not after the
    start date, [validate_financial_consistency] refuses nothing.  The
    [ValidationError] pydantic raises is a [ValueError]. *)
Definition new_InsurancePolicyCreate (d : policy_data) : res InsurancePolicyCreate :=
  let s := date_field (insurance_period_start_date d) in
  let e := date_field (insurance_period_end_date d) in
  let missing (x : option date) (name : str) :=
    match x with
    | Some _ => []
    | None => [name]
    end in
  match field_violations d
        ++ missing s F.insurance_period_start_date
        ++ missing e F.insurance_period_end_date, s, e with
  | [], Some start_date, Some end_date =>
      if date_leb end_date start_date
      then Raise (ValueError (SchemaRejected [lit "validate_period_dates"]))
      else Ok (with_dates d start_date end_date)
  | failed, _, _ => Raise (ValueError (SchemaRejected failed))
  end.

(* ================================================================== *)
(** * Frames: [pandas.DataFrame] *)
(* ================================================================== *)

(** A row holds one cell per column, under the label of the column; a
    frame is its labels, in sheet order, and its rows, each with its
    index label (0, 1, ... for a sheet just read).  [read_excel]
    delivers labels that are pairwise distinct; a label can occur more
    than once once the labels are normalized and renamed. *)
Definition row := list (str * pyval).

Record frame := { columns : list str; rows : list (nat * row) }.

Fixpoint lookup (k : str) (r : row) : option pyval :=
  match r with
  | [] => None
  | (k', v) :: r' => if str_eqb k' k then Some v else lookup k r'
  end.

(** The cell of a row under a label. *)
Definition cell (k : str) (r : row) : pyval :=
  match lookup k r with
  | Some v => v
  | None => empty_cell
  end.

(** [df.loc[idx, k] = v] on the row of index [idx]. *)
Definition set_cell (k : str) (v : pyval) (r : row) : row :=
  map (fun kv => if str_eqb (fst kv) k then (fst kv, v) else kv) r.

(** [k in df.columns] *)
Definition has_column (df : frame) (k : str) : bool := mem_str k (columns df).

(** The number of columns that carry the label [k]. *)
Definition occurrences (k : str) (labels : list str) : nat :=
  List.length (filter (str_eqb k) labels).

(** [df[k]] is a Series when one column carries the label [k], and a
    DataFrame when several do. *)
Definition duplicated (df : frame) (k : str) : bool :=
  Nat.ltb 1 (occurrences k (columns df)).

(** [df[k].str]: a Series has the accessor, a DataFrame has not. *)
Definition str_accessor (df : frame) (k : str) : res unit :=
  if duplicated df k then Raise (AttributeError FrameHasNoStr) else Ok tt.

(** The cells of a row under the label [k], from left to right, and
    the columns of [df[k]], each cell with the index label of its row. *)
Definition cells (k : str) (r : row) : list pyval :=
  map snd (filter (fun kv => str_eqb (fst kv) k) r).

Definition columns_of (k : str) (df : frame) : list (list (nat * pyval)) :=
  map (fun j => map (fun ir => (fst ir, nth j (cells k (snd ir)) empty_cell))
                    (rows df))
      (seq 0 (occurrences k (columns df))).

(** [df[k] = f(df[k])] for an operation [f] that works cell by cell. *)
Definition map_column (k : str) (f : pyval -> pyval) (df : frame) : frame :=
  {| columns := columns df;
     rows := map (fun ir => (fst ir, set_cell k (f (cell k (snd ir))) (snd ir)))
                 (rows df) |}.

(** [df[k] = values], one value per row: an existing column is
    overwritten, a new one is added last. *)
Definition assign_cell (k : str) (v : pyval) (r : row) : row :=
  match lookup k r with
  | Some _ => set_cell k v r
  | None => r ++ [(k, v)]
  end.

Definition assign_column (k : str) (values : list pyval) (df : frame) : frame :=
  {| columns := if has_column df k then columns df else columns df ++ [k];
     rows := map (fun irv => (fst (fst irv), assign_cell k (snd irv) (snd (fst irv))))
                 (combine (rows df) values) |}.

(** [df.drop(k, axis=1)] *)
Definition drop_column (k : str) (df : frame) : frame :=
  {| columns := filter (fun c => negb (str_eqb c k)) (columns df);
     rows := map (fun ir => (fst ir,
                             filter (fun kv => negb (str_eqb (fst kv) k)) (snd ir)))
                 (rows df) |}.

(** [df.dropna(subset=labels)]: the rows without a missing value under
    these labels; a label that is not a column is a [KeyError]. *)
Definition dropna (labels : list str) (df : frame) : res frame :=
  match filter (fun k => negb (has_column df k)) labels with
  | k :: _ => Raise (KeyError (KeyMissing k))
  | [] =>
      Ok {| columns := columns df;
            rows := filter (fun ir => forallb (fun k => negb (isna (cell k (snd ir)))) labels)
                           (rows df) |}
  end.

(** A Python [dict] with string keys: assignment keeps the place of a
    key that is already present. *)
Fixpoint dict_set {V} (k : str) (v : V) (d : list (str * V)) : list (str * V) :=
  match d with
  | [] => [(k, v)]
  | (k', v') :: d' =>
      if str_eqb k' k then (k', v) :: d' else (k', v') :: dict_set k v d'
  end.

Fixpoint dict_get {V} (k : str) (d : list (str * V)) : option V :=
  match d with
  | [] => None
  | (k', v) :: d' => if str_eqb k' k then Some v else dict_get k d'
  end.

(** [df.rename(columns=column_map)] *)
Definition rename_label (column_map : list (str * str)) (c : str) : str :=
  match dict_get c column_map with
  | Some field => field
  | None => c
  end.

Definition relabel (f : str -> str) (df : frame) : frame :=
  {| columns := map f (columns df);
     rows := map (fun ir => (fst ir, map (fun kv => (f (fst kv), snd kv)) (snd ir)))
                 (rows df) |}.

Definition rename (column_map : list (str * str)) (df : frame) : frame :=
  relabel (rename_label column_map) df.

(** [df.columns = df.columns.str.strip().str.upper()] *)
Definition normalize_columns (df : frame) : frame :=
  relabel (fun c => upper (strip c)) df.

(* ================================================================== *)
(** * [ExcelParser]: column mapping *)
(* ================================================================== *)

(** The table [mapping_rules] of [_create_column_mapping]: for each
    database field, the names its column may have, best first. *)
Definition mapping_rules (mapping : ExcelColumnMapping) : list (str * list str) :=
  let opt (o : option str) := match o with
                              | Some (c :: s) => [c :: s]
                              | _ => []      (* None and '' are both falsy *)
                              end in
  [ (F.policy_number,
     [policy_number_col mapping; lit "POLICY NO"; lit "POLICY_NUMBER"; lit "POLICY"]);
    (F.insured_name,
     [insured_name_col mapping; lit "INSURED"; lit "CUSTOMER_NAME"; lit "CLIENT_NAME"]);
    (F.sum_insured,
     [sum_insured_col mapping; lit "SUM_INSURED"; lit "COVERAGE_AMOUNT"; lit "INSURED_AMOUNT"]);
    (F.premium,
     [premium_col mapping; lit "PREMIUM_AMOUNT"; lit "ANNUAL_PREMIUM"]);
    (F.own_retention_ppn,
     [own_retention_ppn_col mapping; lit "OWN_RETENTION_PCT"; lit "RETENTION_%"]);
    (F.own_retention_sum_insured,
     [own_retention_sum_col mapping; lit "OWN_RETENTION_SUM"; lit "RETENTION_SUM"]);
    (F.own_retention_premium,
     [own_retention_premium_col mapping; lit "OWN_RETENTION_PREM"; lit "RETENTION_PREMIUM"]);
    (F.treaty_ppn,
     [treaty_ppn_col mapping; lit "TREATY_PCT"; lit "TREATY_%"]);
    (F.treaty_sum_insured,
     [treaty_sum_col mapping; lit "TREATY_SUM"; lit "TREATY_COVERAGE"]);
    (F.treaty_premium,
     [treaty_premium_col mapping; lit "TREATY_PREM"]);
    (F.period_of_insurance,
     [period_of_insurance_col mapping; lit "INSURANCE_PERIOD"; lit "POLICY_PERIOD"]);
    (F.insurance_period_start_date, opt (start_date_col mapping));
    (F.insurance_period_end_date, opt (end_date_col mapping)) ].

(** The inner loop of [_find_best_column_match]: the first column that
    contains the name or is contained in it. *)
Fixpoint partial_match (name : str) (excel_columns : list str) : option str :=
  match excel_columns with
  | [] => None
  | col :: rest =>
      if is_infix name col || is_infix col name then Some col
      else partial_match name rest
  end.

(** [_find_best_column_match] *)
Fixpoint _find_best_column_match (excel_columns possible_names : list str)
  : option str :=
  match possible_names with
  | [] => None
  | possible_name :: rest =>
      if mem_str (upper possible_name) excel_columns
      then Some (upper possible_name)
      else
        match partial_match (upper possible_name) excel_columns with
        | Some col => Some col
        | None => _find_best_column_match excel_columns rest
        end
  end.

(** [_create_column_mapping]: the dictionary from sheet column to
    database field.  An empty label is no match ([if best_match]). *)
Definition _create_column_mapping (excel_columns : list str)
           (mapping : ExcelColumnMapping) : list (str * str) :=
  fold_left
    (fun column_map rule =>
       match _find_best_column_match excel_columns (snd rule) with
       | Some (c :: s) => dict_set (c :: s) (fst rule) column_map
       | _ => column_map
       end)
    (mapping_rules mapping) [].

Definition required_fields : list str :=
  [ F.policy_number; F.insured_name; F.sum_insured; F.premium;
    F.own_retention_ppn; F.own_retention_sum_insured; F.own_retention_premium;
    F.treaty_ppn; F.treaty_sum_insured; F.treaty_premium ].

(** [_validate_required_columns]: the required fields no column is
    mapped to, then a mention of the period when neither the combined
    column nor both separate dates are mapped. *)
Definition _validate_required_columns (column_map : list (str * str)) : list str :=
  let mapped_fields := map snd column_map in
  let missing_fields :=
    filter (fun field => negb (mem_str field mapped_fields)) required_fields in
  let has_period := mem_str F.period_of_insurance mapped_fields in
  let has_separate_dates :=
    mem_str F.insurance_period_start_date mapped_fields
    && mem_str F.insurance_period_end_date mapped_fields in
  if negb has_period && negb has_separate_dates
  then missing_fields ++ [lit "insurance period dates"]
  else missing_fields.

(* ================================================================== *)
(** * [ExcelParser]: cleaning and validation of the cells *)
(* ================================================================== *)

Definition validation_error (idx : nat) (field kind : str) (message : text)
           (raw : str) : ExcelValidationError :=
  {| row_number := idx + 2;     (* the sheet row: 1-indexed, after the header *)
     column_name := field;
     error_type := kind;
     error_message := message;
     raw_value := Some raw |}.

(** The strings of [policy_number] and [insured_name]:
    [astype(str).str.strip()], then [replace('nan', '')] on whole cells. *)
Definition clean_string_cell (v : pyval) : pyval :=
  let s := strip (str_of_val v) in
  VStr (if str_eqb s (lit "nan") then [] else s).

(** The head of [_clean_numeric_field]: the cell as text, without
    commas, naira signs and percent signs, stripped. *)
Definition numeric_text (v : pyval) : str :=
  strip (remove_char 37%N (remove_char naira (remove_char 44%N (str_of_val v)))).

(** The body of the loop of [_clean_numeric_field] on the text [value]
    of row [idx]: the number written back and the errors appended. *)
Definition convert_numeric (field : str) (idx : nat) (value : str)
  : float * list ExcelValidationError :=
  if str_eqb value [] || mem_str (lower value) [lit "nan"; lit "null"; lit "none"]
  then (f_zero, [])
  else
    match py_float value with
    | Some x => (x, [])
    | None =>
        (f_zero,
         [validation_error idx field (lit "invalid_numeric") (CannotConvert value) value])
    end.

Definition clean_numeric_row (field : str) (ir : nat * row)
  : (nat * row) * list ExcelValidationError :=
  let value := str_of_val (cell field (snd ir)) in
  let (x, errors) := convert_numeric field (fst ir) value in
  ((fst ir, set_cell field (VFloat x) (snd ir)), errors).

(** What the loop of [_clean_numeric_field] makes of a column that
    holds its texts: each cell becomes a number, the errors are
    collected row by row. *)
Definition numbers_of_column (df : frame) (field : str)
  : frame * list ExcelValidationError :=
  let results := map (clean_numeric_row field) (rows df) in
  ({| columns := columns df; rows := map fst results |},
   concat (map snd results)).

(** [_clean_numeric_field].  When several columns carry the label,
    [df[field]] is a DataFrame: the assignment of [astype(str)] goes
    through and [df[field].str] raises. *)
Definition _clean_numeric_field (df : frame) (field : str)
  : res (frame * list ExcelValidationError) :=
  if negb (has_column df field) then Ok (df, [])
  else
    res_bind (str_accessor df field) (fun _ =>
      Ok (numbers_of_column
            (map_column field (fun v => VStr (numeric_text v)) df) field)).

Definition string_fields : list str := [F.policy_number; F.insured_name].

Definition numeric_fields : list str :=
  [ F.sum_insured; F.premium; F.own_retention_ppn; F.own_retention_sum_insured;
    F.own_retention_premium; F.treaty_ppn; F.treaty_sum_insured; F.treaty_premium ].

Definition percentage_fields : list str := [F.own_retention_ppn; F.treaty_ppn].

(** [(df[field] < 0) | (df[field] > 100)] on one cell; the cells are
    floats once the numeric fields are cleaned.  Both comparisons are
    false of a NaN. *)
Definition invalid_pct (v : pyval) : bool :=
  match v with
  | VFloat x => flt x f_zero || flt f_hundred x
  | _ => false
  end.

Definition percentage_error (field : str) (ir : nat * row)
  : list ExcelValidationError :=
  let v := cell field (snd ir) in
  if invalid_pct v then
    [validation_error (fst ir) field (lit "invalid_percentage")
       (match v with
        | VFloat x => PercentageRange x
        | _ => Plain (str_of_val v)
        end)
       (str_of_val v)]
  else [].

(** The three blocks of [_clean_and_validate_data]: "Clean string
    fields", "Clean and validate numeric fields", "Validate percentage
    fields".  The first two raise at [df[field].str] on a label that
    several columns carry; the third is reached when they went through,
    and a percentage label then occurs once. *)
Definition clean_strings (df : frame) : res frame :=
  fold_left (fun acc field =>
               res_bind acc (fun df =>
                 if has_column df field then
                   res_bind (str_accessor df field) (fun _ =>
                     Ok (map_column field clean_string_cell df))
                 else Ok df))
            string_fields (Ok df).

Definition clean_numbers (df : frame) : res (frame * list ExcelValidationError) :=
  fold_left (fun acc field =>
               res_bind acc (fun cleaned =>
                 if has_column (fst cleaned) field then
                   res_bind (_clean_numeric_field (fst cleaned) field) (fun result =>
                     Ok (fst result, snd cleaned ++ snd result))
                 else Ok cleaned))
            numeric_fields (Ok (df, [])).

Definition validate_percentages (df : frame) (errors : list ExcelValidationError)
  : list ExcelValidationError :=
  fold_left (fun errors field =>
               if has_column df field
               then errors ++ flat_map (percentage_error field) (rows df)
               else errors)
            percentage_fields errors.

(** [_clean_and_validate_data] *)
Definition _clean_and_validate_data (df : frame)
  : res (frame * list ExcelValidationError) :=
  res_bind (clean_strings df) (fun df =>
  res_bind (clean_numbers df) (fun cleaned =>
  Ok (fst cleaned, validate_percentages (fst cleaned) (snd cleaned)))).

Definition default_start_date : date := mk_date 2024 1 1.
Definition default_end_date : date := mk_date 2024 12 31.

(** The body of the loop of [_transform_period_column] when one column
    carries the label: [idx] is the index label of a row and
    [period_value] its cell. *)
Definition period_of_row (ir : nat * row)
  : (date * date) * list ExcelValidationError :=
  let period_value := cell F.period_of_insurance (snd ir) in
  match _parse_insurance_period (str_of_val period_value) with
  | Ok dates => (dates, [])
  | Raise e =>
      ((default_start_date, default_end_date),
       [validation_error (fst ir) F.period_of_insurance (lit "invalid_date_format")
          (CannotParseDateRange (str_of_exn e)) (str_of_val period_value)])
  end.

(** The same body when several columns carry the label:
    [df['period_of_insurance']] is a DataFrame, whose [items()] are its
    columns, so [idx] is the label and [period_value] a Series.
    [series_text] is what [str] makes of a Series, given by the index
    labels and the cells; the model takes it as it comes.  When the
    text does not parse, the handler raises at [idx + 2]. *)
Definition period_of_column (series_text : list (nat * pyval) -> str)
           (column : list (nat * pyval)) : res (date * date) :=
  match _parse_insurance_period (series_text column) with
  | Ok dates => Ok dates
  | Raise _ => Raise (TypeError StrPlusInt)
  end.

(** A loop that stops at the first turn that raises. *)
Fixpoint res_all {A B} (f : A -> res B) (l : list A) : res (list B) :=
  match l with
  | [] => Ok []
  | a :: l' =>
      res_bind (f a) (fun b =>
      res_bind (res_all f l') (fun bs => Ok (b :: bs)))
  end.

(** The end of [_transform_period_column]: the two lists become the
    date columns and the period columns are dropped.  A list that has
    not one value per row is refused by the first assignment. *)
Definition set_period_dates (dates : list (date * date)) (df : frame) : res frame :=
  if Nat.eqb (List.length dates) (List.length (rows df)) then
    let start_dates := map (fun d => VDate (fst d)) dates in
    let end_dates := map (fun d => VDate (snd d)) dates in
    let df := assign_column F.insurance_period_start_date start_dates df in
    let df := assign_column F.insurance_period_end_date end_dates df in
    Ok (drop_column F.period_of_insurance df)
  else
    Raise (ValueError (LengthMismatch (List.length dates) (List.length (rows df)))).

(** [_transform_period_column] *)
Definition _transform_period_column (series_text : list (nat * pyval) -> str)
           (df : frame) : res (frame * list ExcelValidationError) :=
  if negb (has_column df F.period_of_insurance) then Ok (df, [])
  else if duplicated df F.period_of_insurance then
    res_bind (res_all (period_of_column series_text)
                      (columns_of F.period_of_insurance df)) (fun dates =>
    res_bind (set_period_dates dates df) (fun df => Ok (df, [])))
  else
    let results := map period_of_row (rows df) in
    res_bind (set_period_dates (map fst results) df) (fun df =>
    Ok (df, concat (map snd results))).

(** The steps of [parse_excel_file] on the rows, once the columns are
    mapped: renaming, cleaning, the period, and the rows kept. *)
Definition parse_rows (series_text : list (nat * pyval) -> str)
           (column_map : list (str * str)) (df : frame)
  : res (frame * list ExcelValidationError) :=
  let df := rename column_map df in
  res_bind (_clean_and_validate_data df) (fun cleaned =>
  let df := fst cleaned in
  let validation_errors := snd cleaned in
  res_bind (if has_column df F.period_of_insurance then
              res_bind (_transform_period_column series_text df) (fun transformed =>
                Ok (fst transformed, validation_errors ++ snd transformed))
            else Ok (df, validation_errors)) (fun result =>
  res_bind (dropna [F.policy_number; F.insured_name] (fst result))
           (fun valid_df => Ok (valid_df, snd result)))).

(** [parse_excel_file].  [read] is what [pd.read_excel] makes of the
    bytes: the first sheet, or the exception it raises. *)
Definition parse_excel_file (series_text : list (nat * pyval) -> str)
           (read : res frame) (column_mapping : option ExcelColumnMapping)
  : res (frame * list ExcelValidationError) :=
  let mapping := match column_mapping with
                 | Some m => m
                 | None => default_mapping
                 end in
  let attempt :=
    res_bind read (fun df =>
      let df := normalize_columns df in
      let column_map := _create_column_mapping (columns df) mapping in
      let missing_columns := _validate_required_columns column_map in
      match missing_columns with
      | _ :: _ => Raise (ValueError (MissingRequiredColumns missing_columns))
      | [] => parse_rows series_text column_map df
      end) in
  match attempt with
  | Ok parsed => Ok parsed
  | Raise e => Raise (ValueError (ExcelParsingFailed (str_of_exn e)))
  end.

(* ================================================================== *)
(** * The world of the pipeline: database, audit log, and their failures *)
(* ================================================================== *)

(** The arguments of one call of [log_data_ingestion] (the wall-clock
    measurement [processing_time_ms] is left out of the model). *)
Record audit_entry := {
  log_filename : str;
  log_file_size_bytes : nat;
  log_rows_processed : nat;
  log_rows_successful : nat;
  log_rows_failed : nat;
  log_status : str;
  log_error_details : option (list text)    (* the texts joined by "; " *)
}.

Record world := {
  insurance_policies : list InsurancePolicyCreate;  (* committed rows, in order *)
  data_ingestion_logs : list audit_entry;           (* committed log entries *)
  calls : nat                                       (* calls made to collaborators *)
}.

(** What the collaborators do when called: [None] when the call goes
    through, the exception otherwise.  Each may depend on the whole
    world, the number of calls so far included.  The last field is the
    text pandas gives for a Series ([str(s)]), which the model takes as
    it comes. *)
Record collaborators := {
  repository_failure : world -> option exn;   (* get_policy_repository, get_audit_repository *)
  session_failure : world -> option exn;      (* db_manager.get_session() *)
  model_failure : InsurancePolicyCreate -> option exn;   (* the InsurancePolicy constructor *)
  commit_failure : world -> list InsurancePolicyCreate -> option exn;  (* add_all, commit *)
  audit_failure : world -> audit_entry -> option exn;    (* log_data_ingestion, to its commit *)
  refresh_failure : world -> option exn;      (* session.refresh(log_entry) *)
  series_text : list (nat * pyval) -> str     (* str(s) for a Series s *)
}.

(** Code that runs in the world and returns or raises. *)
Definition M (A : Type) : Type := world -> res A * world.

Definition ret {A} (a : A) : M A := fun w => (Ok a, w).
Definition raise {A} (e : exn) : M A := fun w => (Raise e, w).
Definition bind {A B} (m : M A) (f : A -> M B) : M B :=
  fun w => match m w with
           | (Ok a, w') => f a w'
           | (Raise e, w') => (Raise e, w')
           end.
(** [try: m  except Exception as e: h e] *)
Definition try_except {A} (m : M A) (h : exn -> M A) : M A :=
  fun w => match m w with
           | (Ok a, w') => (Ok a, w')
           | (Raise e, w') => h e w'
           end.
Definition lift {A} (r : res A) : M A := fun w => (r, w).

Declare Scope pipeline_scope.
Delimit Scope pipeline_scope with pipeline.
Notation "x <- m ;; k" := (bind m (fun x => k))
  (at level 61, m at next level, right associativity) : pipeline_scope.
Notation "' p <- m ;; k" := (bind m (fun x => match x with p => k end))
  (at level 61, p pattern, m at next level, right associativity) : pipeline_scope.
Notation "m ;; k" := (bind m (fun _ => k))
  (at level 61, right associativity) : pipeline_scope.

Definition tick (w : world) : world :=
  {| insurance_policies := insurance_policies w;
     data_ingestion_logs := data_ingestion_logs w;
     calls := S (calls w) |}.

(** A call to a collaborator that may fail and changes nothing else. *)
Definition call (failure : world -> option exn) : M unit :=
  fun w => match failure w with
           | Some e => (Raise e, tick w)
           | None => (Ok tt, tick w)
           end.

Section Pipeline.
Variable env : collaborators.
Open Scope pipeline_scope.

(** [await get_policy_repository()], [await get_audit_repository()] *)
Definition get_repository : M unit := call (repository_failure env).

(** The session, the entry and [await session.commit()] of
    [log_data_ingestion]: the entry is committed, or nothing is. *)
Definition commit_entry (entry : audit_entry) : M unit :=
  fun w =>
    match audit_failure env w entry with
    | Some e => (Raise e, tick w)
    | None =>
        (Ok tt,
         {| insurance_policies := insurance_policies w;
            data_ingestion_logs := data_ingestion_logs w ++ [entry];
            calls := S (calls w) |})
    end.

(** [AuditRepository.log_data_ingestion]: the entry is committed and
    then refreshed; a failure of either step is logged and raised
    again, and the rollback of the session does not undo a commit. *)
Definition log_data_ingestion (entry : audit_entry) : M unit :=
  commit_entry entry ;;
  call (refresh_failure env).

(** [session.add_all(db_policies); await session.commit()] *)
Definition commit (db_policies : list InsurancePolicyCreate) : M unit :=
  fun w =>
    match commit_failure env w db_policies with
    | Some e => (Raise e, tick w)
    | None =>
        (Ok tt,
         {| insurance_policies := insurance_policies w ++ db_policies;
            data_ingestion_logs := data_ingestion_logs w;
            calls := S (calls w) |})
    end.

(* ================================================================ *)
(** ** [InsurancePolicyRepository.bulk_create_policies] *)
(* ================================================================ *)

(** The three local variables of [bulk_create_policies]. *)
Record counts := {
  successful_count : nat;
  failed_count : nat;
  error_messages : list text
}.

(** The slices [policies_data[i:i + batch_size]] for
    [i in range(0, len(policies_data), batch_size)]. *)
Fixpoint slices {A} (fuel : nat) (size : nat) (l : list A) : list (list A) :=
  match fuel, l with
  | S fuel', _ :: _ => firstn size l :: slices fuel' size (skipn size l)
  | _, _ => []
  end.

Definition batches {A} (l : list A) (batch_size : Z) : res (list (list A)) :=
  if batch_size =? 0 then Raise (ValueError RangeStepZero)
  else if batch_size <? 0 then Ok []
  else Ok (slices (List.length l) (Z.to_nat batch_size) l).

(** The inner loop: the database models of the batch; a record whose
    model cannot be built is counted as failed. *)
Definition build_models (batch : list InsurancePolicyCreate) (c : counts)
  : list InsurancePolicyCreate * counts :=
  fold_left
    (fun acc policy_data =>
       match model_failure env policy_data with
       | None => (fst acc ++ [policy_data], snd acc)
       | Some e =>
           (fst acc,
            {| successful_count := successful_count (snd acc);
               failed_count := failed_count (snd acc) + 1;
               error_messages :=
                 error_messages (snd acc)
                 ++ [PolicyError (policy_number policy_data) (str_of_exn e)] |})
       end)
    batch ([], c).

(** The handler of the batch: the whole batch is counted as failed. *)
Definition batch_failed (number : Z) (batch : list InsurancePolicyCreate)
           (e : exn) (c : counts) : counts :=
  {| successful_count := successful_count c;
     failed_count := failed_count c + List.length batch;
     error_messages := error_messages c ++ [BatchError number (str_of_exn e)] |}.

(** One turn of the loop over the batches.  The counters are local
    variables: what the inner loop added stays when the commit then
    fails. *)
Definition process_batch (number : Z) (batch : list InsurancePolicyCreate)
           (c : counts) : M counts :=
  try_except
    (call (session_failure env) ;;
     let (db_policies, c1) := build_models batch c in
     try_except
       (match db_policies with
        | [] => ret c1
        | _ :: _ =>
            commit db_policies ;;
            ret {| successful_count := successful_count c1 + List.length db_policies;
                   failed_count := failed_count c1;
                   error_messages := error_messages c1 |}
        end)
       (fun e => ret (batch_failed number batch e c1)))
    (fun e => ret (batch_failed number batch e c)).

Fixpoint process_batches (number : Z) (bs : list (list InsurancePolicyCreate))
         (c : counts) : M counts :=
  match bs with
  | [] => ret c
  | batch :: rest =>
      c' <- process_batch number batch c ;;
      process_batches (number + 1) rest c'
  end.

Definition bulk_create_policies (policies_data : list InsurancePolicyCreate)
           (batch_size : Z) : M counts :=
  bs <- lift (batches policies_data batch_size) ;;
  process_batches 1 bs
    {| successful_count := 0; failed_count := 0; error_messages := [] |}.

(* ================================================================ *)
(** ** [InsuranceDataIngestionPipeline] *)
(* ================================================================ *)

(** [float(v)] *)
Definition float_of_val (v : pyval) : res float :=
  match v with
  | VFloat x => Ok x
  | VInt z =>
      match float_of_Z z with
      | S754_infinity _ => Raise (OtherError (NotANumber (str_of_Z z)))  (* OverflowError *)
      | x => Ok x
      end
  | VStr s =>
      match py_float s with
      | Some x => Ok x
      | None => Raise (ValueError (NotANumber s))
      end
  | VDate d => Raise (TypeError (NotANumber (str_of_date d)))
  end.

(** A date field that holds a text is read with [%Y-%m-%d]. *)
Definition convert_date (v : option pyval) : res (option pyval) :=
  match v with
  | Some (VStr s) =>
      match strptime s (fmt_ymd hyphen) with
      | Some d => Ok (Some (VDate d))
      | None => Raise (ValueError (NotADate s))
      end
  | _ => Ok v
  end.

(** [_convert_row_to_policy] *)
Definition _convert_row_to_policy (r : row) : res InsurancePolicyCreate :=
  let get k default := match lookup k r with
                       | Some v => v
                       | None => default
                       end in
  let number k := float_of_val (get k (VInt 0)) in
  let attempt :=
    res_bind (number F.sum_insured) (fun sum_insured =>
    res_bind (number F.premium) (fun premium =>
    res_bind (number F.own_retention_ppn) (fun own_retention_ppn =>
    res_bind (number F.own_retention_sum_insured) (fun own_retention_sum_insured =>
    res_bind (number F.own_retention_premium) (fun own_retention_premium =>
    res_bind (number F.treaty_ppn) (fun treaty_ppn =>
    res_bind (number F.treaty_sum_insured) (fun treaty_sum_insured =>
    res_bind (number F.treaty_premium) (fun treaty_premium =>
    let policy_data : policy_data :=
      {| policy_number := strip (str_of_val (get F.policy_number (VStr [])));
         insured_name := strip (str_of_val (get F.insured_name (VStr [])));
         sum_insured := sum_insured;
         premium := premium;
         own_retention_ppn := own_retention_ppn;
         own_retention_sum_insured := own_retention_sum_insured;
         own_retention_premium := own_retention_premium;
         treaty_ppn := treaty_ppn;
         treaty_sum_insured := treaty_sum_insured;
         treaty_premium := treaty_premium;
         insurance_period_start_date := lookup F.insurance_period_start_date r;
         insurance_period_end_date := lookup F.insurance_period_end_date r |} in
    match policy_number policy_data, insured_name policy_data with
    | [], _ => Raise (ValueError PolicyNumberRequired)
    | _, [] => Raise (ValueError InsuredNameRequired)
    | _, _ =>
        res_bind (convert_date (insurance_period_start_date policy_data)) (fun s =>
        res_bind (convert_date (insurance_period_end_date policy_data)) (fun e =>
        new_InsurancePolicyCreate (with_dates policy_data s e)))
    end)))))))) in
  match attempt with
  | Ok policy => Ok policy
  | Raise e => Raise (ValueError (DataConversionError (str_of_exn e)))
  end.

(** [ExcelIngestionRequest] *)
Record ExcelIngestionRequest := {
  validate_schema : bool;
  skip_duplicates : bool;
  batch_size : Z
}.

(** An element of [total_errors]: a cell error of the parser, or a
    text of the conversion or of the database. *)
Inductive error_item :=
| CellError (e : ExcelValidationError)
| Message (t : text).

(** [ExcelIngestionResponse], the report ([processing_time_ms] is left
    out of the model); each error stands for its text [str(e)]. *)
Record ExcelIngestionResponse := {
  ingestion_id : str;
  filename : str;
  total_rows : nat;
  processed_rows : nat;
  failed_rows : nat;
  status : str;
  errors : list error_item;
  warnings : list str
}.

(** The upload: its name, its size, and what [pd.read_excel] makes of
    its bytes. *)
Record upload := {
  upload_name : str;
  upload_size : nat;
  read_excel : res frame
}.

(** The loop over [df.iterrows()]: the records built, and one text for
    each row that raises. *)
Definition convert_rows (df : frame)
  : list InsurancePolicyCreate * list text :=
  fold_left
    (fun acc ir =>
       match _convert_row_to_policy (snd ir) with
       | Ok policy_data => (fst acc ++ [policy_data], snd acc)
       | Raise e => (fst acc, snd acc ++ [RowError (fst ir + 2) (str_of_exn e)])
       end)
    (rows df) ([], []).

(** ["; ".join(total_errors) if total_errors else None]: [join] refuses
    the first item that is not a string. *)
Fixpoint join (position : nat) (items : list error_item) : res (list text) :=
  match items with
  | [] => Ok []
  | Message t :: rest =>
      res_bind (join (S position) rest) (fun ts => Ok (t :: ts))
  | CellError _ :: _ => Raise (TypeError (JoinItemNotStr position))
  end.

Definition error_details (total_errors : list error_item)
  : res (option (list text)) :=
  match total_errors with
  | [] => Ok None
  | _ :: _ => res_bind (join 0 total_errors) (fun ts => Ok (Some ts))
  end.

(** What [ingest_excel_file] has computed when it reaches the audit
    log: the counts, the errors and the status. *)
Record outcome := {
  out_total_rows : nat;
  out_successful : nat;
  out_failed : nat;
  out_errors : list error_item;
  out_status : str
}.

(** The body of the [try] of [ingest_excel_file] down to the status. *)
Definition compute_outcome (file : upload) (request : ExcelIngestionRequest)
  : M outcome :=
  get_repository ;;                       (* policy_repo *)
  get_repository ;;                       (* audit_repo *)
  ' (df, parsing_errors) <- lift (parse_excel_file (series_text env)
                                                   (read_excel file) None) ;;
  match rows df with
  | [] => raise (ValueError NoValidData)
  | _ :: _ =>
      let (policies_data, conversion_errors) := convert_rows df in
      c <- bulk_create_policies policies_data (batch_size request) ;;
      let total_errors :=
        map CellError parsing_errors ++ map Message conversion_errors
        ++ map Message (error_messages c) in
      ret {| out_total_rows := List.length (rows df);
             out_successful := successful_count c;
             out_failed := failed_count c;
             out_errors := total_errors;
             out_status :=
               if Nat.eqb (failed_count c) 0 then lit "success"
               else if Nat.ltb 0 (successful_count c) then lit "partial"
               else lit "failed" |}
  end.

(** The report of the [try] branch. *)
Definition report_of (file : upload) (o : outcome) : ExcelIngestionResponse :=
  {| ingestion_id := lit "12345678-1234-1234-1234-123456789012";
     filename := upload_name file;
     total_rows := out_total_rows o;
     processed_rows := out_successful o;
     failed_rows := out_failed o;
     status := out_status o;
     errors := out_errors o;
     warnings := [] |}.

(** The report of the [except] branch. *)
Definition failed_report (file : upload) (e : exn) : ExcelIngestionResponse :=
  {| ingestion_id := lit "00000000-0000-0000-0000-000000000000";
     filename := upload_name file;
     total_rows := 0;
     processed_rows := 0;
     failed_rows := 0;
     status := lit "failed";
     errors := [Message (str_of_exn e)];
     warnings := [] |}.

(** The rest of the [try] of [ingest_excel_file]: the audit entry,
    then the report. *)
Definition ingestion_attempt (file : upload) (request : ExcelIngestionRequest)
  : M ExcelIngestionResponse :=
  o <- compute_outcome file request ;;
  details <- lift (error_details (out_errors o)) ;;
  log_data_ingestion
    {| log_filename := upload_name file;
       log_file_size_bytes := upload_size file;
       log_rows_processed := out_total_rows o;
       log_rows_successful := out_successful o;
       log_rows_failed := out_failed o;
       log_status := out_status o;
       log_error_details := details |} ;;
  ret (report_of file o).

(** The [except] of [ingest_excel_file]: the failure is logged, a
    failure of that being passed over, and reported. *)
Definition ingestion_failed (file : upload) (e : exn)
  : M ExcelIngestionResponse :=
  try_except
    (get_repository ;;
     log_data_ingestion
       {| log_filename := upload_name file;
          log_file_size_bytes := upload_size file;
          log_rows_processed := 0;
          log_rows_successful := 0;
          log_rows_failed := 0;
          log_status := lit "failed";
          log_error_details := Some [str_of_exn e] |})
    (fun audit_error => ret tt) ;;
  ret (failed_report file e).

(** [ingest_excel_file] *)
Definition ingest_excel_file (file : upload) (request : ExcelIngestionRequest)
  : M ExcelIngestionResponse :=
  try_except (ingestion_attempt file request) (ingestion_failed file).

End Pipeline.

(* ================================================================== *)
(** * [InsuranceDataIngestionPipeline.validate_excel_structure] *)
(* ================================================================== *)

(** The texts of the list [issues], one constructor per template. *)
Inductive issue :=
| TooManyRows (n : nat) (maximum : Z)   (* File has {len(df)} rows, maximum is {max_excel_rows} *)
| NoDataRows                            (* File contains no data rows *)
| MissingRequiredColumn (col : str)     (* Missing required column: {col} *)
| CannotReadExcel (cause : text).       (* Cannot read Excel file: {str(e)} *)

(** The dictionary [validation_result], with its keys. *)
Module Structure.
Record validation_result := {
  valid : bool;
  error : option text;        (* a key of the [except] branch only *)
  total_rows : nat;
  total_columns : nat;
  columns : list str;
  issues : list issue;
  recommendations : list str
}.
End Structure.

(** [validation_result["issues"]] receives texts and
    [validation_result["valid"]] becomes [False]. *)
Definition flag (r : Structure.validation_result) (new : list issue)
  : Structure.validation_result :=
  {| Structure.valid := false;
     Structure.error := Structure.error r;
     Structure.total_rows := Structure.total_rows r;
     Structure.total_columns := Structure.total_columns r;
     Structure.columns := Structure.columns r;
     Structure.issues := Structure.issues r ++ new;
     Structure.recommendations := Structure.recommendations r |}.

Definition recommend (r : Structure.validation_result) (advice : str)
  : Structure.validation_result :=
  {| Structure.valid := Structure.valid r;
     Structure.error := Structure.error r;
     Structure.total_rows := Structure.total_rows r;
     Structure.total_columns := Structure.total_columns r;
     Structure.columns := Structure.columns r;
     Structure.issues := Structure.issues r;
     Structure.recommendations := Structure.recommendations r ++ [advice] |}.

(** [validate_excel_structure], for the setting [max_excel_rows] and
    what [pd.read_excel] makes of the bytes. *)
Definition validate_excel_structure (max_excel_rows : Z) (read : res frame)
  : Structure.validation_result :=
  match read with
  | Ok df =>
      let validation_result :=
        {| Structure.valid := true;
           Structure.error := None;
           Structure.total_rows := List.length (rows df);
           Structure.total_columns := List.length (columns df);
           Structure.columns := columns df;
           Structure.issues := [];
           Structure.recommendations := [] |} in
      let validation_result :=
        if max_excel_rows <? Z.of_nat (List.length (rows df))
        then flag validation_result
                  [TooManyRows (List.length (rows df)) max_excel_rows]
        else validation_result in
      let validation_result :=
        if Nat.eqb (List.length (rows df)) 0
        then flag validation_result [NoDataRows]
        else validation_result in
      let column_map :=
        _create_column_mapping (map (fun c => upper (strip c)) (columns df))
                               default_mapping in
      let missing_columns := _validate_required_columns column_map in
      let validation_result :=
        match missing_columns with
        | _ :: _ => flag validation_result (map MissingRequiredColumn missing_columns)
        | [] => validation_result
        end in
      if Structure.valid validation_result
      then recommend validation_result
                     (lit "Excel structure looks good, ready for processing")
      else validation_result
  | Raise e =>
      {| Structure.valid := false;
         Structure.error := Some (str_of_exn e);
         Structure.total_rows := 0;
         Structure.total_columns := 0;
         Structure.columns := [];
         Structure.issues := [CannotReadExcel (str_of_exn e)];
         Structure.recommendations :=
           [ lit "Ensure file is a valid Excel format (.xlsx or .xls)";
             lit "Check that file is not corrupted or password protected" ] |}
  end.

(* ================================================================== *)
(** * [src/main.py]: the route [/ingest-excel] *)
(* ================================================================== *)

(** [s.endswith(suffix)] *)
Definition endswith (s suffix : str) : bool := is_prefix (rev suffix) (rev s).

(** The constructor of [ExcelIngestionRequest]: [batch_size] has
    [ge=100] and [le=10000]; the [ValidationError] is a [ValueError]. *)
Definition new_ExcelIngestionRequest (validate_schema skip_duplicates : bool)
           (batch_size : Z) : res ExcelIngestionRequest :=
  if (100 <=? batch_size) && (batch_size <=? 10000)
  then Ok {| validate_schema := validate_schema;
             skip_duplicates := skip_duplicates;
             batch_size := batch_size |}
  else Raise (ValueError (SchemaRejected [lit "batch_size"])).

(** The [detail] of an [HTTPException] of the route. *)
Inductive detail :=
| OnlyExcelFiles                     (* Only Excel files are supported *)
| FileTooLarge (max_file_size_mb : Z)   (* File too large. Max: {max_file_size_mb}MB *)
| IngestionFailed (cause : text).    (* Ingestion failed: {str(e)} *)

(** What the route answers: the report, or an [HTTPException]. *)
Inductive answer :=
| Report (report : ExcelIngestionResponse)
| HTTPException (status_code : Z) (why : detail).

(** [ingest_excel], for the setting [max_file_size_mb]. *)
Definition ingest_excel (env : collaborators) (max_file_size_mb : Z)
           (file : upload) (validate_schema skip_duplicates : bool)
           (batch_size : Z) (w : world) : answer * world :=
  if negb (endswith (upload_name file) (lit ".xlsx")
           || endswith (upload_name file) (lit ".xls"))
  then (HTTPException 400 OnlyExcelFiles, w)
  else if max_file_size_mb * 1024 * 1024 <? Z.of_nat (upload_size file)
  then (HTTPException 400 (FileTooLarge max_file_size_mb), w)
  else
    match new_ExcelIngestionRequest validate_schema skip_duplicates batch_size with
    | Raise e => (HTTPException 500 (IngestionFailed (str_of_exn e)), w)
    | Ok request_obj =>
        match ingest_excel_file env file request_obj w with
        | (Ok report, w') => (Report report, w')
        | (Raise e, w') => (HTTPException 500 (IngestionFailed (str_of_exn e)), w')
        end
    end.

(* ================================================================== *)
(** * [InsurancePolicyRepository]: one policy *)
(* ================================================================== *)

Section OnePolicy.
Variable env : collaborators.
(** What a query does when it is run, as for the other collaborators,
    and whether an exception is SQLAlchemy's [IntegrityError]. *)
Variable query_failure : world -> option exn.
Variable is_integrity_error : exn -> bool.
Open Scope pipeline_scope.

(** [result.scalar_one_or_none()] *)
Definition scalar_one_or_none {A} (found : list A) : res (option A) :=
  match found with
  | [] => Ok None
  | [x] => Ok (Some x)
  | _ :: _ :: _ =>
      Raise (OtherError
               (Plain (lit "Multiple rows were found when one or none was required")))
  end.

(** [session.execute(select(InsurancePolicy).where(
    InsurancePolicy.policy_number == number))] *)
Definition select_by_number (number : str) : M (list InsurancePolicyCreate) :=
  call query_failure ;;
  fun w => (Ok (filter (fun p => str_eqb (policy_number p) number)
                       (insurance_policies w)), w).

(** [create_policy] *)
Definition create_policy (policy_data : InsurancePolicyCreate)
  : M InsurancePolicyCreate :=
  try_except
    (call (session_failure env) ;;
     existing <- select_by_number (policy_number policy_data) ;;
     found <- lift (scalar_one_or_none existing) ;;
     match found with
     | Some _ =>
         raise (ValueError
                  (Plain (lit "Policy number " ++ policy_number policy_data
                          ++ lit " already exists")))
     | None =>
         match model_failure env policy_data with
         | Some e => raise e
         | None =>
             commit env [policy_data] ;;
             call query_failure ;;             (* session.refresh(db_policy) *)
             ret policy_data
         end
     end)
    (fun e =>
       if is_integrity_error e
       then raise (ValueError
                     (Plain (lit "Policy creation failed: duplicate or invalid data")))
       else raise e).

(** [get_policy_by_number] *)
Definition get_policy_by_number (number : str) : M (option InsurancePolicyCreate) :=
  try_except
    (call (session_failure env) ;;
     result <- select_by_number number ;;
     lift (scalar_one_or_none result))
    (fun e => ret None).

End OnePolicy.

(* ================================================================== *)
(** * [sample_xcel_generation.py]: the period texts of the sample sheet *)
(* ================================================================== *)

(** [d.strftime('%d/%m/%Y')], for a year of four digits. *)
Definition strftime_dmy (d : date) : str :=
  pad 2 (str_of_Z (day d)) ++ [slash] ++ pad 2 (str_of_Z (month d))
  ++ [slash] ++ pad 4 (str_of_Z (year d)).

(** [f"{start_date.strftime('%d/%m/%Y')} - {end_date.strftime('%d/%m/%Y')}"] *)
Definition period_text (start_date end_date : date) : str :=
  strftime_dmy start_date ++ lit " - " ++ strftime_dmy end_date.


(* ================================================================== *)
(** * What the specification states, and the sheets of its scenarios *)
(* ================================================================== *)

(** The invariant of a record of the domain: identity fields not empty
    once trimmed, positive sum insured and premium, percentages within
    0 and 100, the four shares not negative, and a period that ends
    after it starts. *)
Definition domain_invariant (p : InsurancePolicyCreate) : Prop :=
  strip (policy_number p) <> []
  /\ strip (insured_name p) <> []
  /\ flt f_zero (sum_insured p) = true
  /\ flt f_zero (premium p) = true
  /\ (fle f_zero (own_retention_ppn p) = true /\ fle (own_retention_ppn p) f_hundred = true)
  /\ (fle f_zero (treaty_ppn p) = true /\ fle (treaty_ppn p) f_hundred = true)
  /\ fle f_zero (own_retention_sum_insured p) = true
  /\ fle f_zero (own_retention_premium p) = true
  /\ fle f_zero (treaty_sum_insured p) = true
  /\ fle f_zero (treaty_premium p) = true
  /\ date_leb (insurance_period_end_date p) (insurance_period_start_date p) = false.

(** A text with the characters [symbols] taken out: "the same string
    with those symbols removed", as the specification has it. *)
Definition without (symbols : list N) (s : str) : str :=
  filter (fun c => negb (existsb (N.eqb c) symbols)) s.

(** The characters [_clean_numeric_field] removes: the comma, the naira
    sign and the percent sign; and the dollar sign, a currency symbol
    that it leaves in place. *)
Definition removed_symbols : list N := [44%N; naira; 37%N].
Definition dollar : N := 36%N.

(** The period parser as the specification words it: the first pattern
    that matches anywhere in the text wins, and the parse fails when
    either side of that match fails all six formats. *)
Definition first_matching_pattern (period_str : str) : option (str * str) :=
  first_some (fun pattern =>
                match re_search pattern period_str with
                | Some [start_str; end_str] => Some (start_str, end_str)
                | _ => None
                end)
             date_patterns.

Definition first_match_wins (period_str : str) : option (date * date) :=
  match first_matching_pattern (strip period_str) with
  | Some (start_str, end_str) =>
      match _parse_single_date start_str, _parse_single_date end_str with
      | Some start_date, Some end_date => Some (start_date, end_date)
      | _, _ => None
      end
  | None => None
  end.

(** A pattern gives no dates on a text: it does not match, or one side
    of its match fails every format. *)
Definition pattern_gives_nothing (period_str : str) (pattern : regex) : Prop :=
  re_search pattern period_str = None
  \/ exists start_str end_str,
      re_search pattern period_str = Some [start_str; end_str]
      /\ (_parse_single_date start_str = None \/ _parse_single_date end_str = None).

Module Scenario.

(** A rendering of a Series for the scenarios: the texts of its cells,
    one on each line.  (pandas adds the index labels and a last line
    with the name and the type.)  No run below comes to consult it:
    where the period is given to two columns, the statement is about
    every rendering. *)
Definition values_only (column : list (nat * pyval)) : str :=
  concat (map (fun iv => str_of_val (snd iv) ++ [10%N]) column).

(** Collaborators that never fail, and a world with nothing in it. *)
Definition reliable : collaborators :=
  {| repository_failure := fun _ => None;
     session_failure := fun _ => None;
     model_failure := fun _ => None;
     commit_failure := fun _ _ => None;
     audit_failure := fun _ _ => None;
     refresh_failure := fun _ => None;
     series_text := values_only |}.

(** The same, except that the audit log cannot be written. *)
Definition audit_down : collaborators :=
  {| repository_failure := fun _ => None;
     session_failure := fun _ => None;
     model_failure := fun _ => None;
     commit_failure := fun _ _ => None;
     audit_failure := fun _ _ => Some (OtherError (Plain (lit "connection lost")));
     refresh_failure := fun _ => None;
     series_text := values_only |}.

(** Collaborators of which the audit log commits its entries and then
    fails to refresh them. *)
Definition refresh_down : collaborators :=
  {| repository_failure := fun _ => None;
     session_failure := fun _ => None;
     model_failure := fun _ => None;
     commit_failure := fun _ _ => None;
     audit_failure := fun _ _ => None;
     refresh_failure := fun _ => Some (OtherError (Plain (lit "connection lost")));
     series_text := values_only |}.

Definition fresh : world :=
  {| insurance_policies := []; data_ingestion_logs := []; calls := 0 |}.

Definition request : ExcelIngestionRequest :=
  {| validate_schema := true; skip_duplicates := true; batch_size := 1000 |}.

Definition headers : list str :=
  map lit [ "Policy Number"; "Insured Name"; "Sum Insured"; "Premium";
            "Own Retention %"; "Own Retention Sum Insured";
            "Own Retention Premium"; "Treaty %"; "Treaty Sum Insured";
            "Treaty Premium"; "Period of Insurance" ]%string.

Definition sheet_row (cells : list pyval) : row := combine headers cells.

Definition txt (s : string) : pyval := VStr (lit s).

Definition sheet (rs : list row) : frame :=
  {| columns := headers; rows := combine (seq 0 (List.length rs)) rs |}.

Definition file_of (df : frame) : upload :=
  {| upload_name := lit "policies.xlsx"; upload_size := 2048; read_excel := Ok df |}.

(** The sheet of the end-to-end scenario: a sum insured written
    "₦1,000,000", a treaty percentage "150", a missing insured name. *)
Definition three_rows : frame :=
  sheet
    [ sheet_row [ txt "POL-001"; txt "Acme Ltd"; VStr (naira :: lit "1,000,000");
                  VInt 5000; VInt 40; VInt 400000; VInt 2000;
                  VInt 60; VInt 600000; VInt 3000;
                  txt "01/01/2024 - 31/12/2024" ];
      sheet_row [ txt "POL-002"; txt "Beta Plc"; VInt 2000000;
                  VInt 9000; VInt 50; VInt 1000000; VInt 4500;
                  txt "150"; VInt 1000000; VInt 4500;
                  txt "2024-01-01 - 2024-12-31" ];
      sheet_row [ txt "POL-003"; empty_cell; VInt 500000;
                  VInt 1000; VInt 30; VInt 150000; VInt 300;
                  VInt 70; VInt 350000; VInt 700;
                  txt "01.02.2024 - 31.01.2025" ] ].

(** One sound row. *)
Definition one_row : frame :=
  sheet
    [ sheet_row [ txt "POL-001"; txt "Acme Ltd"; VInt 1000000;
                  VInt 5000; VInt 40; VInt 400000; VInt 2000;
                  VInt 60; VInt 600000; VInt 3000;
                  txt "01/01/2024 - 31/12/2024" ] ].

(** One row without an insured name, whose sum insured does not read
    as a number. *)
Definition nameless_row : frame :=
  sheet
    [ sheet_row [ txt "POL-009"; empty_cell; txt "abc";
                  VInt 5000; VInt 40; VInt 400000; VInt 2000;
                  VInt 60; VInt 600000; VInt 3000;
                  txt "01/01/2024 - 31/12/2024" ] ].

(** A frame with one more column, last. *)
Definition with_column (label : str) (values : list pyval) (df : frame) : frame :=
  {| columns := columns df ++ [label];
     rows := map (fun irv => (fst (fst irv), snd (fst irv) ++ [(label, snd irv)]))
                 (combine (rows df) values) |}.

(** The sound row under one more header, which is the header of
    another column once the labels are normalized: "PREMIUM " beside
    "Premium", and "POLICY NUMBER " beside "Policy Number". *)
Definition two_premiums : frame :=
  with_column (lit "PREMIUM ") [VInt 5000] one_row.


Definition two_periods : frame :=
  with_column (lit "PERIOD OF INSURANCE ") [txt "01/02/2024 - 31/01/2025"] one_row.

Definition two_treaty_percentages : frame :=
  with_column (lit "TREATY % ") [txt "150"] one_row.

(** One row whose treaty percentage is written "+nan". *)
Definition nan_percentage : frame :=
  sheet
    [ sheet_row [ txt "POL-001"; txt "Acme Ltd"; VInt 1000000;
                  VInt 5000; VInt 40; VInt 400000; VInt 2000;
                  txt "+nan"; VInt 600000; VInt 3000;
                  txt "01/01/2024 - 31/12/2024" ] ].

(** A sheet once its columns are normalized and renamed, as the
    cleaning receives it, and once it is parsed. *)
Definition renamed (df : frame) : frame :=
  rename (_create_column_mapping (columns (normalize_columns df)) default_mapping)
         (normalize_columns df).

Definition parsed (df : frame) : frame :=
  match parse_excel_file values_only (Ok df) None with
  | Ok (valid_df, _) => valid_df
  | Raise _ => {| columns := []; rows := [] |}
  end.

(** The record of the sound row. *)
Definition acme : InsurancePolicyCreate :=
  {| policy_number := lit "POL-001";
     insured_name := lit "Acme Ltd";
     sum_insured := float_of_Z 1000000;
     premium := float_of_Z 5000;
     own_retention_ppn := float_of_Z 40;
     own_retention_sum_insured := float_of_Z 400000;
     own_retention_premium := float_of_Z 2000;
     treaty_ppn := float_of_Z 60;
     treaty_sum_insured := float_of_Z 600000;
     treaty_premium := float_of_Z 3000;
     insurance_period_start_date := mk_date 2024 1 1;
     insurance_period_end_date := mk_date 2024 12 31 |}.

(** A second record, and a world whose table holds the first. *)
Definition beta : InsurancePolicyCreate :=
  {| policy_number := lit "POL-002";
     insured_name := lit "Beta Plc";
     sum_insured := float_of_Z 2000000;
     premium := float_of_Z 9000;
     own_retention_ppn := float_of_Z 50;
     own_retention_sum_insured := float_of_Z 1000000;
     own_retention_premium := float_of_Z 4500;
     treaty_ppn := float_of_Z 50;
     treaty_sum_insured := float_of_Z 1000000;
     treaty_premium := float_of_Z 4500;
     insurance_period_start_date := mk_date 2024 1 1;
     insurance_period_end_date := mk_date 2024 12 31 |}.

Definition stocked : world :=
  {| insurance_policies := [acme]; data_ingestion_logs := []; calls := 0 |}.

(** A period text in which the first pattern matches two things that
    are not dates, and the second pattern matches two dates. *)
Definition two_ranges : str :=
  lit "32/01/2024 - 31/12/2024 (2024-01-01 - 2024-12-31)".

(** A sheet with a single column. *)
Definition lone_column : frame :=
  {| columns := [lit "Policy Number"];
     rows := [(0%nat, [(lit "Policy Number", txt "POL-001")])] |}.

(** A file that cannot be read. *)
Definition unreadable : upload :=
  {| upload_name := lit "broken.xlsx"; upload_size := 12;
     read_excel := Raise (ValueError (Plain (lit "File is not a zip file"))) |}.

End Scenario.


(* ================================================================== *)
(** * Notions used in the proofs *)
(* ================================================================== *)

(** What the cleaning returns on a frame in which each label it works
    on is carried by one column, where it does not raise: the frame and
    the errors of [_clean_numeric_field] and of the blocks of
    [_clean_and_validate_data]. *)
Definition numeric_field_cleaned (df : frame) (field : str)
  : frame * list ExcelValidationError :=
  if negb (has_column df field) then (df, [])
  else
    let df := map_column field (fun v => VStr (numeric_text v)) df in
    let results := map (clean_numeric_row field) (rows df) in
    ({| columns := columns df; rows := map fst results |},
     concat (map snd results)).

Definition strings_cleaned (df : frame) : frame :=
  fold_left (fun df field =>
               if has_column df field then map_column field clean_string_cell df
               else df)
            string_fields df.

Definition numbers_cleaned (df : frame) : frame * list ExcelValidationError :=
  fold_left (fun acc field =>
               if has_column (fst acc) field then
                 let (df', field_errors) := numeric_field_cleaned (fst acc) field in
                 (df', snd acc ++ field_errors)
               else acc)
            numeric_fields (df, []).

Definition cleaned_and_validated (df : frame)
  : frame * list ExcelValidationError :=
  let df := strings_cleaned df in
  let (df, errors) := numbers_cleaned df in
  (df, validate_percentages df errors).

(** A row that has received its two dates and lost its period. *)
Definition dated (d : date * date) (r : row) : row :=
  filter (fun kv => negb (str_eqb (fst kv) F.period_of_insurance))
         (assign_cell F.insurance_period_end_date (VDate (snd d))
            (assign_cell F.insurance_period_start_date (VDate (fst d)) r)).

(** The entries [ingest_excel_file] hands to the audit log: that of
    the outcome it has computed, and that of a failed run. *)
Definition entry_of (file : upload) (o : outcome) (details : option (list text))
  : audit_entry :=
  {| log_filename := upload_name file;
     log_file_size_bytes := upload_size file;
     log_rows_processed := out_total_rows o;
     log_rows_successful := out_successful o;
     log_rows_failed := out_failed o;
     log_status := out_status o;
     log_error_details := details |}.

Definition failed_entry (file : upload) (e : exn) : audit_entry :=
  {| log_filename := upload_name file;
     log_file_size_bytes := upload_size file;
     log_rows_processed := 0;
     log_rows_successful := 0;
     log_rows_failed := 0;
     log_status := lit "failed";
     log_error_details := Some [str_of_exn e] |}.

(** An entry of the audit log and a report that tell the same of a run:
    status and counts. *)
Definition agrees (entry : audit_entry) (report : ExcelIngestionResponse) : Prop :=
  log_status entry = status report
  /\ log_rows_processed entry = total_rows report
  /\ log_rows_successful entry = processed_rows report
  /\ log_rows_failed entry = failed_rows report.

(** The fields [_clean_and_validate_data] reads through [.str], in the
    order in which it comes to them. *)
Definition text_fields : list str := string_fields ++ numeric_fields.

(** What [_clean_and_validate_data] does to one row: the strings, then
    the numbers, of the fields that are columns. *)
Definition clean_string_in_row (cols : list str) (ir : nat * row) (field : str)
  : nat * row :=
  if mem_str field cols
  then (fst ir, set_cell field (clean_string_cell (cell field (snd ir))) (snd ir))
  else ir.

Definition clean_number_in_row (cols : list str) (ir : nat * row) (field : str)
  : nat * row :=
  if mem_str field cols
  then (fst ir,
        set_cell field
          (VFloat (fst (convert_numeric field (fst ir)
                          (numeric_text (cell field (snd ir))))))
          (snd ir))
  else ir.

Definition clean_row (cols : list str) (ir : nat * row) : nat * row :=
  fold_left (clean_number_in_row cols) numeric_fields
            (fold_left (clean_string_in_row cols) string_fields ir).

(** The number of groups of an expression, and the expressions in which
    this number does not depend on the way the text is matched. *)
Fixpoint ngroups (r : regex) : nat :=
  match r with
  | RSet _ | RStar _ | RRep _ _ _ => 0
  | RSeq a b => ngroups a + ngroups b
  | RAlt a _ => ngroups a
  | RGroup r' => S (ngroups r')
  end.

Fixpoint uniform (r : regex) : bool :=
  match r with
  | RSet _ | RStar _ => true
  | RSeq a b => uniform a && uniform b
  | RAlt a b => uniform a && uniform b && Nat.eqb (ngroups a) (ngroups b)
  | RRep _ _ r' => uniform r' && Nat.eqb (ngroups r') 0
  | RGroup r' => uniform r'
  end.

(** A step of the pipeline is safe when all it can do to the table of
    policies is to add records that satisfy the invariant. *)
Definition grows_validly (w w' : world) : Prop :=
  exists added,
    insurance_policies w' = insurance_policies w ++ added
    /\ Forall domain_invariant added.

Definition safe {A} (m : M A) : Prop := forall w, grows_validly w (snd (m w)).

(** Split a conjunction into its parts, and nothing else. *)
Ltac conjuncts := repeat match goal with |- _ /\ _ => split end.

(** Settle a closed goal by evaluation. *)
Ltac by_evaluation := conjuncts; vm_compute; reflexivity.

(** The model of a record can be built. *)
Definition model_ok (env : collaborators) (p : InsurancePolicyCreate) : bool :=
  match model_failure env p with
  | None => true
  | Some _ => false
  end.

(** An error of the report that stands for a row the conversion
    refused: "Row n: ...". *)
Definition is_row_error (item : error_item) : bool :=
  match item with
  | Message (RowError _ _) => true
  | _ => false
  end.

(** A frame as [read_excel] delivers it: every row has one cell under
    each column label, in the order of the labels. *)
Definition as_read (df : frame) : Prop :=
  Forall (fun ir => map fst (snd ir) = columns df) (rows df).

(** The way of matching that [rmatch] tries first on a text that starts
    with [p] takes [p], and closes the groups [groups]. *)
Definition matches_first (r : regex) (p : str) (groups : list str) : Prop :=
  forall (A : Type) (rest : str) (caps : list str)
         (k : str -> list str -> option A) (x : A),
    k rest (caps ++ groups) = Some x -> rmatch r (p ++ rest) caps k = Some x.

(** The eleven column names an [ExcelColumnMapping] configures, and the
    fields they stand for, in the order of the table of rules. *)
Definition configured_names (mapping : ExcelColumnMapping) : list str :=
  [ policy_number_col mapping; insured_name_col mapping; sum_insured_col mapping;
    premium_col mapping; own_retention_ppn_col mapping;
    own_retention_sum_col mapping; own_retention_premium_col mapping;
    treaty_ppn_col mapping; treaty_sum_col mapping; treaty_premium_col mapping;
    period_of_insurance_col mapping ].

Definition configured_fields : list str :=
  [ F.policy_number; F.insured_name; F.sum_insured; F.premium;
    F.own_retention_ppn; F.own_retention_sum_insured; F.own_retention_premium;
    F.treaty_ppn; F.treaty_sum_insured; F.treaty_premium; F.period_of_insurance ].

(** The identity cells of a row are texts. *)
Definition identity_is_text (ir : nat * row) : Prop :=
  forall field, In field string_fields ->
                exists s, lookup field (snd ir) = Some (VStr s).

(** The numeric cells of a row are floats. *)
Definition numbers_are_floats (ir : nat * row) : Prop :=
  forall field, In field numeric_fields ->
                exists x, lookup field (snd ir) = Some (VFloat x).

(** The two date cells of a row are dates of the calendar. *)
Definition period_is_dates (ir : nat * row) : Prop :=
  exists start_date end_date,
    lookup F.insurance_period_start_date (snd ir) = Some (VDate start_date)
    /\ lookup F.insurance_period_end_date (snd ir) = Some (VDate end_date)
    /\ valid_date (year start_date) (month start_date) (day start_date) = true
    /\ valid_date (year end_date) (month end_date) (day end_date) = true.

(* ================================================================== *)
(** * Properties of the text operations *)
(* ================================================================== *)

Lemma str_eqb_spec (a b : str) : str_eqb a b = true <-> a = b.
Proof.
  revert b; induction a as [|x a IH]; intros [|y b]; simpl.
  - tauto.
  - split; discriminate.
  - split; discriminate.
  - rewrite andb_true_iff, N.eqb_eq, IH.
    split; [intros [-> ->]; reflexivity | intros H; inversion H; auto].
Qed.

Lemma str_eqb_refl (a : str) : str_eqb a a = true.
Proof. apply str_eqb_spec; reflexivity. Qed.

Lemma mem_str_In (x : str) (l : list str) : mem_str x l = true <-> In x l.
Proof.
  unfold mem_str. rewrite existsb_exists. split.
  - intros (y & Hy & E). apply str_eqb_spec in E. subst; assumption.
  - intros H. exists x. split; [assumption | apply str_eqb_refl].
Qed.

Lemma mem_str_false (x : str) (l : list str) : mem_str x l = false <-> ~ In x l.
Proof.
  rewrite <- mem_str_In. destruct (mem_str x l); split; intros H;
    congruence.
Qed.

(** [lstrip] leaves a text whose first character is not a space. *)
Lemma lstrip_fixed (s : str) :
  match s with
  | c :: _ => is_space c = false
  | [] => True
  end -> lstrip s = s.
Proof. destruct s as [|c t]; simpl; intros H; [reflexivity | now rewrite H]. Qed.

Lemma lstrip_head (s : str) :
  match lstrip s with
  | c :: _ => is_space c = false
  | [] => True
  end.
Proof.
  induction s as [|c t IH]; simpl; [exact I |].
  destruct (is_space c) eqn:E; [exact IH | exact E].
Qed.

Lemma lstrip_idem (s : str) : lstrip (lstrip s) = lstrip s.
Proof. apply lstrip_fixed, lstrip_head. Qed.

Lemma rstrip_idem (s : str) : rstrip (rstrip s) = rstrip s.
Proof. unfold rstrip. now rewrite rev_involutive, lstrip_idem. Qed.

(** Stripping on the right of a text that ends in anything keeps its
    first character. *)
Lemma lstrip_app_keep (a : str) (c : char) (b : str) :
  is_space c = false -> lstrip (a ++ c :: b) = lstrip a ++ c :: b.
Proof.
  intros Hc. induction a as [|x a IH]; simpl.
  - now rewrite Hc.
  - destruct (is_space x); [exact IH | reflexivity].
Qed.

Lemma rstrip_head (s : str) :
  match s with
  | c :: _ => is_space c = false
  | [] => True
  end ->
  match rstrip s with
  | c :: _ => is_space c = false
  | [] => True
  end.
Proof.
  destruct s as [|c t]; [intros _; exact I |].
  intros Hc. unfold rstrip. simpl rev.
  rewrite lstrip_app_keep by exact Hc.
  rewrite rev_app_distr. simpl. exact Hc.
Qed.

Lemma strip_idem (s : str) : strip (strip s) = strip s.
Proof.
  unfold strip.
  rewrite (lstrip_fixed (rstrip (lstrip s))).
  - apply rstrip_idem.
  - apply rstrip_head, lstrip_head.
Qed.

(** Removing a character twice, or two characters in either order. *)
Lemma remove_char_idem (c : char) (s : str) :
  remove_char c (remove_char c s) = remove_char c s.
Proof.
  unfold remove_char. induction s as [|x s IH]; simpl; [reflexivity |].
  destruct (N.eqb x c) eqn:E; simpl; [exact IH |].
  rewrite E. simpl. now rewrite IH.
Qed.

Lemma remove_char_comm (c d : char) (s : str) :
  remove_char c (remove_char d s) = remove_char d (remove_char c s).
Proof.
  unfold remove_char. induction s as [|x s IH]; simpl; [reflexivity |].
  destruct (N.eqb x d) eqn:Ed, (N.eqb x c) eqn:Ec; simpl;
    rewrite ?Ed, ?Ec; simpl; now rewrite ?IH.
Qed.

(* ================================================================== *)
(** * The scenarios, run *)
(* ================================================================== *)

Import Scenario.

(** C1.  A run whose parsing, conversion and persistence went through
    and whose outcome is computed (one row, processed, status
    "success"), and whose audit-log write then fails: the specification
    wants the report to carry that outcome; the code returns the report
    of a failed run, with zero counts and the text of the audit failure
    as its only error, although the record is in the store. *)
Theorem audit_failure_replaces_outcome :
  let file := file_of one_row in
  (exists w,
      compute_outcome audit_down file request fresh
      = (Ok {| out_total_rows := 1; out_successful := 1; out_failed := 0;
               out_errors := []; out_status := lit "success" |}, w)
      /\ List.length (insurance_policies w) = 1%nat)
  /\ fst (ingest_excel_file audit_down file request fresh)
     = Ok {| ingestion_id := lit "00000000-0000-0000-0000-000000000000";
             filename := lit "policies.xlsx";
             total_rows := 0; processed_rows := 0; failed_rows := 0;
             status := lit "failed";
             errors := [Message (Plain (lit "connection lost"))];
             warnings := [] |}.
Proof.
  cbv zeta. split.
  - eexists. split; vm_compute; reflexivity.
  - by_evaluation.
Qed.

(** C2, as stated, fails: on the three-row sheet, with collaborators
    that never fail, the report does not have two processed rows, one
    failed row and the status "partial". *)
Lemma three_rows_report_differs :
  ~ exists report,
      fst (ingest_excel_file reliable (file_of three_rows) request fresh) = Ok report
      /\ processed_rows report = 2%nat
      /\ failed_rows report = 1%nat
      /\ status report = lit "partial".
Proof.
  intros (report & E & P & _).
  vm_compute in E. inversion E; subst report.
  simpl in P. discriminate P.
Qed.

(** C2, amended.  On the three-row sheet the parser keeps the three
    rows and records exactly one cell error, of kind
    "invalid_percentage", for the treaty percentage of sheet row 3,
    whose value 150.0 stays; the conversion builds one record, for the
    row whose sum insured was written with the naira sign, and reports
    the other two rows in texts of their own; one record reaches the
    store, and the outcome computed is three rows in total, one
    processed, none failed, status "success". *)
Theorem three_rows_outcome :
  exists df e o w,
    parse_excel_file values_only (Ok three_rows) None = Ok (df, [e])
    /\ List.length (rows df) = 3%nat
    /\ e = validation_error 1 F.treaty_ppn (lit "invalid_percentage")
                            (PercentageRange (float_of_Z 150)) (lit "150.0")
    /\ map (fun ir => cell F.treaty_ppn (snd ir)) (rows df)
       = [VFloat (float_of_Z 60); VFloat (float_of_Z 150); VFloat (float_of_Z 70)]
    /\ map (fun ir => cell F.sum_insured (snd ir)) (rows df)
       = [VFloat (float_of_Z 1000000); VFloat (float_of_Z 2000000);
          VFloat (float_of_Z 500000)]
    /\ map (@policy_number date) (fst (convert_rows df)) = [lit "POL-001"]
    /\ snd (convert_rows df)
       = [RowError 3 (DataConversionError (SchemaRejected [F.treaty_ppn]));
          RowError 4 (DataConversionError InsuredNameRequired)]
    /\ compute_outcome reliable (file_of three_rows) request fresh = (Ok o, w)
    /\ out_total_rows o = 3%nat
    /\ out_successful o = 1%nat
    /\ out_failed o = 0%nat
    /\ out_status o = lit "success"
    /\ out_errors o = CellError e :: map Message (snd (convert_rows df))
    /\ insurance_policies w = fst (convert_rows df).
Proof.
  do 4 eexists.
  split; [vm_compute; reflexivity |].
  do 6 (split; [vm_compute; reflexivity |]).
  split; [vm_compute; reflexivity |].
  by_evaluation.
Qed.

(** C3.  A sheet whose only row has no insured name and a sum insured
    that is not a number.  The row is kept out of the batch and the
    outcome computed counts one row in total and keeps the cell error;
    but the report returned is that of a failed run: zero rows in total,
    and the cell error replaced by the refusal of [join]. *)
Theorem nameless_row_report_loses_cell_errors :
  let file := file_of nameless_row in
  let cell_error :=
    validation_error 0 F.sum_insured (lit "invalid_numeric")
                     (CannotConvert (lit "abc")) (lit "abc") in
  (exists df, parse_excel_file values_only (Ok nameless_row) None = Ok (df, [cell_error])
              /\ List.length (rows df) = 1%nat
              /\ fst (convert_rows df) = [])
  /\ (exists w,
         compute_outcome reliable file request fresh
         = (Ok {| out_total_rows := 1; out_successful := 0; out_failed := 0;
                  out_errors :=
                    [CellError cell_error;
                     Message (RowError 2 (DataConversionError InsuredNameRequired))];
                  out_status := lit "success" |}, w))
  /\ fst (ingest_excel_file reliable file request fresh)
     = Ok {| ingestion_id := lit "00000000-0000-0000-0000-000000000000";
             filename := lit "policies.xlsx";
             total_rows := 0; processed_rows := 0; failed_rows := 0;
             status := lit "failed";
             errors := [Message (JoinItemNotStr 0)];
             warnings := [] |}.
Proof.
  cbv zeta. split; [| split].
  - eexists. split; [vm_compute; reflexivity |]. by_evaluation.
  - eexists. vm_compute. reflexivity.
  - by_evaluation.
Qed.

(** C5, as stated, fails: in this text the first pattern matches
    "32/01/2024 - 31/12/2024", whose first side is no date, so a parser
    in which the first matching pattern wins fails; the code goes on to
    the second pattern and returns the dates it finds. *)
Lemma two_ranges_parsed_by_second_pattern :
  first_matching_pattern (strip two_ranges)
  = Some (lit "32/01/2024", lit "31/12/2024")
  /\ _parse_single_date (lit "32/01/2024") = None
  /\ first_match_wins two_ranges = None
  /\ _parse_insurance_period two_ranges
     = Ok (mk_date 2024 1 1, mk_date 2024 12 31).
Proof. by_evaluation. Qed.

(* ================================================================== *)
(** * Rows and cells *)
(* ================================================================== *)

Lemma lookup_set_cell_same (k : str) (v : pyval) (r : row) :
  lookup k (set_cell k v r)
  = match lookup k r with
    | Some _ => Some v
    | None => None
    end.
Proof.
  induction r as [|[k' v'] r IH]; simpl; [reflexivity |].
  destruct (str_eqb k' k) eqn:E; simpl; rewrite E; [reflexivity | exact IH].
Qed.

Lemma lookup_set_cell_other (k k' : str) (v : pyval) (r : row) :
  k <> k' -> lookup k' (set_cell k v r) = lookup k' r.
Proof.
  intros N. induction r as [|[k0 v0] r IH]; simpl; [reflexivity |].
  destruct (str_eqb k0 k) eqn:E; simpl.
  - apply str_eqb_spec in E. subst k0.
    destruct (str_eqb k k') eqn:E'; [| exact IH].
    apply str_eqb_spec in E'. contradiction.
  - destruct (str_eqb k0 k'); [reflexivity | exact IH].
Qed.

Lemma cell_set_cell_other (k k' : str) (v : pyval) (r : row) :
  k <> k' -> cell k' (set_cell k v r) = cell k' r.
Proof. intros N. unfold cell. now rewrite lookup_set_cell_other. Qed.

Lemma cell_set_cell_same (k : str) (v : pyval) (r : row) :
  lookup k r <> None -> cell k (set_cell k v r) = v.
Proof.
  intros P. unfold cell. rewrite lookup_set_cell_same.
  destruct (lookup k r); [reflexivity | contradiction].
Qed.

Lemma set_cell_absent (k : str) (v : pyval) (r : row) :
  lookup k r = None -> set_cell k v r = r.
Proof.
  induction r as [|[k' v'] r IH]; simpl; [reflexivity |].
  destruct (str_eqb k' k); [discriminate |].
  intros H. now rewrite IH.
Qed.

Lemma set_cell_twice (k : str) (v v' : pyval) (r : row) :
  set_cell k v' (set_cell k v r) = set_cell k v' r.
Proof.
  induction r as [|[k0 v0] r IH]; simpl; [reflexivity |].
  destruct (str_eqb k0 k) eqn:E; simpl; rewrite E; now rewrite IH.
Qed.

(** The text the loop of [_clean_numeric_field] reads in a row is the
    text the head of the function wrote there. *)
Lemma loop_reads_numeric_text (field : str) (r : row) :
  str_of_val (cell field (set_cell field (VStr (numeric_text (cell field r))) r))
  = numeric_text (cell field r).
Proof.
  destruct (lookup field r) eqn:E.
  - rewrite cell_set_cell_same by congruence. reflexivity.
  - rewrite set_cell_absent by exact E.
    unfold cell. rewrite E. vm_compute. reflexivity.
Qed.

(** On a label that one column carries, [_clean_numeric_field] works
    cell by cell ([numeric_field_cleaned]): each cell of the column
    becomes the number [convert_numeric] gives for its stripped text,
    and the errors are those of the cells, in row order. *)
Lemma clean_numeric_field_cells (df : frame) (field : str) :
  has_column df field = true ->
  numeric_field_cleaned df field
  = ({| columns := columns df;
        rows := map (fun ir =>
                       (fst ir,
                        set_cell field
                          (VFloat (fst (convert_numeric field (fst ir)
                                          (numeric_text (cell field (snd ir))))))
                          (snd ir)))
                    (rows df) |},
     flat_map (fun ir => snd (convert_numeric field (fst ir)
                                (numeric_text (cell field (snd ir)))))
              (rows df)).
Proof.
  intros H. unfold numeric_field_cleaned. rewrite H. simpl.
  rewrite !map_map, flat_map_concat_map.
  f_equal; [f_equal |]; [| f_equal]; apply map_ext; intros [idx r];
    unfold clean_numeric_row; simpl; rewrite loop_reads_numeric_text;
    destruct (convert_numeric field idx (numeric_text (cell field r))); simpl;
    [now rewrite set_cell_twice | reflexivity].
Qed.

(* ================================================================== *)
(** * Labels that several columns carry *)
(* ================================================================== *)

Lemma occurrences_absent (k : str) (labels : list str) :
  mem_str k labels = false -> occurrences k labels = 0%nat.
Proof.
  unfold mem_str, occurrences.
  induction labels as [|c labels IH]; simpl; [reflexivity |].
  destruct (str_eqb k c); simpl; [discriminate | exact IH].
Qed.

Lemma duplicated_has_column (df : frame) (k : str) :
  duplicated df k = true -> has_column df k = true.
Proof.
  unfold duplicated, has_column. intros D.
  destruct (mem_str k (columns df)) eqn:E; [reflexivity |].
  rewrite (occurrences_absent _ _ E) in D. discriminate D.
Qed.

Lemma duplicated_map_column (k field : str) (f : pyval -> pyval) (df : frame) :
  duplicated (map_column field f df) k = duplicated df k.
Proof. reflexivity. Qed.

(** [_clean_numeric_field] raises on a label that several columns
    carry, and on no other. *)
Lemma clean_numeric_field_cases (df : frame) (field : str) :
  _clean_numeric_field df field
  = if duplicated df field then Raise (AttributeError FrameHasNoStr)
    else Ok (numeric_field_cleaned df field).
Proof.
  unfold _clean_numeric_field, numeric_field_cleaned, str_accessor.
  destruct (has_column df field) eqn:H; cbn [negb].
  - destruct (duplicated df field); reflexivity.
  - destruct (duplicated df field) eqn:D; [| reflexivity].
    apply duplicated_has_column in D. congruence.
Qed.

Lemma numeric_field_cleaned_columns (df : frame) (field : str) :
  columns (fst (numeric_field_cleaned df field)) = columns df.
Proof.
  unfold numeric_field_cleaned. destruct (has_column df field); reflexivity.
Qed.

Lemma strings_cleaned_columns (df : frame) :
  columns (strings_cleaned df) = columns df.
Proof.
  unfold strings_cleaned.
  generalize string_fields. intros fields. revert df.
  induction fields as [|f fields IH]; intros df; [reflexivity |].
  cbn [fold_left]. rewrite IH. now destruct (has_column df f).
Qed.

(** The first block of [_clean_and_validate_data] raises when several
    columns carry the label of the policy number or of the insured
    name, and then only. *)
Lemma clean_strings_cases (df : frame) :
  clean_strings df
  = if existsb (duplicated df) string_fields
    then Raise (AttributeError FrameHasNoStr)
    else Ok (strings_cleaned df).
Proof.
  unfold clean_strings, strings_cleaned.
  assert (G : forall fields (df : frame),
             fold_left
               (fun acc field =>
                  res_bind acc (fun df =>
                    if has_column df field then
                      res_bind (str_accessor df field) (fun _ =>
                        Ok (map_column field clean_string_cell df))
                    else Ok df))
               fields (Ok df)
             = if existsb (duplicated df) fields
               then Raise (AttributeError FrameHasNoStr)
               else Ok (fold_left
                          (fun df field =>
                             if has_column df field
                             then map_column field clean_string_cell df
                             else df)
                          fields df)).
  { induction fields as [|f fields IH]; intros d; [reflexivity |].
    cbn [fold_left existsb res_bind]. unfold str_accessor.
    destruct (duplicated d f) eqn:D.
    - rewrite (duplicated_has_column _ _ D). cbn [res_bind orb].
      clear IH. induction fields as [|g fields IH]; [reflexivity | exact IH].
    - cbn [orb]. destruct (has_column d f); cbn [res_bind]; rewrite IH; reflexivity. }
  apply G.
Qed.

Lemma numbers_cleaned_columns (df : frame) :
  columns (fst (numbers_cleaned df)) = columns df.
Proof.
  unfold numbers_cleaned.
  assert (G : forall fields (acc : frame * list ExcelValidationError),
             columns (fst (fold_left
                             (fun acc field =>
                                if has_column (fst acc) field then
                                  let (df', field_errors) :=
                                    numeric_field_cleaned (fst acc) field in
                                  (df', snd acc ++ field_errors)
                                else acc)
                             fields acc))
             = columns (fst acc)).
  { induction fields as [|f fields IH]; intros acc; [reflexivity |].
    cbn [fold_left]. rewrite IH.
    destruct (has_column (fst acc) f); [| reflexivity].
    pose proof (numeric_field_cleaned_columns (fst acc) f) as C.
    destruct (numeric_field_cleaned (fst acc) f). exact C. }
  apply (G numeric_fields (df, [])).
Qed.

(** The second block raises when several columns carry the label of a
    numeric field, and then only. *)
Lemma clean_numbers_cases (df : frame) :
  clean_numbers df
  = if existsb (duplicated df) numeric_fields
    then Raise (AttributeError FrameHasNoStr)
    else Ok (numbers_cleaned df).
Proof.
  unfold clean_numbers, numbers_cleaned.
  assert (G : forall fields (acc : frame * list ExcelValidationError),
             fold_left
               (fun acc field =>
                  res_bind acc (fun cleaned =>
                    if has_column (fst cleaned) field then
                      res_bind (_clean_numeric_field (fst cleaned) field)
                               (fun result =>
                                  Ok (fst result, snd cleaned ++ snd result))
                    else Ok cleaned))
               fields (Ok acc)
             = if existsb (duplicated (fst acc)) fields
               then Raise (AttributeError FrameHasNoStr)
               else Ok (fold_left
                          (fun acc field =>
                             if has_column (fst acc) field then
                               let (df', field_errors) :=
                                 numeric_field_cleaned (fst acc) field in
                               (df', snd acc ++ field_errors)
                             else acc)
                          fields acc)).
  { induction fields as [|f fields IH]; intros acc; [reflexivity |].
    cbn [fold_left existsb res_bind].
    rewrite clean_numeric_field_cases.
    destruct (duplicated (fst acc) f) eqn:D.
    - rewrite (duplicated_has_column _ _ D). cbn [res_bind orb].
      clear IH. induction fields as [|g fields IH]; [reflexivity | exact IH].
    - cbn [orb]. destruct (has_column (fst acc) f) eqn:H; cbn [res_bind].
      + rewrite IH. cbn [fst].
        pose proof (numeric_field_cleaned_columns (fst acc) f) as C.
        destruct (numeric_field_cleaned (fst acc) f) as [df' field_errors].
        cbn [fst snd] in C |- *. unfold duplicated. rewrite C. reflexivity.
      + rewrite IH. reflexivity. }
  apply (G numeric_fields (df, [])).
Qed.

(** [_clean_and_validate_data] raises when several columns carry the
    label of one of the ten fields it cleans, and then only. *)
Lemma clean_and_validate_cases (df : frame) :
  _clean_and_validate_data df
  = if existsb (duplicated df) text_fields
    then Raise (AttributeError FrameHasNoStr)
    else Ok (cleaned_and_validated df).
Proof.
  unfold _clean_and_validate_data, cleaned_and_validated, text_fields.
  rewrite existsb_app, clean_strings_cases.
  destruct (existsb (duplicated df) string_fields); cbn [res_bind orb];
    [reflexivity |].
  rewrite clean_numbers_cases.
  assert (E : existsb (duplicated (strings_cleaned df)) numeric_fields
              = existsb (duplicated df) numeric_fields).
  { unfold duplicated. now rewrite strings_cleaned_columns. }
  rewrite E.
  destruct (existsb (duplicated df) numeric_fields); cbn [res_bind];
    [reflexivity |].
  destruct (numbers_cleaned (strings_cleaned df)). reflexivity.
Qed.

(* ================================================================== *)
(** * The numeric sanitizer *)
(* ================================================================== *)

Lemma filter_absorbs {A} (p q : A -> bool) (l : list A) :
  (forall a, p a = true -> q a = true) ->
  filter p (filter q l) = filter p l.
Proof.
  intros H. induction l as [|a l IH]; simpl; [reflexivity |].
  destruct (q a) eqn:Q; simpl.
  - now rewrite IH.
  - destruct (p a) eqn:P; [| exact IH].
    apply H in P. congruence.
Qed.

(** The text the sanitizer converts is the text of the cell without
    commas, naira signs and percent signs, stripped. *)
Lemma numeric_text_removes (s : str) :
  numeric_text (VStr s) = strip (without removed_symbols s).
Proof.
  unfold numeric_text, without, removed_symbols, remove_char. cbn [str_of_val].
  f_equal. induction s as [|c s IH]; [reflexivity |].
  cbn [filter existsb].
  destruct (N.eqb c 44); cbn [negb orb filter]; [exact IH |].
  destruct (N.eqb c naira); cbn [negb orb filter]; [exact IH |].
  destruct (N.eqb c 37); cbn [negb orb filter]; [exact IH |].
  now rewrite IH.
Qed.

Lemma existsb_incl {A} (f : A -> bool) (l l' : list A) :
  incl l l' -> existsb f l = true -> existsb f l' = true.
Proof.
  intros I H. apply existsb_exists in H as (a & M & F).
  apply existsb_exists. exists a. split; [apply I, M | exact F].
Qed.

(** Taking some of these symbols out beforehand changes nothing. *)
Lemma numeric_text_without (symbols : list char) (s : str) :
  incl symbols removed_symbols ->
  numeric_text (VStr (without symbols s)) = numeric_text (VStr s).
Proof.
  intros I. rewrite !numeric_text_removes. f_equal.
  unfold without. apply filter_absorbs. intros c H. cbv beta in H |- *.
  destruct (existsb (N.eqb c) symbols) eqn:E; [| reflexivity].
  apply (existsb_incl _ I) in E. exfalso.
  exact (eq_true_false_abs _ E (proj1 (negb_true_iff _) H)).
Qed.

Lemma numeric_text_after_symbols_removed
      (symbols : list char) (field : str) (r : row) :
  incl symbols removed_symbols ->
  numeric_text
    (cell field
       (set_cell field (VStr (without symbols (str_of_val (cell field r)))) r))
  = numeric_text (cell field r).
Proof.
  intros I. destruct (lookup field r) eqn:E.
  - rewrite cell_set_cell_same by congruence.
    rewrite (numeric_text_without _ I).
    unfold numeric_text. reflexivity.
  - now rewrite set_cell_absent.
Qed.

(** ["nan"], ["null"], ["none"] *)
Lemma lower_is_nan_null_none (value : str) :
  mem_str (lower value) [lit "nan"; lit "null"; lit "none"] = true
  <-> lower value = lit "nan" \/ lower value = lit "null" \/ lower value = lit "none".
Proof.
  rewrite mem_str_In. simpl. intuition congruence.
Qed.

(** What the loop of the sanitizer makes of a text that is not one of
    the four it takes for a missing number. *)
Lemma convert_numeric_of_text (field : str) (idx : nat) (value : str) :
  value <> [] -> lower value <> lit "nan" -> lower value <> lit "null" ->
  lower value <> lit "none" ->
  convert_numeric field idx value
  = match py_float value with
    | Some x => (x, [])
    | None =>
        (f_zero,
         [ {| row_number := idx + 2;
              column_name := field;
              error_type := lit "invalid_numeric";
              error_message := CannotConvert value;
              raw_value := Some value |} ])
    end.
Proof.
  intros N1 N2 N3 N4. unfold convert_numeric.
  assert (E1 : str_eqb value [] = false).
  { destruct (str_eqb value []) eqn:E; [| reflexivity].
    apply str_eqb_spec in E. contradiction. }
  assert (E2 : mem_str (lower value) [lit "nan"; lit "null"; lit "none"] = false).
  { destruct (mem_str _ _) eqn:E; [| reflexivity].
    apply lower_is_nan_null_none in E. intuition. }
  rewrite E1, E2. reflexivity.
Qed.

Lemma lower_char_is (c t : char) :
  lower_char c = t -> c = t \/ c = (t - 32)%N.
Proof.
  unfold lower_char. destruct (in_range 65 90 c); intros H; [right | left]; lia.
Qed.

Lemma lower_of_four (value : str) (a b c d : char) :
  lower value = [a; b; c; d] ->
  exists a' b' c' d',
    value = [a'; b'; c'; d']
    /\ (a' = a \/ a' = (a - 32)%N) /\ (b' = b \/ b' = (b - 32)%N)
    /\ (c' = c \/ c' = (c - 32)%N) /\ (d' = d \/ d' = (d - 32)%N).
Proof.
  unfold lower.
  destruct value as [|a' [|b' [|c' [|d' [|e' value]]]]]; cbn [map];
    intros H; try discriminate H.
  injection H as Ha Hb Hc Hd.
  exists a', b', c', d'. split; [reflexivity |].
  split; [exact (lower_char_is _ Ha) |]. split; [exact (lower_char_is _ Hb) |].
  split; [exact (lower_char_is _ Hc) | exact (lower_char_is _ Hd)].
Qed.

(** [float] refuses "null" and "none", in any case. *)
Lemma py_float_not_null_none (value : str) (x : float) :
  py_float value = Some x ->
  ~ (lower value = lit "null" \/ lower value = lit "none").
Proof.
  intros P [H | H];
    apply lower_of_four in H as (a & b & c & d & -> & [-> | ->] & [-> | ->]
                                 & [-> | ->] & [-> | ->]);
    vm_compute in P; discriminate P.
Qed.

(** C9, as stated, fails on a currency symbol other than the naira
    sign: the sanitizer leaves the dollar sign in place, so "$1,234.50"
    becomes 0.0 with an error of kind "invalid_numeric", while the same
    text without the dollar sign and the comma, "1234.50", becomes
    1234.5. *)
Lemma dollar_sign_changes_the_number :
  let s := dollar :: lit "1,234.50" in
  without [dollar; 44%N] s = lit "1234.50"
  /\ convert_numeric F.premium 0 (numeric_text (VStr s))
     = (f_zero,
        [ {| row_number := 2;
             column_name := F.premium;
             error_type := lit "invalid_numeric";
             error_message := CannotConvert (dollar :: lit "1234.50");
             raw_value := Some (dollar :: lit "1234.50") |} ])
  /\ convert_numeric F.premium 0 (numeric_text (VStr (without [dollar; 44%N] s)))
     = (S754_finite false 5429388417957888 (-42), [])
  /\ fst (convert_numeric F.premium 0 (numeric_text (VStr s)))
     <> fst (convert_numeric F.premium 0
               (numeric_text (VStr (without [dollar; 44%N] s)))).
Proof.
  cbv zeta. split; [vm_compute; reflexivity |].
  split; [vm_compute; reflexivity |].
  split; [vm_compute; reflexivity |].
  vm_compute. discriminate.
Qed.

(** C9, amended.  The symbols the sanitizer removes are the comma, the
    naira sign and the percent sign.  A numeric text and the same text
    without some or all of these symbols are sanitized to the same
    number, with the same errors; that number is the one [float] reads
    in the text without the three symbols, stripped, but for the text
    "nan" in any case, which gives 0.0.  The same holds over a column
    whose label one column carries: the sanitizer returns on both
    frames, with the same frame and the same errors, those of the cells
    taken one by one.
    "1,234.50", "1234.50" and "₦1,234.50" all give 1234.5, the quotient
    of 12345 by 10. *)
Theorem separators_and_currency_do_not_change_the_number :
  (forall (symbols : list char) (field : str) (idx : nat) (s : str),
      incl symbols removed_symbols ->
      convert_numeric field idx (numeric_text (VStr (without symbols s)))
      = convert_numeric field idx (numeric_text (VStr s)))
  /\ (forall (field : str) (idx : nat) (s : str) (x : float),
         let value := strip (without removed_symbols s) in
         py_float value = Some x ->
         convert_numeric field idx (numeric_text (VStr s))
         = (if str_eqb (lower value) (lit "nan") then f_zero else x, []))
  /\ (forall (symbols : list char) (df : frame) (field : str),
         incl symbols removed_symbols ->
         has_column df field = true ->
         duplicated df field = false ->
         exists result,
           _clean_numeric_field df field = Ok result
           /\ _clean_numeric_field
                (map_column field (fun v => VStr (without symbols (str_of_val v))) df)
                field
              = Ok result
           /\ result
              = ({| columns := columns df;
                    rows := map (fun ir =>
                                   (fst ir,
                                    set_cell field
                                      (VFloat (fst (convert_numeric field (fst ir)
                                                      (numeric_text (cell field (snd ir))))))
                                      (snd ir)))
                                (rows df) |},
                 flat_map (fun ir => snd (convert_numeric field (fst ir)
                                            (numeric_text (cell field (snd ir)))))
                          (rows df)))
  /\ (forall (field : str) (idx : nat),
         convert_numeric field idx (numeric_text (VStr (lit "1,234.50")))
         = (S754_finite false 5429388417957888 (-42), [])
         /\ convert_numeric field idx (numeric_text (VStr (lit "1234.50")))
            = (S754_finite false 5429388417957888 (-42), [])
         /\ convert_numeric field idx (numeric_text (VStr (naira :: lit "1,234.50")))
            = (S754_finite false 5429388417957888 (-42), []))
  /\ SFdiv prec emax (float_of_Z 12345) (float_of_Z 10)
     = S754_finite false 5429388417957888 (-42).
Proof.
  split; [| split; [| split; [| split]]].
  - intros symbols field idx s I. now rewrite (numeric_text_without _ I).
  - intros field idx s x value P.
    rewrite numeric_text_removes. fold value.
    unfold convert_numeric.
    destruct (str_eqb value []) eqn:E1.
    { apply str_eqb_spec in E1. rewrite E1 in P. vm_compute in P. discriminate P. }
    destruct (mem_str (lower value) [lit "nan"; lit "null"; lit "none"]) eqn:E2.
    { apply lower_is_nan_null_none in E2. destruct E2 as [E2 | [E2 | E2]].
      - rewrite E2. reflexivity.
      - exfalso. apply (@py_float_not_null_none value x P). now left.
      - exfalso. apply (@py_float_not_null_none value x P). now right. }
    cbn [orb]. rewrite P.
    destruct (str_eqb (lower value) (lit "nan")) eqn:E3; [| reflexivity].
    apply str_eqb_spec in E3.
    assert (M : mem_str (lower value) [lit "nan"; lit "null"; lit "none"] = true)
      by (apply lower_is_nan_null_none; now left).
    rewrite M in E2. discriminate E2.
  - intros symbols df field I H D.
    rewrite !clean_numeric_field_cases, duplicated_map_column, D.
    rewrite !clean_numeric_field_cells by exact H.
    eexists. split; [reflexivity |]. split; [| reflexivity].
    cbn [map_column rows columns]. rewrite !map_map, !flat_map_concat_map, !map_map.
    f_equal. f_equal; [f_equal |]; [| f_equal]; apply map_ext; intros [idx r];
      cbn [fst snd]; rewrite (@numeric_text_after_symbols_removed symbols field r I);
      [now rewrite set_cell_twice | reflexivity].
  - intros. conjuncts; vm_compute; reflexivity.
  - vm_compute. reflexivity.
Qed.

(** C6, as stated, fails in three ways.  It raises: on the sound row
    under the headers "Premium" and "PREMIUM ", which are one label
    once normalized, the sanitizer raises at [df[field].str] and the
    parser refuses the file.  It removes the naira sign and no other
    currency symbol: the cell "$" is empty once currency symbols are
    stripped, and yet it is recorded as an error.  And the error does
    not hold the raw text: for the cell "₦12abc" it records "12abc",
    the text after the stripping. *)
Lemma sanitizer_raises_and_rewrites_raw_value :
  (_clean_numeric_field (renamed two_premiums) F.premium
   = Raise (AttributeError FrameHasNoStr)
   /\ parse_excel_file values_only (Ok two_premiums) None
      = Raise (ValueError (ExcelParsingFailed FrameHasNoStr)))
  /\ (strip (without [dollar] [dollar]) = []
      /\ exists e,
          convert_numeric F.premium 0 (numeric_text (VStr [dollar])) = (f_zero, [e])
          /\ error_type e = lit "invalid_numeric")
  /\ (let v := VStr (naira :: lit "12abc") in
      exists e,
        snd (convert_numeric F.premium 0 (numeric_text v)) = [e]
        /\ error_type e = lit "invalid_numeric"
        /\ raw_value e = Some (lit "12abc")
        /\ raw_value e <> Some (str_of_val v)).
Proof.
  split; [split; vm_compute; reflexivity |]. split.
  - split; [vm_compute; reflexivity |].
    eexists. split; vm_compute; reflexivity.
  - cbv zeta. eexists. split; [vm_compute; reflexivity |].
    do 2 (split; [vm_compute; reflexivity |]).
    vm_compute. discriminate.
Qed.

(** C6, amended.  The numeric sanitizer raises exactly on a label that
    several columns carry, where [df[field]] has no [.str].  It leaves
    the frame as it is when no column carries the label.  On a label
    that one column carries it returns, and works cell by cell on the
    text of the cell without commas, naira signs and percent signs,
    stripped: when that text is empty or is "nan", "null" or "none" in
    any case, the cell becomes 0.0 and no error is recorded; when it
    reads as a number, the cell becomes that number; otherwise the cell
    becomes 0.0 and one error of kind "invalid_numeric" is recorded,
    which carries the stripped text. *)
Theorem numeric_sanitizer_defaults_and_errors :
  (forall (df : frame) (field : str),
      match _clean_numeric_field df field with
      | Raise e =>
          duplicated df field = true /\ e = AttributeError FrameHasNoStr
      | Ok result =>
          duplicated df field = false
          /\ result
             = if has_column df field then
                 ({| columns := columns df;
                     rows := map (fun ir =>
                                    (fst ir,
                                     set_cell field
                                       (VFloat (fst (convert_numeric field (fst ir)
                                                       (numeric_text (cell field (snd ir))))))
                                       (snd ir)))
                                 (rows df) |},
                  flat_map (fun ir => snd (convert_numeric field (fst ir)
                                             (numeric_text (cell field (snd ir)))))
                           (rows df))
               else (df, [])
      end)
  /\ (forall v : pyval,
         numeric_text v = strip (without removed_symbols (str_of_val v)))
  /\ (forall (field : str) (idx : nat) (v : pyval),
         let value := numeric_text v in
         (value = [] \/ lower value = lit "nan" \/ lower value = lit "null"
          \/ lower value = lit "none" ->
          convert_numeric field idx value = (f_zero, []))
         /\ (value <> [] -> lower value <> lit "nan" -> lower value <> lit "null" ->
             lower value <> lit "none" ->
             (forall x, py_float value = Some x ->
                        convert_numeric field idx value = (x, []))
             /\ (py_float value = None ->
                 convert_numeric field idx value
                 = (f_zero,
                    [ {| row_number := idx + 2;
                         column_name := field;
                         error_type := lit "invalid_numeric";
                         error_message := CannotConvert value;
                         raw_value := Some value |} ])))).
Proof.
  split; [| split].
  - intros df field. rewrite clean_numeric_field_cases.
    destruct (duplicated df field) eqn:D; [split; reflexivity |].
    split; [reflexivity |].
    destruct (has_column df field) eqn:H.
    + now apply clean_numeric_field_cells.
    + unfold numeric_field_cleaned. now rewrite H.
  - intros v. exact (numeric_text_removes (str_of_val v)).
  - intros field idx v value. split.
    + intros H. unfold convert_numeric.
      destruct H as [H | H].
      * rewrite H. reflexivity.
      * apply lower_is_nan_null_none in H. rewrite H.
        now rewrite orb_true_r.
    + intros N1 N2 N3 N4.
      rewrite (convert_numeric_of_text field idx N1 N2 N3 N4). split.
      * intros x Hx. now rewrite Hx.
      * intros Hn. now rewrite Hn.
Qed.

(* ================================================================== *)
(** * Required columns *)
(* ================================================================== *)

Lemma filter_nil_iff {A} (f : A -> bool) (l : list A) :
  filter f l = [] <-> forall x, In x l -> f x = false.
Proof.
  induction l as [|a l IH]; simpl.
  - split; [intros _ x [] | reflexivity].
  - destruct (f a) eqn:E.
    + split; [discriminate |].
      intros H. specialize (H a (or_introl eq_refl)). congruence.
    + rewrite IH. split.
      * intros H x [<- | Hx]; [exact E | now apply H].
      * intros H x Hx. apply H. now right.
Qed.

(** The list [_validate_required_columns] returns is empty exactly when
    every required field has a column and the period is there, as one
    column or as both of its dates. *)
Lemma validate_required_columns_nil (column_map : list (str * str)) :
  _validate_required_columns column_map = []
  <-> (forall field, In field required_fields -> In field (map snd column_map))
      /\ (In F.period_of_insurance (map snd column_map)
          \/ (In F.insurance_period_start_date (map snd column_map)
              /\ In F.insurance_period_end_date (map snd column_map))).
Proof.
  unfold _validate_required_columns.
  set (mapped := map snd column_map).
  set (missing := filter _ required_fields).
  assert (M : missing = [] <-> forall f, In f required_fields -> In f mapped).
  { unfold missing. rewrite filter_nil_iff.
    split; intros H f Hf; specialize (H f Hf).
    - apply mem_str_In. now apply negb_false_iff in H.
    - apply negb_false_iff, mem_str_In. exact H. }
  destruct (mem_str F.period_of_insurance mapped) eqn:P; cbn [negb andb].
  - apply mem_str_In in P. rewrite M. tauto.
  - apply mem_str_false in P.
    destruct (mem_str F.insurance_period_start_date mapped) eqn:S1;
      [destruct (mem_str F.insurance_period_end_date mapped) eqn:S2 |];
      cbn [negb andb].
    + apply (proj1 (mem_str_In _ _)) in S1, S2. rewrite M. tauto.
    + apply (proj1 (mem_str_false _ _)) in S2.
      split; [intros H; now apply app_eq_nil in H as [_ H] | tauto].
    + apply (proj1 (mem_str_false _ _)) in S1.
      split; [intros H; now apply app_eq_nil in H as [_ H] | tauto].
Qed.

(** C8.  With [column_map] the mapping found for the sheet:
    [parse_excel_file] raises, and processes no row, when a required
    field has no column or when the period has neither its combined
    column nor both of its dates; otherwise it goes on to the rows, and
    its result is theirs. *)
Theorem missing_columns_fail_before_rows
        (series_text : list (nat * pyval) -> str)
        (df : frame) (column_mapping : option ExcelColumnMapping) :
  let mapping := match column_mapping with
                 | Some m => m
                 | None => default_mapping
                 end in
  let sheet := normalize_columns df in
  let column_map := _create_column_mapping (columns sheet) mapping in
  let mapped := map snd column_map in
  let complete :=
    (forall field, In field required_fields -> In field mapped)
    /\ (In F.period_of_insurance mapped
        \/ (In F.insurance_period_start_date mapped
            /\ In F.insurance_period_end_date mapped)) in
  (~ complete ->
   parse_excel_file series_text (Ok df) column_mapping
   = Raise (ValueError
              (ExcelParsingFailed
                 (MissingRequiredColumns (_validate_required_columns column_map))))
   /\ _validate_required_columns column_map <> [])
  /\ (complete ->
      parse_excel_file series_text (Ok df) column_mapping
      = match parse_rows series_text column_map sheet with
        | Ok parsed => Ok parsed
        | Raise e => Raise (ValueError (ExcelParsingFailed (str_of_exn e)))
        end).
Proof.
  cbv zeta.
  set (mapping := match column_mapping with
                  | Some m => m
                  | None => default_mapping
                  end).
  set (column_map := _create_column_mapping _ mapping).
  pose proof (validate_required_columns_nil column_map) as V.
  unfold parse_excel_file, res_bind.
  fold mapping. fold column_map.
  destruct (_validate_required_columns column_map) as [|m ms].
  - split; [| reflexivity].
    intros NC. exfalso. apply NC, V. reflexivity.
  - split.
    + intros _. split; [reflexivity | discriminate].
    + intros C. apply V in C. discriminate C.
Qed.

(* ================================================================== *)
(** * The entry point always reports *)
(* ================================================================== *)

Section EntryPoint.
Variable env : collaborators.
Variable file : upload.
Variable request : ExcelIngestionRequest.

(** The [except] branch returns the report of a failed run whatever
    the audit log does, and leaves the policies alone. *)
Lemma ingestion_failed_reports (e : exn) (w : world) :
  exists w',
    ingestion_failed env file e w = (Ok (failed_report file e), w')
    /\ insurance_policies w' = insurance_policies w.
Proof.
  unfold ingestion_failed, get_repository, log_data_ingestion, commit_entry.
  unfold bind, try_except, call, ret.
  destruct (repository_failure env w).
  - eexists. split; reflexivity.
  - match goal with
    | |- context [audit_failure env ?w1 ?entry] =>
        destruct (audit_failure env w1 entry)
    end.
    + eexists. split; reflexivity.
    + match goal with
      | |- context [refresh_failure env ?w1] => destruct (refresh_failure env w1)
      end; eexists; split; reflexivity.
Qed.

(** The two ways [ingest_excel_file] ends. *)
Lemma ingest_cases (w : world) :
  (exists report w',
      ingestion_attempt env file request w = (Ok report, w')
      /\ ingest_excel_file env file request w = (Ok report, w'))
  \/ (exists e w1 w',
         ingestion_attempt env file request w = (Raise e, w1)
         /\ ingest_excel_file env file request w = (Ok (failed_report file e), w')
         /\ insurance_policies w' = insurance_policies w1).
Proof.
  unfold ingest_excel_file, try_except.
  destruct (ingestion_attempt env file request w) as [[report | e] w1].
  - left. now exists report, w1.
  - right. destruct (ingestion_failed_reports e w1) as (w' & E & P).
    exists e, w1, w'. now rewrite E.
Qed.

(** When the parser raises, so does the [try], before the store is
    touched. *)
Lemma attempt_stops_at_parser (w : world) (e : exn) :
  parse_excel_file (series_text env) (read_excel file) None = Raise e ->
  exists e1 w1,
    ingestion_attempt env file request w = (Raise e1, w1)
    /\ insurance_policies w1 = insurance_policies w.
Proof.
  intros P.
  unfold ingestion_attempt, compute_outcome, bind, get_repository, call, lift.
  rewrite P.
  destruct (repository_failure env w);
    [| destruct (repository_failure env (tick w))];
    do 2 eexists; split; reflexivity.
Qed.

Lemma parser_raises_on_unreadable_or_unmapped :
  (exists e, read_excel file = Raise e)
  \/ (exists df,
         read_excel file = Ok df
         /\ _validate_required_columns
              (_create_column_mapping (columns (normalize_columns df))
                                      default_mapping) <> []) ->
  exists e, parse_excel_file (series_text env) (read_excel file) None = Raise e.
Proof.
  intros [(e & R) | (df & R & N)]; rewrite R.
  - eexists. reflexivity.
  - unfold parse_excel_file, res_bind.
    destruct (_validate_required_columns _); [contradiction |].
    eexists. reflexivity.
Qed.

(** C4.  For every upload, request and behaviour of the collaborators,
    [ingest_excel_file] returns a report and does not raise.  When
    the [try] raises, the report is the one of a failed run: status
    "failed", no rows counted, and the text of the exception as its
    only error.  When the file cannot be read or a required column
    is not mapped, this is what happens, and the policies in the store
    are those that were there before. *)
Theorem ingest_always_returns_a_report (w : world) :
  exists report w',
    ingest_excel_file env file request w = (Ok report, w')
    /\ (forall e w1,
           ingestion_attempt env file request w = (Raise e, w1) ->
           report = failed_report file e
           /\ status report = lit "failed"
           /\ errors report = [Message (str_of_exn e)])
    /\ ((exists e, read_excel file = Raise e)
        \/ (exists df,
               read_excel file = Ok df
               /\ _validate_required_columns
                    (_create_column_mapping (columns (normalize_columns df))
                                            default_mapping) <> []) ->
        status report = lit "failed"
        /\ total_rows report = 0%nat
        /\ processed_rows report = 0%nat
        /\ failed_rows report = 0%nat
        /\ (exists e, errors report = [Message (str_of_exn e)])
        /\ insurance_policies w' = insurance_policies w).
Proof.
  destruct (ingest_cases w) as [(report & w' & A & I) | (e & w1 & w' & A & I & P)].
  - exists report, w'. split; [exact I |]. split.
    + intros e w1 A'. rewrite A in A'. discriminate A'.
    + intros H. apply parser_raises_on_unreadable_or_unmapped in H as (e & H).
      destruct (attempt_stops_at_parser w H) as (e1 & w1 & A' & _).
      rewrite A in A'. discriminate A'.
  - exists (failed_report file e), w'. split; [exact I |]. split.
    + intros e' w1' A'. rewrite A in A'. inversion A'; subst.
      repeat split.
    + intros H. apply parser_raises_on_unreadable_or_unmapped in H as (e0 & H).
      destruct (attempt_stops_at_parser w H) as (e1 & w1' & A' & S).
      rewrite A in A'. inversion A'; subst.
      simpl. do 4 (split; [reflexivity |]).
      split; [now exists e1 | congruence].
Qed.

End EntryPoint.

(** An upload that cannot be read: the report of [ingest_excel_file]. *)
Lemma ingest_always_returns_a_report_witness :
  exists report w',
    ingest_excel_file reliable unreadable Scenario.request fresh = (Ok report, w')
    /\ status report = lit "failed"
    /\ processed_rows report = 0%nat
    /\ insurance_policies w' = insurance_policies fresh.
Proof.
  destruct (ingest_always_returns_a_report reliable unreadable Scenario.request fresh)
    as (report & w' & I & _ & H).
  exists report, w'. split; [exact I |].
  assert (U : (exists e, read_excel unreadable = Raise e)
              \/ (exists df,
                     read_excel unreadable = Ok df
                     /\ _validate_required_columns
                          (_create_column_mapping (columns (normalize_columns df))
                                                  default_mapping) <> [])).
  { left. eexists. reflexivity. }
  destruct (H U) as (S & _ & P & _ & _ & K).
  split; [exact S |]. split; [exact P | exact K].
Defined.

(* ================================================================== *)
(** * Records that reach the store *)
(* ================================================================== *)

Lemma check_nil (ok : bool) (name : str) :
  (if ok then [] else [name]) = @nil str -> ok = true.
Proof. destruct ok; [reflexivity | discriminate]. Qed.

(** No field violation: every bound of the schema holds. *)
Lemma field_violations_nil {D} (p : policy_fields D) :
  field_violations p = [] ->
  policy_number p <> [] /\ insured_name p <> []
  /\ flt f_zero (sum_insured p) = true
  /\ flt f_zero (premium p) = true
  /\ (fle f_zero (own_retention_ppn p) = true
      /\ fle (own_retention_ppn p) f_hundred = true)
  /\ (fle f_zero (treaty_ppn p) = true /\ fle (treaty_ppn p) f_hundred = true)
  /\ fle f_zero (own_retention_sum_insured p) = true
  /\ fle f_zero (own_retention_premium p) = true
  /\ fle f_zero (treaty_sum_insured p) = true
  /\ fle f_zero (treaty_premium p) = true.
Proof.
  unfold field_violations. intros H.
  repeat (apply app_eq_nil in H; destruct H as [?H H]).
  repeat match goal with
         | X : (if _ then [] else [_]) = [] |- _ => apply check_nil in X
         end.
  repeat match goal with
         | X : (_ && _)%bool = true |- _ => apply andb_prop in X; destruct X
         end.
  assert (L : forall s : str, (1 <=? Z.of_nat (List.length s)) = true -> s <> []).
  { intros s Hs ->. simpl in Hs. discriminate. }
  repeat split; try assumption; now apply L.
Qed.

(** What the constructor of [InsurancePolicyCreate] lets through. *)
Lemma new_InsurancePolicyCreate_ok (d : policy_data) (p : InsurancePolicyCreate) :
  new_InsurancePolicyCreate d = Ok p ->
  exists s e,
    p = with_dates d s e
    /\ field_violations d = []
    /\ date_leb e s = false.
Proof.
  unfold new_InsurancePolicyCreate.
  destruct (date_field (insurance_period_start_date d)) as [s|];
    destruct (date_field (insurance_period_end_date d)) as [e|];
    destruct (field_violations d) eqn:V; simpl; try discriminate.
  destruct (date_leb e s) eqn:L; [discriminate |].
  intros H. inversion H. now exists s, e.
Qed.

Lemma field_violations_with_dates {D E} (p : policy_fields D) (s e : E) :
  field_violations (with_dates p s e) = field_violations p.
Proof. reflexivity. Qed.

(** Whatever the row, a record that [_convert_row_to_policy] returns
    satisfies the invariant of the domain. *)
Lemma converted_row_is_valid (r : row) (p : InsurancePolicyCreate) :
  _convert_row_to_policy r = Ok p -> domain_invariant p.
Proof.
  unfold _convert_row_to_policy.
  repeat match goal with
         | |- context [res_bind (float_of_val ?v) _] =>
             destruct (float_of_val v); simpl res_bind; [| discriminate]
         end.
  set (number := strip (str_of_val _)).
  set (name := strip (str_of_val _)).
  cbn [policy_number insured_name insurance_period_start_date
       insurance_period_end_date].
  destruct number as [|c1 n1] eqn:EN; [discriminate |].
  destruct name as [|c2 n2] eqn:EM; [discriminate |].
  destruct (convert_date _) as [s|]; simpl res_bind; [| discriminate].
  destruct (convert_date _) as [e|]; simpl res_bind; [| discriminate].
  destruct (new_InsurancePolicyCreate _) as [q|] eqn:Q; [| discriminate].
  intros H. inversion H; subst q. clear H.
  apply new_InsurancePolicyCreate_ok in Q as (s' & e' & -> & V & L).
  rewrite field_violations_with_dates in V.
  apply field_violations_nil in V.
  cbn [policy_number insured_name sum_insured premium own_retention_ppn
       own_retention_sum_insured own_retention_premium treaty_ppn
       treaty_sum_insured treaty_premium] in V.
  unfold domain_invariant.
  cbn [with_dates policy_number insured_name sum_insured premium own_retention_ppn
       own_retention_sum_insured own_retention_premium treaty_ppn
       treaty_sum_insured treaty_premium insurance_period_start_date
       insurance_period_end_date].
  destruct V as (_ & _ & V).
  split; [| split; [| split; [tauto |]]].
  - rewrite <- EN. unfold number. rewrite strip_idem. fold number.
    rewrite EN. discriminate.
  - rewrite <- EM. unfold name. rewrite strip_idem. fold name.
    rewrite EM. discriminate.
  - intuition.
Qed.

(** The loop over the rows keeps the records of the rows that convert,
    and one text for each row that does not, both in row order. *)
Lemma convert_rows_spec (df : frame) :
  convert_rows df
  = (flat_map (fun ir => match _convert_row_to_policy (snd ir) with
                         | Ok policy => [policy]
                         | Raise _ => []
                         end) (rows df),
     flat_map (fun ir => match _convert_row_to_policy (snd ir) with
                         | Ok _ => []
                         | Raise e => [RowError (fst ir + 2) (str_of_exn e)]
                         end) (rows df)).
Proof.
  unfold convert_rows.
  assert (G : forall l acc,
             fold_left
               (fun acc ir =>
                  match _convert_row_to_policy (snd ir) with
                  | Ok policy_data => (fst acc ++ [policy_data], snd acc)
                  | Raise e => (fst acc, snd acc ++ [RowError (fst ir + 2) (str_of_exn e)])
                  end) l acc
             = (fst acc ++ flat_map (fun ir => match _convert_row_to_policy (snd ir) with
                                               | Ok policy => [policy]
                                               | Raise _ => []
                                               end) l,
                snd acc ++ flat_map (fun ir => match _convert_row_to_policy (snd ir) with
                                               | Ok _ => []
                                               | Raise e => [RowError (fst ir + 2) (str_of_exn e)]
                                               end) l)).
  { induction l as [|ir l IH]; intros [ps es]; simpl.
    - now rewrite !app_nil_r.
    - rewrite IH. destruct (_convert_row_to_policy (snd ir)); simpl;
        now rewrite <- ?app_assoc. }
  now rewrite G.
Qed.

Lemma converted_rows_are_valid (df : frame) :
  Forall domain_invariant (fst (convert_rows df)).
Proof.
  rewrite convert_rows_spec. simpl. apply Forall_forall.
  intros p Hp. apply in_flat_map in Hp as (ir & _ & Hp).
  destruct (_convert_row_to_policy (snd ir)) eqn:E; [| contradiction].
  destruct Hp as [<- | []]. now apply converted_row_is_valid in E.
Qed.

Lemma grows_refl (w w' : world) :
  insurance_policies w' = insurance_policies w -> grows_validly w w'.
Proof. intros E. exists []. rewrite app_nil_r. now split. Qed.

Lemma grows_trans (a b c : world) :
  grows_validly a b -> grows_validly b c -> grows_validly a c.
Proof.
  intros (x & Ex & Fx) (y & Ey & Fy). exists (x ++ y). split.
  - now rewrite Ey, Ex, app_assoc.
  - apply Forall_app. now split.
Qed.

Lemma safe_ret {A} (a : A) : safe (ret a).
Proof. intros w. now apply grows_refl. Qed.

Lemma safe_raise {A} (e : exn) : safe (@raise A e).
Proof. intros w. now apply grows_refl. Qed.

Lemma safe_lift {A} (r : res A) : safe (lift r).
Proof. intros w. now apply grows_refl. Qed.

Lemma safe_call (failure : world -> option exn) : safe (call failure).
Proof. intros w. unfold call. destruct (failure w); now apply grows_refl. Qed.

Lemma safe_bind {A B} (m : M A) (f : A -> M B) :
  safe m -> (forall a, safe (f a)) -> safe (bind m f).
Proof.
  intros Hm Hf w. unfold bind. specialize (Hm w).
  destruct (m w) as [[a | e] w1]; simpl in *; [| exact Hm].
  eapply grows_trans; [exact Hm | apply Hf].
Qed.

Lemma safe_try_except {A} (m : M A) (h : exn -> M A) :
  safe m -> (forall e, safe (h e)) -> safe (try_except m h).
Proof.
  intros Hm Hh w. unfold try_except. specialize (Hm w).
  destruct (m w) as [[a | e] w1]; simpl in *; [exact Hm |].
  eapply grows_trans; [exact Hm | apply Hh].
Qed.

Section StoreOnlyGrowsValidly.
Variable env : collaborators.

Lemma safe_log_data_ingestion (entry : audit_entry) :
  safe (log_data_ingestion env entry).
Proof.
  unfold log_data_ingestion.
  apply safe_bind; [| intros; apply safe_call].
  intros w. unfold commit_entry.
  destruct (audit_failure env w entry); now apply grows_refl.
Qed.

Lemma safe_commit (db_policies : list InsurancePolicyCreate) :
  Forall domain_invariant db_policies -> safe (commit env db_policies).
Proof.
  intros F w. unfold commit.
  destruct (commit_failure env w db_policies); simpl.
  - now apply grows_refl.
  - now exists db_policies.
Qed.

Lemma build_models_valid (batch : list InsurancePolicyCreate) (c : counts) :
  Forall domain_invariant batch ->
  Forall domain_invariant (fst (build_models env batch c)).
Proof.
  intros F. unfold build_models.
  assert (G : forall l acc,
             Forall domain_invariant l ->
             Forall domain_invariant (fst acc) ->
             Forall domain_invariant
               (fst (fold_left
                       (fun acc policy_data =>
                          match model_failure env policy_data with
                          | None => (fst acc ++ [policy_data], snd acc)
                          | Some e =>
                              (fst acc,
                               {| successful_count := successful_count (snd acc);
                                  failed_count := failed_count (snd acc) + 1;
                                  error_messages :=
                                    error_messages (snd acc)
                                    ++ [PolicyError (policy_number policy_data)
                                                    (str_of_exn e)] |})
                          end) l acc))).
  { induction l as [|p l IH]; intros acc Fl Fa; simpl; [exact Fa |].
    inversion Fl; subst. apply IH; [assumption |].
    destruct (model_failure env p); simpl; [exact Fa |].
    apply Forall_app. split; [exact Fa | now constructor]. }
  apply G; [exact F | constructor].
Qed.

Lemma safe_process_batch (number : Z) (batch : list InsurancePolicyCreate)
      (c : counts) :
  Forall domain_invariant batch -> safe (process_batch env number batch c).
Proof.
  intros F. unfold process_batch.
  apply safe_try_except; [| intros; apply safe_ret].
  apply safe_bind; [apply safe_call |]. intros _.
  pose proof (build_models_valid c F) as B.
  destruct (build_models env batch c) as [db_policies c1]. simpl in B.
  apply safe_try_except; [| intros; apply safe_ret].
  destruct db_policies; [apply safe_ret |].
  apply safe_bind; [now apply safe_commit | intros; apply safe_ret].
Qed.

Lemma safe_process_batches (bs : list (list InsurancePolicyCreate)) :
  Forall (Forall domain_invariant) bs ->
  forall number c, safe (process_batches env number bs c).
Proof.
  induction 1 as [|batch bs Fb Fbs IH]; intros number c; simpl.
  - apply safe_ret.
  - apply safe_bind; [now apply safe_process_batch | intros; apply IH].
Qed.

Lemma firstn_valid {A} (P : A -> Prop) (n : nat) (l : list A) :
  Forall P l -> Forall P (firstn n l).
Proof.
  revert l. induction n as [|n IH]; intros [|a l] F; simpl; try constructor.
  - now inversion F.
  - apply IH. now inversion F.
Qed.

Lemma skipn_valid {A} (P : A -> Prop) (n : nat) (l : list A) :
  Forall P l -> Forall P (skipn n l).
Proof.
  revert l. induction n as [|n IH]; intros [|a l] F; simpl; try assumption.
  apply IH. now inversion F.
Qed.

Lemma slices_valid {A} (P : A -> Prop) (fuel size : nat) (l : list A) :
  Forall P l -> Forall (Forall P) (slices fuel size l).
Proof.
  revert l. induction fuel as [|fuel IH]; intros l F; simpl; [constructor |].
  destruct l as [|a l]; [constructor |].
  constructor; [now apply firstn_valid | apply IH; now apply skipn_valid].
Qed.

Lemma batches_valid {A} (P : A -> Prop) (l : list A) (size : Z)
      (bs : list (list A)) :
  Forall P l -> batches l size = Ok bs -> Forall (Forall P) bs.
Proof.
  intros F. unfold batches.
  destruct (size =? 0); [discriminate |].
  destruct (size <? 0); intros E; inversion E; subst.
  - constructor.
  - now apply slices_valid.
Qed.

Lemma safe_bulk_create_policies (policies_data : list InsurancePolicyCreate)
      (size : Z) :
  Forall domain_invariant policies_data ->
  safe (bulk_create_policies env policies_data size).
Proof.
  intros F w. unfold bulk_create_policies, bind, lift.
  destruct (batches policies_data size) as [bs | e] eqn:E.
  - apply safe_process_batches. eapply batches_valid; eassumption.
  - now apply grows_refl.
Qed.

Variable file : upload.
Variable request : ExcelIngestionRequest.

Lemma safe_compute_outcome : safe (compute_outcome env file request).
Proof.
  unfold compute_outcome.
  apply safe_bind; [apply safe_call | intros _].
  apply safe_bind; [apply safe_call | intros _].
  apply safe_bind; [apply safe_lift | intros [df parsing_errors]].
  destruct (rows df) eqn:R; [apply safe_raise |].
  pose proof (converted_rows_are_valid df) as V.
  destruct (convert_rows df) as [policies_data conversion_errors].
  apply safe_bind; [now apply safe_bulk_create_policies | intros; apply safe_ret].
Qed.

Lemma safe_ingest_excel_file : safe (ingest_excel_file env file request).
Proof.
  unfold ingest_excel_file, ingestion_attempt, ingestion_failed.
  apply safe_try_except.
  - apply safe_bind; [apply safe_compute_outcome | intros o].
    apply safe_bind; [apply safe_lift | intros details].
    apply safe_bind; [apply safe_log_data_ingestion | intros; apply safe_ret].
  - intros e. apply safe_bind; [| intros; apply safe_ret].
    apply safe_try_except; [| intros; apply safe_ret].
    apply safe_bind; [apply safe_call | intros; apply safe_log_data_ingestion].
Qed.

End StoreOnlyGrowsValidly.

(** C10.  The records handed to [bulk_create_policies] are those the
    conversion returned, and each satisfies the invariant of the domain:
    policy number and insured name not empty once trimmed, sum insured
    and premium above zero, both percentages between 0 and 100, the four
    shares not below zero, and an end date after the start date.  So,
    whatever the upload and whatever the collaborators do, all a run of
    [ingest_excel_file] can do to the table of policies is to add
    records that satisfy the invariant. *)
Theorem records_for_the_store_are_valid :
  (forall (df : frame) (p : InsurancePolicyCreate),
      In p (fst (convert_rows df)) ->
      domain_invariant p
      /\ exists ir, In ir (rows df) /\ _convert_row_to_policy (snd ir) = Ok p)
  /\ (forall (env : collaborators) (file : upload) (request : ExcelIngestionRequest)
            (w : world),
         exists added,
           insurance_policies (snd (ingest_excel_file env file request w))
           = insurance_policies w ++ added
           /\ forall p, In p added -> domain_invariant p).
Proof.
  split.
  - intros df p Hp. split.
    + pose proof (converted_rows_are_valid df) as V.
      rewrite Forall_forall in V. now apply V.
    + rewrite convert_rows_spec in Hp. simpl in Hp.
      apply in_flat_map in Hp as (ir & Hir & Hp).
      exists ir. split; [exact Hir |].
      destruct (_convert_row_to_policy (snd ir)); [| contradiction].
      destruct Hp as [<- | []]. reflexivity.
  - intros env file request w.
    destruct (safe_ingest_excel_file env file request w) as (added & E & F).
    exists added. split; [exact E |]. now apply Forall_forall.
Qed.

(* ================================================================== *)
(** * Percentages: flagged, not reset *)
(* ================================================================== *)

Lemma clean_row_unfold (cols : list str) (ir : nat * row) :
  clean_row cols ir
  = fold_left (clean_number_in_row cols) numeric_fields
              (fold_left (clean_string_in_row cols) string_fields ir).
Proof. reflexivity. Qed.

Lemma clean_strings_by_row (fields : list str) (df : frame) :
  let df' := fold_left (fun df field =>
                          if has_column df field
                          then map_column field clean_string_cell df
                          else df) fields df in
  columns df' = columns df
  /\ rows df' = map (fun ir => fold_left (clean_string_in_row (columns df)) fields ir)
                    (rows df).
Proof.
  revert df. induction fields as [|f fields IH]; intros df; simpl.
  - split; [reflexivity | now rewrite map_id].
  - set (df1 := if has_column df f then map_column f clean_string_cell df else df).
    assert (C : columns df1 = columns df).
    { unfold df1. now destruct (has_column df f). }
    assert (R : rows df1 = map (fun ir => clean_string_in_row (columns df) ir f) (rows df)).
    { unfold df1, clean_string_in_row, has_column.
      destruct (mem_str f (columns df)); simpl; [reflexivity |].
      symmetry. apply map_id. }
    destruct (IH df1) as [C1 R1]. split; [congruence |].
    rewrite R1, R, map_map, C. reflexivity.
Qed.

Lemma clean_numbers_by_row (fields : list str) (df : frame)
      (errors : list ExcelValidationError) :
  let result :=
    fold_left (fun acc field =>
                 if has_column (fst acc) field then
                   let (df', field_errors) := numeric_field_cleaned (fst acc) field in
                   (df', snd acc ++ field_errors)
                 else acc) fields (df, errors) in
  columns (fst result) = columns df
  /\ rows (fst result)
     = map (fun ir => fold_left (clean_number_in_row (columns df)) fields ir) (rows df).
Proof.
  revert df errors. induction fields as [|f fields IH]; intros df errors; simpl.
  - split; [reflexivity | now rewrite map_id].
  - set (acc1 := if has_column df f then _ else _).
    assert (CR : columns (fst acc1) = columns df
                 /\ rows (fst acc1)
                    = map (fun ir => clean_number_in_row (columns df) ir f) (rows df)).
    { unfold acc1, clean_number_in_row.
      change (has_column df f) with (mem_str f (columns df)).
      destruct (mem_str f (columns df)) eqn:H.
      - rewrite clean_numeric_field_cells by exact H.
        cbn [fst snd columns rows]. split; reflexivity.
      - simpl. split; [reflexivity | symmetry; apply map_id]. }
    destruct CR as [C R].
    destruct acc1 as [df1 errors1]. simpl in C, R.
    destruct (IH df1 errors1) as [C1 R1]. split; [congruence |].
    rewrite R1, R, map_map, C. reflexivity.
Qed.

Lemma clean_strings_rows (df : frame) :
  columns (strings_cleaned df) = columns df
  /\ rows (strings_cleaned df)
     = map (fun ir => fold_left (clean_string_in_row (columns df)) string_fields ir)
           (rows df).
Proof. exact (clean_strings_by_row string_fields df). Qed.

Lemma clean_numbers_rows (df : frame) :
  columns (fst (numbers_cleaned df)) = columns df
  /\ rows (fst (numbers_cleaned df))
     = map (fun ir => fold_left (clean_number_in_row (columns df)) numeric_fields ir)
           (rows df).
Proof. exact (clean_numbers_by_row numeric_fields df []). Qed.

Lemma percentage_errors_kept (df : frame) (fields : list str)
      (errors : list ExcelValidationError) (e : ExcelValidationError) :
  In e errors ->
  In e (fold_left (fun errors field =>
                     if has_column df field
                     then errors ++ flat_map (percentage_error field) (rows df)
                     else errors) fields errors).
Proof.
  revert errors. induction fields as [|f fields IH]; intros errors H; simpl;
    [exact H |].
  apply IH. destruct (has_column df f); [| exact H].
  apply in_or_app. now left.
Qed.

Lemma percentage_errors_recorded (df : frame) (fields : list str)
      (errors : list ExcelValidationError) (field : str) (e : ExcelValidationError) :
  In field fields -> has_column df field = true ->
  In e (flat_map (percentage_error field) (rows df)) ->
  In e (fold_left (fun errors field =>
                     if has_column df field
                     then errors ++ flat_map (percentage_error field) (rows df)
                     else errors) fields errors).
Proof.
  revert errors. induction fields as [|f fields IH]; intros errors Hf Hc He;
    [contradiction |].
  simpl. destruct Hf as [-> | Hf].
  - apply percentage_errors_kept. rewrite Hc. apply in_or_app. now right.
  - now apply IH.
Qed.

Lemma validate_percentages_records (df : frame)
      (errors : list ExcelValidationError) (field : str) (e : ExcelValidationError) :
  In field percentage_fields -> has_column df field = true ->
  In e (flat_map (percentage_error field) (rows df)) ->
  In e (validate_percentages df errors).
Proof. apply percentage_errors_recorded. Qed.

(** The frame and the errors [_clean_and_validate_data] returns when
    it does not raise ([cleaned_and_validated]): each
    row is cleaned on its own, and the errors hold those of the
    percentages that are out of range, for each percentage column. *)
Lemma clean_and_validate_by_row (df : frame) :
  let cleaned := fst (cleaned_and_validated df) in
  let errors := snd (cleaned_and_validated df) in
  columns cleaned = columns df
  /\ rows cleaned = map (clean_row (columns df)) (rows df)
  /\ forall field e ir,
      In field percentage_fields -> has_column df field = true ->
      In ir (rows cleaned) -> In e (percentage_error field ir) -> In e errors.
Proof.
  unfold cleaned_and_validated.
  destruct (clean_strings_rows df) as [C1 R1].
  destruct (clean_numbers_rows (strings_cleaned df)) as [C2 R2].
  destruct (numbers_cleaned (strings_cleaned df)) as [df2 errors2].
  cbn [fst] in C2, R2. cbn [fst snd].
  split; [congruence |]. split.
  - rewrite R2, R1, map_map. apply map_ext. intros ir.
    rewrite clean_row_unfold, C1. reflexivity.
  - intros field e ir Hf Hc Hir He.
    apply validate_percentages_records with (field := field).
    + exact Hf.
    + unfold has_column. rewrite C2, C1. exact Hc.
    + apply in_flat_map. now exists ir.
Qed.

(** Cleaning another field leaves a cell and the index of its row as
    they are. *)
Lemma clean_string_in_row_other (cols : list str) (field : str)
      (ir : nat * row) (f : str) :
  f <> field ->
  lookup field (snd (clean_string_in_row cols ir f)) = lookup field (snd ir)
  /\ fst (clean_string_in_row cols ir f) = fst ir.
Proof.
  intros N. unfold clean_string_in_row.
  destruct (mem_str f cols); simpl; [| now split].
  split; [now apply lookup_set_cell_other | reflexivity].
Qed.

Lemma clean_number_in_row_other (cols : list str) (field : str)
      (ir : nat * row) (f : str) :
  f <> field ->
  lookup field (snd (clean_number_in_row cols ir f)) = lookup field (snd ir)
  /\ fst (clean_number_in_row cols ir f) = fst ir.
Proof.
  intros N. unfold clean_number_in_row.
  destruct (mem_str f cols); simpl; [| now split].
  split; [now apply lookup_set_cell_other | reflexivity].
Qed.

Lemma fold_leaves_cell (step : nat * row -> str -> nat * row) (field : str) :
  (forall ir f, f <> field ->
                lookup field (snd (step ir f)) = lookup field (snd ir)
                /\ fst (step ir f) = fst ir) ->
  forall fields ir,
    ~ In field fields ->
    lookup field (snd (fold_left step fields ir)) = lookup field (snd ir)
    /\ fst (fold_left step fields ir) = fst ir.
Proof.
  intros S. induction fields as [|f fields IH]; intros ir N; simpl; [now split |].
  assert (Nf : f <> field) by (intros ->; apply N; now left).
  assert (Nr : ~ In field fields) by (intros H; apply N; now right).
  destruct (IH (step ir f) Nr) as [L I].
  destruct (S ir f Nf) as [L' I']. split; congruence.
Qed.

(** The cell of a numeric field after the loop over the numeric fields:
    the number parsed from its text. *)
Lemma number_cell_after_fold (cols : list str) (field : str)
      (before after : list str) (idx : nat) (r : row) :
  ~ In field before -> ~ In field after ->
  mem_str field cols = true -> lookup field r <> None ->
  let ir := fold_left (clean_number_in_row cols) (before ++ field :: after) (idx, r) in
  fst ir = idx
  /\ cell field (snd ir)
     = VFloat (fst (convert_numeric field idx (numeric_text (cell field r)))).
Proof.
  intros Nb Na Hc Hl. cbv zeta. rewrite fold_left_app. simpl fold_left.
  destruct (@fold_leaves_cell (clean_number_in_row cols) field
              (@clean_number_in_row_other cols field) before (idx, r) Nb) as [L1 I1].
  set (ir1 := fold_left (clean_number_in_row cols) before (idx, r)) in *.
  simpl in L1, I1.
  destruct (@fold_leaves_cell (clean_number_in_row cols) field
              (@clean_number_in_row_other cols field) after
              (clean_number_in_row cols ir1 field) Na) as [L2 I2].
  unfold cell at 1. rewrite L2, I2.
  unfold clean_number_in_row. rewrite Hc. simpl.
  rewrite lookup_set_cell_same, L1, I1.
  destruct (lookup field r) eqn:E; [| contradiction].
  split; [reflexivity |]. unfold cell. now rewrite L1, E.
Qed.

Lemma percentage_cell_after_cleaning (cols : list str) (field : str)
      (idx : nat) (r : row) :
  In field percentage_fields ->
  mem_str field cols = true -> lookup field r <> None ->
  fst (clean_row cols (idx, r)) = idx
  /\ cell field (snd (clean_row cols (idx, r)))
     = VFloat (fst (convert_numeric field idx (numeric_text (cell field r)))).
Proof.
  intros Hf Hc Hl. rewrite clean_row_unfold.
  assert (Ns : ~ In field string_fields).
  { apply mem_str_false. destruct Hf as [<- | [<- | []]]; vm_compute; reflexivity. }
  destruct (@fold_leaves_cell (clean_string_in_row cols) field
              (@clean_string_in_row_other cols field) string_fields (idx, r) Ns)
    as [L I].
  set (ir1 := fold_left (clean_string_in_row cols) string_fields (idx, r)) in *.
  simpl in L, I.
  assert (S : exists before after,
             numeric_fields = before ++ field :: after
             /\ ~ In field before /\ ~ In field after).
  { destruct Hf as [<- | [<- | []]].
    - exists [F.sum_insured; F.premium],
        [F.own_retention_sum_insured; F.own_retention_premium; F.treaty_ppn;
         F.treaty_sum_insured; F.treaty_premium].
      split; [reflexivity |].
      split; apply mem_str_false; vm_compute; reflexivity.
    - exists [F.sum_insured; F.premium; F.own_retention_ppn;
              F.own_retention_sum_insured; F.own_retention_premium],
        [F.treaty_sum_insured; F.treaty_premium].
      split; [reflexivity |].
      split; apply mem_str_false; vm_compute; reflexivity. }
  destruct S as (before & after & -> & Nb & Na).
  destruct ir1 as [idx1 r1]. simpl in L, I. subst idx1.
  assert (Hl1 : lookup field r1 <> None) by (rewrite L; exact Hl).
  destruct (@number_cell_after_fold cols field before after idx r1 Nb Na Hc Hl1)
    as [I2 C2].
  split; [exact I2 |]. rewrite C2. unfold cell. now rewrite L.
Qed.

(** ** The errors of [_clean_and_validate_data] *)

Lemma convert_numeric_error_kind (field : str) (idx : nat) (value : str) :
  Forall (fun e => error_type e = lit "invalid_numeric")
         (snd (convert_numeric field idx value)).
Proof.
  unfold convert_numeric.
  destruct (str_eqb value [] || mem_str (lower value) _); [constructor |].
  destruct (py_float value); [constructor |].
  constructor; [reflexivity | constructor].
Qed.

(** The errors of the loop over the numeric fields are all of the kind
    "invalid_numeric". *)
Lemma numeric_errors_kind (df : frame) :
  Forall (fun e => error_type e = lit "invalid_numeric") (snd (numbers_cleaned df)).
Proof.
  unfold numbers_cleaned.
  assert (G : forall fields (acc : frame * list ExcelValidationError),
             Forall (fun e => error_type e = lit "invalid_numeric") (snd acc) ->
             Forall (fun e => error_type e = lit "invalid_numeric")
                    (snd (fold_left
                            (fun acc field =>
                               if has_column (fst acc) field then
                                 let (df', field_errors) :=
                                   numeric_field_cleaned (fst acc) field in
                                 (df', snd acc ++ field_errors)
                               else acc)
                            fields acc))).
  { induction fields as [|f fields IH]; intros acc H; [exact H |].
    cbn [fold_left]. apply IH.
    destruct (has_column (fst acc) f) eqn:C; [| exact H].
    rewrite clean_numeric_field_cells by exact C. cbn [snd].
    apply Forall_app. split; [exact H |].
    apply Forall_forall. intros e He. apply in_flat_map in He as (ir & _ & He).
    pose proof (convert_numeric_error_kind f (fst ir)
                  (numeric_text (cell f (snd ir)))) as K.
    rewrite Forall_forall in K. now apply K. }
  apply (G numeric_fields (df, [])). constructor.
Qed.

Lemma validate_percentages_unfold (df : frame) (errors : list ExcelValidationError) :
  validate_percentages df errors
  = errors
    ++ (if has_column df F.own_retention_ppn
        then flat_map (percentage_error F.own_retention_ppn) (rows df) else [])
    ++ (if has_column df F.treaty_ppn
        then flat_map (percentage_error F.treaty_ppn) (rows df) else []).
Proof.
  unfold validate_percentages, percentage_fields. cbn [fold_left].
  destruct (has_column df F.own_retention_ppn), (has_column df F.treaty_ppn);
    rewrite ?app_nil_r, <- ?app_assoc; reflexivity.
Qed.

(** An error of the percentage block stands for a cell that holds a
    number below 0 or above 100. *)
Lemma percentage_error_cell (field : str) (ir : nat * row) (e : ExcelValidationError) :
  In e (percentage_error field ir) ->
  exists x,
    cell field (snd ir) = VFloat x
    /\ (flt x f_zero = true \/ flt f_hundred x = true)
    /\ e = {| row_number := fst ir + 2;
              column_name := field;
              error_type := lit "invalid_percentage";
              error_message := PercentageRange x;
              raw_value := Some (repr_float x) |}.
Proof.
  unfold percentage_error, invalid_pct. cbv zeta.
  destruct (cell field (snd ir)) as [s|z|x|d]; try (intros []).
  destruct (flt x f_zero || flt f_hundred x) eqn:B; [| intros []].
  intros [<- | []]. exists x. split; [reflexivity |].
  split; [now apply orb_true_iff | reflexivity].
Qed.

Lemma fold_keeps_absent (step : nat * row -> str -> nat * row) (field : str) :
  (forall ir f, lookup field (snd ir) = None ->
                lookup field (snd (step ir f)) = None) ->
  forall fields ir,
    lookup field (snd ir) = None ->
    lookup field (snd (fold_left step fields ir)) = None.
Proof.
  intros S. induction fields as [|f fields IH]; intros ir H; [exact H |].
  cbn [fold_left]. apply IH, S, H.
Qed.

Lemma set_cell_keeps_absent (k field : str) (v : pyval) (r : row) :
  lookup field r = None -> lookup field (set_cell k v r) = None.
Proof.
  intros H. induction r as [|[k' v'] r IH]; [reflexivity |].
  cbn [lookup] in H. cbn [set_cell map fst snd].
  destruct (str_eqb k' field) eqn:E; [discriminate H |].
  destruct (str_eqb k' k); cbn [lookup fst]; rewrite E; exact (IH H).
Qed.

(** The cleaning adds no cell to a row. *)
Lemma clean_row_keeps_absent (cols : list str) (field : str) (ir : nat * row) :
  lookup field (snd ir) = None -> lookup field (snd (clean_row cols ir)) = None.
Proof.
  intros H. rewrite clean_row_unfold.
  apply fold_keeps_absent.
  - intros x f Hx. unfold clean_number_in_row.
    destruct (mem_str f cols); [| exact Hx].
    cbn [snd]. now apply set_cell_keeps_absent.
  - apply fold_keeps_absent; [| exact H].
    intros x f Hx. unfold clean_string_in_row.
    destruct (mem_str f cols); [| exact Hx].
    cbn [snd]. now apply set_cell_keeps_absent.
Qed.

(** The errors of kind "invalid_percentage" that the cleaning returns
    stand, each of them, for a cell of a percentage column whose number
    is below 0 or above 100. *)
Lemma percentage_errors_are_out_of_range (df : frame) (e : ExcelValidationError) :
  In e (snd (cleaned_and_validated df)) ->
  error_type e = lit "invalid_percentage" ->
  exists field idx r,
    In field percentage_fields
    /\ In (idx, r) (rows df)
    /\ let x := fst (convert_numeric field idx (numeric_text (cell field r))) in
       (flt x f_zero = true \/ flt f_hundred x = true)
       /\ e = {| row_number := idx + 2;
                 column_name := field;
                 error_type := lit "invalid_percentage";
                 error_message := PercentageRange x;
                 raw_value := Some (repr_float x) |}.
Proof.
  destruct (clean_and_validate_by_row df) as (C & R & _). revert C R.
  unfold cleaned_and_validated.
  pose proof (numeric_errors_kind (strings_cleaned df)) as K.
  destruct (numbers_cleaned (strings_cleaned df)) as [df2 errors2].
  cbn [fst snd] in K |- *. intros C R He Ht.
  rewrite validate_percentages_unfold in He.
  assert (G : forall field,
             In field percentage_fields ->
             In e (if has_column df2 field
                   then flat_map (percentage_error field) (rows df2) else []) ->
             exists idx r,
               In (idx, r) (rows df)
               /\ let x := fst (convert_numeric field idx
                                  (numeric_text (cell field r))) in
                  (flt x f_zero = true \/ flt f_hundred x = true)
                  /\ e = {| row_number := idx + 2;
                            column_name := field;
                            error_type := lit "invalid_percentage";
                            error_message := PercentageRange x;
                            raw_value := Some (repr_float x) |}).
  { intros field Hf H.
    destruct (has_column df2 field) eqn:Hc; [| destruct H].
    unfold has_column in Hc. rewrite C in Hc.
    apply in_flat_map in H as (ir2 & Hi & H).
    rewrite R in Hi. apply in_map_iff in Hi as ([idx r] & <- & Hi).
    apply percentage_error_cell in H as (x & V & O & ->).
    exists idx, r. split; [exact Hi |].
    destruct (lookup field r) eqn:L.
    - destruct (@percentage_cell_after_cleaning (columns df) field idx r Hf Hc)
        as [I V']; [congruence |].
      rewrite V' in V. inversion V; subst x. rewrite I.
      cbv zeta. split; [exact O | reflexivity].
    - exfalso.
      pose proof (@clean_row_keeps_absent (columns df) field (idx, r) L) as A.
      unfold cell in V. rewrite A in V. inversion V; subst x.
      destruct O as [O | O]; vm_compute in O; discriminate O. }
  apply in_app_or in He as [He | He].
  - exfalso. rewrite Forall_forall in K. specialize (K e He).
    rewrite K in Ht. vm_compute in Ht. discriminate Ht.
  - apply in_app_or in He as [He | He].
    + destruct (G F.own_retention_ppn (or_introl eq_refl) He) as (idx & r & H).
      exists F.own_retention_ppn, idx, r. split; [left; reflexivity | exact H].
    + destruct (G F.treaty_ppn (or_intror (or_introl eq_refl)) He) as (idx & r & H).
      exists F.treaty_ppn, idx, r.
      split; [right; left; reflexivity | exact H].
Qed.

(** C7, as stated, fails on a value that is not a number: the cell
    "+nan" of a percentage column is coerced to NaN, which is not
    within 0 and 100, and no error is recorded for it.  And it fails
    when the cleaning raises: under the headers "Treaty %" and
    "TREATY % " the cell "150" gets no error, since
    [_clean_and_validate_data] raises and returns no list of errors. *)
Lemma nan_percentage_is_not_flagged :
  (exists cleaned r',
      _clean_and_validate_data (renamed nan_percentage) = Ok (cleaned, [])
      /\ nth_error (rows cleaned) 0 = Some (0%nat, r')
      /\ cell F.treaty_ppn r' = VFloat S754_nan
      /\ fle f_zero S754_nan && fle S754_nan f_hundred = false)
  /\ _clean_and_validate_data (renamed two_treaty_percentages)
     = Raise (AttributeError FrameHasNoStr).
Proof.
  split; [| vm_compute; reflexivity].
  do 2 eexists. split; [vm_compute; reflexivity |].
  split; [reflexivity |]. split; vm_compute; reflexivity.
Qed.

(** C7, amended.  [_clean_and_validate_data] raises when several
    columns carry the label of one of the fields it cleans, and then
    only.  When it returns, a cell of a percentage column
    ([own_retention_ppn], [treaty_ppn]) holds in the cleaned row the
    number its text was coerced to, whatever that number: it is not
    reset to a default.  When that number is below 0 or above 100, an
    error of kind "invalid_percentage" is recorded for its sheet row;
    and every error of that kind stands for such a number, so that a
    cell coerced to NaN is kept and gets none. *)
Theorem out_of_range_percentage_is_flagged_and_kept
        (df : frame) (field : str) (i idx : nat) (r : row) :
  In field percentage_fields ->
  has_column df field = true ->
  nth_error (rows df) i = Some (idx, r) ->
  lookup field r <> None ->
  let x := fst (convert_numeric field idx (numeric_text (cell field r))) in
  match _clean_and_validate_data df with
  | Raise e =>
      existsb (duplicated df) text_fields = true
      /\ e = AttributeError FrameHasNoStr
  | Ok (cleaned, errors) =>
      existsb (duplicated df) text_fields = false
      /\ (exists r',
             nth_error (rows cleaned) i = Some (idx, r')
             /\ cell field r' = VFloat x)
      /\ (flt x f_zero = true \/ flt f_hundred x = true ->
          In {| row_number := idx + 2;
                column_name := field;
                error_type := lit "invalid_percentage";
                error_message := PercentageRange x;
                raw_value := Some (repr_float x) |} errors)
      /\ (forall e,
             In e errors -> error_type e = lit "invalid_percentage" ->
             exists field' idx' r',
               In field' percentage_fields
               /\ In (idx', r') (rows df)
               /\ let x' := fst (convert_numeric field' idx'
                                   (numeric_text (cell field' r'))) in
                  (flt x' f_zero = true \/ flt f_hundred x' = true)
                  /\ e = {| row_number := idx' + 2;
                            column_name := field';
                            error_type := lit "invalid_percentage";
                            error_message := PercentageRange x';
                            raw_value := Some (repr_float x') |})
  end.
Proof.
  intros Hf Hc Hn Hl x. rewrite clean_and_validate_cases.
  destruct (existsb (duplicated df) text_fields); [split; reflexivity |].
  destruct (clean_and_validate_by_row df) as (C & R & E).
  pose proof (percentage_errors_are_out_of_range df) as O.
  destruct (cleaned_and_validated df) as [cleaned errors].
  cbn [fst snd] in C, R, E, O.
  destruct (@percentage_cell_after_cleaning (columns df) field idx r Hf Hc Hl)
    as [I V].
  fold x in V.
  assert (Hn' : nth_error (rows cleaned) i = Some (clean_row (columns df) (idx, r))).
  { rewrite R, nth_error_map, Hn. reflexivity. }
  destruct (clean_row (columns df) (idx, r)) as [idx' r'] eqn:K.
  cbn [fst snd] in I, V. subst idx'.
  split; [reflexivity |]. split; [exists r'; split; [exact Hn' | exact V] |].
  split; [| exact O].
  intros Hx. apply (E field _ (idx, r') Hf Hc).
  - eapply nth_error_In. exact Hn'.
  - unfold percentage_error. cbn [fst snd]. rewrite V.
    unfold invalid_pct.
    assert (B : (flt x f_zero || flt f_hundred x)%bool = true).
    { apply orb_true_iff. exact Hx. }
    rewrite B. left. reflexivity.
Qed.

(** The treaty percentage "150" of the second row of the three-row
    sheet. *)
Lemma out_of_range_percentage_is_flagged_and_kept_witness :
  exists cleaned errors,
    _clean_and_validate_data (renamed three_rows) = Ok (cleaned, errors)
    /\ In {| row_number := 3;
             column_name := F.treaty_ppn;
             error_type := lit "invalid_percentage";
             error_message := PercentageRange (float_of_Z 150);
             raw_value := Some (lit "150.0") |}
          errors
    /\ exists r',
        nth_error (rows cleaned) 1 = Some (1%nat, r')
        /\ cell F.treaty_ppn r' = VFloat (float_of_Z 150).
Proof.
  pose proof (@out_of_range_percentage_is_flagged_and_kept
                (renamed three_rows) F.treaty_ppn 1 1
                (snd (nth 1 (rows (renamed three_rows)) (0%nat, [])))) as T.
  cbv zeta in T.
  destruct (_clean_and_validate_data (renamed three_rows))
    as [[cleaned errors]|e].
  - destruct T as (_ & K & F & _).
    + right. left. reflexivity.
    + vm_compute. reflexivity.
    + vm_compute. reflexivity.
    + vm_compute. discriminate.
    + exists cleaned, errors. split; [reflexivity |]. split; [| exact K].
      apply F. right. vm_compute. reflexivity.
  - destruct T as (D & _).
    + right. left. reflexivity.
    + vm_compute. reflexivity.
    + vm_compute. reflexivity.
    + vm_compute. discriminate.
    + vm_compute in D. discriminate D.
Defined.

(** The record of the one-row sheet reaches the store and satisfies the
    invariant. *)
Lemma records_for_the_store_are_valid_witness :
  In acme (fst (convert_rows (parsed one_row))) /\ domain_invariant acme.
Proof.
  assert (H : In acme (fst (convert_rows (parsed one_row)))).
  { vm_compute. left. reflexivity. }
  split; [exact H |].
  exact (proj1 (proj1 records_for_the_store_are_valid (parsed one_row) acme H)).
Defined.

(* ================================================================== *)
(** * The period parser *)
(* ================================================================== *)

(** A match hands its continuation as many new groups as the expression
    has. *)
Lemma rmatch_groups (A : Type) (r : regex) :
  uniform r = true ->
  forall (s : str) (caps : list str) (k : str -> list str -> option A) (x : A),
    rmatch r s caps k = Some x ->
    exists s' caps',
      List.length caps' = (List.length caps + ngroups r)%nat
      /\ k s' caps' = Some x.
Proof.
  induction r as [p | a IHa b IHb | a IHa b IHb | lo hi r' IH | p | r' IH];
    intros U s caps k x H; simpl in *.
  - destruct s as [|c t]; [discriminate |].
    destruct (p c); [| discriminate].
    exists t, caps. split; [lia | exact H].
  - apply andb_prop in U as [Ua Ub].
    apply (IHa Ua) in H as (s1 & c1 & L1 & H).
    apply (IHb Ub) in H as (s2 & c2 & L2 & H).
    exists s2, c2. split; [lia | exact H].
  - apply andb_prop in U as [U E]. apply andb_prop in U as [Ua Ub].
    apply Nat.eqb_eq in E.
    destruct (rmatch a s caps k) eqn:Ha; simpl in H.
    + inversion H; subst. apply (IHa Ua) in Ha as (s1 & c1 & L1 & Ha).
      exists s1, c1. split; [lia | exact Ha].
    + apply (IHb Ub) in H as (s1 & c1 & L1 & H).
      exists s1, c1. split; [lia | exact H].
  - apply andb_prop in U as [U E]. apply Nat.eqb_eq in E.
    revert lo s caps H. induction hi as [|hi IHhi]; intros lo s caps H.
    + exists s, caps. split; [lia | exact H].
    + match type of H with
      | or_else ?m _ = _ => destruct m eqn:Hm
      end; simpl in H.
      * inversion H; subst. apply (IH U) in Hm as (s1 & c1 & L1 & Hm).
        apply IHhi in Hm as (s2 & c2 & L2 & Hm).
        exists s2, c2. split; [lia | exact Hm].
      * destruct lo; [| discriminate].
        exists s, caps. split; [lia | exact H].
  - revert H. induction s as [|c t IHs]; intros H.
    + exists [], caps. split; [lia | exact H].
    + destruct (p c).
      * match type of H with
        | or_else ?m _ = _ => destruct m eqn:Hm
        end; simpl in H.
        -- inversion H; subst. now apply IHs.
        -- exists (c :: t), caps. split; [lia | exact H].
      * exists (c :: t), caps. split; [lia | exact H].
  - apply (IH U) in H as (s1 & c1 & L1 & H).
    eexists s1, _. split; [| exact H].
    rewrite length_app. simpl. lia.
Qed.

Lemma re_search_groups (r : regex) (s : str) (caps : list str) :
  uniform r = true -> re_search r s = Some caps -> List.length caps = ngroups r.
Proof.
  intros U. induction s as [|c t IH]; simpl; unfold re_match.
  - destruct (rmatch r [] [] _) as [[rest caps']|] eqn:H; [| discriminate].
    intros E. inversion E; subst.
    apply (@rmatch_groups _ r U) in H as (s' & c' & L & H).
    inversion H; subst. exact L.
  - destruct (rmatch r (c :: t) [] _) as [[rest caps']|] eqn:H; [| exact IH].
    intros E. inversion E; subst.
    apply (@rmatch_groups _ r U) in H as (s' & c' & L & H).
    inversion H; subst. exact L.
Qed.

(** A match of one of the four patterns has two groups. *)
Lemma date_pattern_groups (pattern : regex) (s : str) (caps : list str) :
  In pattern date_patterns -> re_search pattern s = Some caps ->
  exists start_str end_str, caps = [start_str; end_str].
Proof.
  intros Hp H.
  assert (L : List.length caps = 2%nat).
  { unfold date_patterns in Hp.
    destruct Hp as [<- | [<- | [<- | [<- | []]]]];
      apply re_search_groups in H; try reflexivity; exact H. }
  destruct caps as [|a [|b [|c caps]]]; try discriminate L.
  now exists a, b.
Qed.

Lemma first_some_some {A B} (f : A -> option B) (l : list A) (y : B) :
  first_some f l = Some y
  <-> exists before x after,
      l = before ++ x :: after
      /\ (forall z, In z before -> f z = None)
      /\ f x = Some y.
Proof.
  induction l as [|a l IH]; simpl.
  - split; [discriminate |].
    intros (before & x & after & E & _). destruct before; discriminate E.
  - destruct (f a) as [fa|] eqn:Fa.
    + split.
      * intros H. exists [], a, l. repeat split; [intros z [] | congruence].
      * intros (before & x & after & E & N & Fx).
        destruct before as [|z0 before]; simpl in E; inversion E; subst.
        -- congruence.
        -- rewrite (N z0 (or_introl eq_refl)) in Fa. discriminate Fa.
    + rewrite IH. split.
      * intros (before & x & after & E & N & Fx).
        exists (a :: before), x, after. subst l. repeat split; [| exact Fx].
        intros z [<- | Hz]; [exact Fa | now apply N].
      * intros (before & x & after & E & N & Fx).
        destruct before as [|z0 before]; simpl in E; inversion E; subst.
        -- congruence.
        -- exists before, x, after. repeat split; [| exact Fx].
           intros z Hz. apply N. now right.
Qed.

Lemma first_some_none {A B} (f : A -> option B) (l : list A) :
  first_some f l = None <-> forall x, In x l -> f x = None.
Proof.
  induction l as [|a l IH]; simpl.
  - split; [intros _ x [] | reflexivity].
  - destruct (f a) eqn:Fa.
    + split; [discriminate |].
      intros H. rewrite (H a (or_introl eq_refl)) in Fa. discriminate Fa.
    + rewrite IH. split.
      * intros H x [<- | Hx]; [exact Fa | now apply H].
      * intros H x Hx. apply H. now right.
Qed.

(** One turn of the loop gives dates exactly when the pattern matches
    and both sides of the match are dates. *)
Lemma try_pattern_some (s : str) (pattern : regex) (d1 d2 : date) :
  try_pattern s pattern = Some (d1, d2)
  <-> exists start_str end_str,
      re_search pattern s = Some [start_str; end_str]
      /\ _parse_single_date start_str = Some d1
      /\ _parse_single_date end_str = Some d2.
Proof.
  unfold try_pattern. split.
  - destruct (re_search pattern s) as [[|a [|b [|c caps]]]|]; try discriminate.
    destruct (_parse_single_date a) eqn:Pa; [| discriminate].
    destruct (_parse_single_date b) eqn:Pb; [| discriminate].
    intros H. inversion H; subst. now exists a, b.
  - intros (a & b & -> & -> & ->). reflexivity.
Qed.

Lemma try_pattern_none (s : str) (pattern : regex) :
  In pattern date_patterns ->
  try_pattern s pattern = None <-> pattern_gives_nothing s pattern.
Proof.
  intros Hp. unfold try_pattern, pattern_gives_nothing.
  destruct (re_search pattern s) as [caps|] eqn:R.
  - destruct (@date_pattern_groups pattern s caps Hp R) as (a & b & ->).
    destruct (_parse_single_date a) eqn:Pa, (_parse_single_date b) eqn:Pb;
      split; intros H; try discriminate H; try reflexivity.
    + destruct H as [H | (a' & b' & E & [H | H])]; [discriminate H | |];
        inversion E; subst; congruence.
    + right. exists a, b. split; [reflexivity |]. now right.
    + right. exists a, b. split; [reflexivity |]. now left.
    + right. exists a, b. split; [reflexivity |]. now left.
  - split; [now left | reflexivity].
Qed.

(** Where the first matching pattern gives dates, the loop returns
    them. *)
Lemma first_match_wins_is_returned (period_str : str) (dates : date * date) :
  first_match_wins period_str = Some dates ->
  _parse_insurance_period period_str = Ok dates.
Proof.
  unfold first_match_wins, first_matching_pattern, _parse_insurance_period.
  set (s := strip period_str).
  assert (G : forall l a b,
             first_some (fun pattern =>
                           match re_search pattern s with
                           | Some [start_str; end_str] => Some (start_str, end_str)
                           | _ => None
                           end) l = Some (a, b) ->
             forall d, match _parse_single_date a, _parse_single_date b with
                       | Some x, Some y => Some (x, y)
                       | _, _ => None
                       end = Some d ->
                       first_some (try_pattern s) l = Some d).
  { induction l as [|p l IH]; intros a b H d Hd; simpl in *; [discriminate |].
    unfold try_pattern at 1.
    destruct (re_search p s) as [[|a' [|b' [|c caps]]]|]; try (now apply (IH a b)).
    inversion H; subst. rewrite Hd. reflexivity. }
  destruct (first_some _ date_patterns) as [[a b]|] eqn:F; [| discriminate].
  intros H. now rewrite (G date_patterns a b F dates H).
Qed.

(** C5, amended.  On the stripped text, the four patterns are tried in
    their fixed order; each pattern that matches has its two captured
    sides parsed, each on its own, by the first of the six formats
    %d/%m/%Y, %m/%d/%Y, %Y-%m-%d, %d-%m-%Y, %d.%m.%Y, %Y/%m/%d that
    reads it, and the first pattern whose two sides are both read gives
    the dates.  The parser fails exactly when every pattern either does
    not match or has a side that fails all six formats.  Where the
    first pattern that matches has both sides read, this is the parser
    in which the first match wins. *)
Theorem period_is_parsed_by_first_pattern_that_yields_dates (period_str : str) :
  let s := strip period_str in
  (forall start_date end_date,
      _parse_insurance_period period_str = Ok (start_date, end_date)
      <-> exists before pattern after start_str end_str,
          date_patterns = before ++ pattern :: after
          /\ (forall q, In q before -> pattern_gives_nothing s q)
          /\ re_search pattern s = Some [start_str; end_str]
          /\ _parse_single_date start_str = Some start_date
          /\ _parse_single_date end_str = Some end_date)
  /\ ((exists e, _parse_insurance_period period_str = Raise e)
      <-> forall q, In q date_patterns -> pattern_gives_nothing s q)
  /\ (forall date_str d,
         _parse_single_date date_str = Some d
         <-> exists before fmt after,
             date_formats = before ++ fmt :: after
             /\ (forall g, In g before -> strptime (strip date_str) g = None)
             /\ strptime (strip date_str) fmt = Some d)
  /\ (forall date_str,
         _parse_single_date date_str = None
         <-> forall g, In g date_formats -> strptime (strip date_str) g = None)
  /\ date_formats
     = [ fmt_dmy slash; fmt_mdy slash; fmt_ymd hyphen;
         fmt_dmy hyphen; fmt_dmy dot; fmt_ymd slash ]
  /\ (forall dates,
         first_match_wins period_str = Some dates ->
         _parse_insurance_period period_str = Ok dates).
Proof.
  intros s. split; [| split; [| split; [| split; [| split]]]].
  - intros d1 d2. unfold _parse_insurance_period. fold s.
    destruct (first_some (try_pattern s) date_patterns) as [[x y]|] eqn:F.
    + apply first_some_some in F as (before & p & after & E & N & T).
      apply try_pattern_some in T as (a & b & R & Pa & Pb).
      split.
      * intros H. inversion H; subst.
        exists before, p, after, a, b. repeat split; try assumption.
        intros q Hq. apply try_pattern_none; [| now apply N].
        rewrite E. apply in_or_app. now left.
      * intros (before' & p' & after' & a' & b' & E' & N' & R' & Pa' & Pb').
        assert (F' : first_some (try_pattern s) date_patterns = Some (d1, d2)).
        { apply first_some_some. exists before', p', after'.
          split; [exact E' |]. split.
          - intros q Hq. apply try_pattern_none; [| now apply N'].
            rewrite E'. apply in_or_app. now left.
          - apply try_pattern_some. now exists a', b'. }
        assert (F0 : first_some (try_pattern s) date_patterns = Some (x, y)).
        { apply first_some_some. exists before, p, after.
          split; [exact E |]. split; [exact N |].
          apply try_pattern_some. now exists a, b. }
        congruence.
    + split; [discriminate |].
      intros (before' & p' & after' & a' & b' & E' & N' & R' & Pa' & Pb').
      rewrite first_some_none in F.
      assert (T : try_pattern s p' = None).
      { apply F. rewrite E'. apply in_or_app. right. now left. }
      assert (T' : try_pattern s p' = Some (d1, d2)).
      { apply try_pattern_some. now exists a', b'. }
      congruence.
  - unfold _parse_insurance_period. fold s.
    destruct (first_some (try_pattern s) date_patterns) as [[x y]|] eqn:F.
    + split; [intros (e & H); discriminate H |].
      intros H. apply first_some_some in F as (before & p & after & E & N & T).
      assert (Hp : In p date_patterns).
      { rewrite E. apply in_or_app. right. now left. }
      specialize (H p Hp). apply (@try_pattern_none s p Hp) in H. congruence.
    + split; [| intros _; eexists; reflexivity].
      intros _ q Hq. apply try_pattern_none; [exact Hq |].
      rewrite first_some_none in F. now apply F.
  - intros date_str d. unfold _parse_single_date. apply first_some_some.
  - intros date_str. unfold _parse_single_date. apply first_some_none.
  - reflexivity.
  - intros dates. apply first_match_wins_is_returned.
Qed.

(* ================================================================== *)
(** * When the report of a completed run is replaced *)
(* ================================================================== *)

Section ReplacedReports.
Variable env : collaborators.
Variable file : upload.
Variable request : ExcelIngestionRequest.

(** The audit entry of the [try] is written inside the [try]: when
    the write fails after the outcome is computed, the [except] branch
    takes over and the report is that of a failed run. *)
Lemma audit_failure_masks_outcome
      (w w1 : world) (o : outcome) (details : option (list text)) (e : exn) :
  compute_outcome env file request w = (Ok o, w1) ->
  error_details (out_errors o) = Ok details ->
  audit_failure env w1
    {| log_filename := upload_name file;
       log_file_size_bytes := upload_size file;
       log_rows_processed := out_total_rows o;
       log_rows_successful := out_successful o;
       log_rows_failed := out_failed o;
       log_status := out_status o;
       log_error_details := details |} = Some e ->
  fst (ingest_excel_file env file request w) = Ok (failed_report file e).
Proof.
  intros C D A.
  unfold ingest_excel_file, try_except, ingestion_attempt, log_data_ingestion,
    commit_entry, bind, lift.
  rewrite C, D, A.
  destruct (ingestion_failed_reports env file e (tick w1)) as (w' & E & _).
  now rewrite E.
Qed.

(** The texts for the audit entry are joined inside the [try] as
    well: as soon as the parser recorded a cell error, [join] refuses
    it and the report is that of a failed run. *)
Lemma cell_error_masks_outcome
      (w w1 : world) (o : outcome) (e : ExcelValidationError)
      (rest : list error_item) :
  compute_outcome env file request w = (Ok o, w1) ->
  out_errors o = CellError e :: rest ->
  fst (ingest_excel_file env file request w)
  = Ok (failed_report file (TypeError (JoinItemNotStr 0))).
Proof.
  intros C D.
  unfold ingest_excel_file, try_except, ingestion_attempt, bind, lift.
  rewrite C, D. simpl.
  destruct (ingestion_failed_reports env file (TypeError (JoinItemNotStr 0)) w1)
    as (w' & E & _).
  now rewrite E.
Qed.

End ReplacedReports.

(* ================================================================== *)
(** * The theorems at work on the scenarios *)
(* ================================================================== *)

(** The combined period of the first row of the sheets. *)
Lemma period_is_parsed_by_first_pattern_that_yields_dates_witness :
  _parse_insurance_period (lit "01/01/2024 - 31/12/2024")
  = Ok (mk_date 2024 1 1, mk_date 2024 12 31).
Proof.
  apply (proj1 (period_is_parsed_by_first_pattern_that_yields_dates
                  (lit "01/01/2024 - 31/12/2024"))).
  exists [], (re_range (re_dmy slash)),
    [re_range (re_ymd hyphen); re_range (re_dmy hyphen); re_range (re_dmy dot)],
    (lit "01/01/2024"), (lit "31/12/2024").
  split; [reflexivity |].
  split; [intros q [] |].
  split; [vm_compute; reflexivity |].
  split; vm_compute; reflexivity.
Defined.

(** A cell that does not read as a number. *)
Lemma numeric_sanitizer_defaults_and_errors_witness :
  convert_numeric F.premium 0 (numeric_text (VStr (lit " 12abc% ")))
  = (f_zero,
     [ {| row_number := 2;
          column_name := F.premium;
          error_type := lit "invalid_numeric";
          error_message := CannotConvert (lit "12abc");
          raw_value := Some (lit "12abc") |} ]).
Proof.
  refine (proj2 (proj2 (proj2 (proj2 numeric_sanitizer_defaults_and_errors)
                          F.premium 0%nat (VStr (lit " 12abc% "))) _ _ _ _) _).
  - vm_compute. discriminate.
  - vm_compute. discriminate.
  - vm_compute. discriminate.
  - vm_compute. discriminate.
  - vm_compute. reflexivity.
Defined.

(** A sheet with one column has no column for the insured name. *)
Lemma missing_columns_fail_before_rows_witness :
  parse_excel_file values_only (Ok lone_column) None
  = Raise (ValueError
             (ExcelParsingFailed
                (MissingRequiredColumns
                   [ F.insured_name; F.sum_insured; F.premium; F.own_retention_ppn;
                     F.own_retention_sum_insured; F.own_retention_premium;
                     F.treaty_ppn; F.treaty_sum_insured; F.treaty_premium;
                     lit "insurance period dates" ]))).
Proof.
  refine (proj1 (proj1 (missing_columns_fail_before_rows values_only lone_column None) _)).
  intros [H _].
  specialize (H F.insured_name (or_intror (or_introl eq_refl))).
  vm_compute in H. destruct H as [H | []]. discriminate H.
Defined.

(** The sum insured column of the three-row sheet, where one cell is
    written with the naira sign and commas. *)
Lemma separators_and_currency_do_not_change_the_number_witness :
  exists result,
    _clean_numeric_field (renamed three_rows) F.sum_insured = Ok result
    /\ _clean_numeric_field
         (map_column F.sum_insured
                     (fun v => VStr (without [44%N; naira] (str_of_val v)))
                     (renamed three_rows))
         F.sum_insured
       = Ok result
    /\ map fst (rows (fst result)) = [0; 1; 2]%nat
    /\ snd result = [].
Proof.
  destruct (proj1 (proj2 (proj2 separators_and_currency_do_not_change_the_number))
                  [44%N; naira] (renamed three_rows) F.sum_insured)
    as (result & A & B & C).
  - intros c [<- | [<- | []]]; [left | right; left]; reflexivity.
  - vm_compute. reflexivity.
  - vm_compute. reflexivity.
  - exists result. split; [exact A |]. split; [exact B |].
    rewrite C. split; vm_compute; reflexivity.
Defined.

(* ================================================================== *)
(** * Rows without identity, and the three-row sheet, in general *)
(* ================================================================== *)

(** A row whose policy number or insured name is empty once trimmed is
    refused by the conversion, whatever else it holds: it gives no
    record for the store. *)
Lemma rows_without_identity_are_excluded (r : row) :
  strip (str_of_val (match lookup F.policy_number r with
                     | Some v => v
                     | None => VStr []
                     end)) = []
  \/ strip (str_of_val (match lookup F.insured_name r with
                        | Some v => v
                        | None => VStr []
                        end)) = [] ->
  exists e, _convert_row_to_policy r = Raise e.
Proof.
  intros H. unfold _convert_row_to_policy.
  repeat match goal with
         | |- context [res_bind (float_of_val ?v) _] =>
             destruct (float_of_val v); simpl res_bind;
             [| eexists; reflexivity]
         end.
  cbn [policy_number insured_name].
  destruct H as [H | H].
  - rewrite H. eexists. reflexivity.
  - rewrite H. clear H.
    destruct (strip (str_of_val _)); eexists; reflexivity.
Qed.

(** Whatever the collaborators do, the report for the three-row sheet
    is that of a failed run: the parser recorded a cell error, which
    [join] refuses when the outcome is computed, and any earlier failure
    ends in the same branch. *)
Lemma three_rows_report_is_failed (env : collaborators) (w : world) :
  exists e w',
    ingest_excel_file env (file_of three_rows) Scenario.request w
    = (Ok (failed_report (file_of three_rows) e), w').
Proof.
  destruct (ingest_cases env (file_of three_rows) Scenario.request w)
    as [(report & w' & A & I) | (e & w1 & w' & A & I & _)];
    [| now exists e, w'].
  exfalso. revert A.
  unfold ingestion_attempt, bind, lift.
  destruct (compute_outcome env (file_of three_rows) Scenario.request w)
    as [[o | e] w1] eqn:C; [| discriminate].
  assert (E : exists e rest, out_errors o = CellError e :: rest).
  { revert C. unfold compute_outcome, bind, get_repository, call, lift.
    destruct (repository_failure env w); [discriminate |].
    destruct (repository_failure env (tick w)); [discriminate |].
    assert (P : exists df e,
               parse_excel_file (series_text env) (read_excel (file_of three_rows))
                                None
               = Ok (df, [e])).
    { do 2 eexists. vm_compute. reflexivity. }
    destruct P as (df & e & ->).
    destruct (rows df); [discriminate |].
    destruct (convert_rows df) as [policies_data conversion_errors].
    destruct (bulk_create_policies env policies_data (batch_size Scenario.request) _)
      as [[c | e1] w2]; [| discriminate].
    unfold ret. intros H. inversion H; subst. simpl.
    eexists. eexists. reflexivity. }
  destruct E as (e & rest & ->). simpl. discriminate.
Qed.

(* ================================================================== *)
(** * The builtins of the model, on examples *)
(* ================================================================== *)

Example float_of_plain_decimal :
  py_float (lit "0.1") = Some (S754_finite false 7205759403792794 (-56)).
Proof. vm_compute. reflexivity. Qed.

Example float_of_exponent_and_underscores :
  py_float (lit " 1_000e-3 ") = Some (float_of_Z 1)
  /\ py_float (lit "1e999") = Some (S754_infinity false)
  /\ py_float (lit "+nan") = Some S754_nan
  /\ py_float (lit "-Infinity") = Some (S754_infinity true).
Proof. by_evaluation. Qed.

Example float_of_text_refused :
  py_float (lit "1,5") = None
  /\ py_float (lit "12abc") = None
  /\ py_float (lit "1__0") = None
  /\ py_float (lit "") = None
  /\ py_float (naira :: lit "5") = None.
Proof. by_evaluation. Qed.

Example repr_of_floats :
  repr_float (float_of_Z 150) = lit "150.0"
  /\ repr_float (S754_finite false 7205759403792794 (-56)) = lit "0.1"
  /\ repr_float (float_of_Z (10 ^ 16)) = lit "1e+16"
  /\ repr_float (S754_finite true 5429388417957888 (-42)) = lit "-1234.5"
  /\ repr_float S754_nan = lit "nan".
Proof. by_evaluation. Qed.

Example date_read_day_first :
  _parse_single_date (lit "03/04/2024") = Some (mk_date 2024 4 3)
  /\ _parse_single_date (lit "04/13/2024") = Some (mk_date 2024 4 13)
  /\ _parse_single_date (lit "2024-2-29") = Some (mk_date 2024 2 29)
  /\ _parse_single_date (lit "31.12.1999") = Some (mk_date 1999 12 31).
Proof. by_evaluation. Qed.

Example date_refused :
  _parse_single_date (lit "31/02/2024") = None
  /\ _parse_single_date (lit "29/02/2023") = None
  /\ _parse_single_date (lit "1/1/20245") = None
  /\ _parse_single_date (lit "00/01/2024") = None.
Proof. by_evaluation. Qed.

Example period_of_each_pattern :
  _parse_insurance_period (lit " 01/01/2024 - 31/12/2024 ")
  = Ok (mk_date 2024 1 1, mk_date 2024 12 31)
  /\ _parse_insurance_period (lit "2024-01-01-2024-12-31")
     = Ok (mk_date 2024 1 1, mk_date 2024 12 31)
  /\ _parse_insurance_period (lit "1-1-2024 - 31-12-2024")
     = Ok (mk_date 2024 1 1, mk_date 2024 12 31)
  /\ _parse_insurance_period (lit "01.01.2024 -31.12.2024")
     = Ok (mk_date 2024 1 1, mk_date 2024 12 31)
  /\ _parse_insurance_period (lit "1-Jan-2024 to 31-Dec-2024")
     = Raise (ValueError (CannotParsePeriod (lit "1-Jan-2024 to 31-Dec-2024"))).
Proof. by_evaluation. Qed.

Example columns_of_the_default_sheet :
  _validate_required_columns
    (_create_column_mapping (columns (normalize_columns three_rows)) default_mapping)
  = []
  /\ _validate_required_columns
       (_create_column_mapping (columns (normalize_columns lone_column)) default_mapping)
     = [ F.insured_name; F.sum_insured; F.premium; F.own_retention_ppn;
         F.own_retention_sum_insured; F.own_retention_premium;
         F.treaty_ppn; F.treaty_sum_insured; F.treaty_premium;
         lit "insurance period dates" ].
Proof. by_evaluation. Qed.


(* ================================================================== *)
(** * The batches of [bulk_create_policies] *)
(* ================================================================== *)

Lemma slices_concat {A} (size : nat) (fuel : nat) (l : list A) :
  (0 < size)%nat -> (List.length l <= fuel)%nat ->
  concat (slices fuel size l) = l.
Proof.
  intros P. revert l. induction fuel as [|fuel IH]; intros l H.
  - destruct l; [reflexivity | simpl in H; lia].
  - destruct l as [|a l]; [reflexivity |].
    cbn [slices concat]. rewrite IH.
    + apply firstn_skipn.
    + rewrite length_skipn. cbn [List.length] in *. lia.
Qed.

Lemma slices_bounds {A} (size : nat) (fuel : nat) (l : list A) :
  (0 < size)%nat ->
  Forall (fun b => b <> [] /\ (List.length b <= size)%nat) (slices fuel size l).
Proof.
  intros P. revert l. induction fuel as [|fuel IH]; intros l; [constructor |].
  destruct l as [|a l]; [constructor |].
  cbn [slices]. constructor; [| apply IH].
  split.
  - destruct size; [lia | discriminate].
  - apply firstn_le_length.
Qed.

(** X1.  For a positive batch size, the batches [bulk_create_policies]
    goes through are the records it was given, cut in order: put end to
    end they give the list back, none is empty and none is longer than
    the batch size. *)
Theorem batches_cut_the_records_in_order {A} (l : list A) (size : Z) :
  0 < size ->
  exists bs,
    batches l size = Ok bs
    /\ concat bs = l
    /\ Forall (fun b => b <> [] /\ Z.of_nat (List.length b) <= size) bs.
Proof.
  intros P. unfold batches.
  destruct (size =? 0) eqn:E0; [lia |].
  destruct (size <? 0) eqn:E1; [lia |].
  eexists. split; [reflexivity |]. split.
  - apply slices_concat; lia.
  - eapply Forall_impl; [| apply (@slices_bounds A (Z.to_nat size)); lia].
    intros b [N L]. split; [exact N | lia].
Qed.

Lemma batches_cut_the_records_in_order_witness :
  exists bs,
    batches [1; 2; 3; 4; 5] 2 = Ok bs
    /\ concat bs = [1; 2; 3; 4; 5]
    /\ Forall (fun b => b <> [] /\ Z.of_nat (List.length b) <= 2) bs.
Proof. apply (@batches_cut_the_records_in_order Z [1; 2; 3; 4; 5] 2). lia. Defined.

(* ================================================================== *)
(** * What [bulk_create_policies] stores and counts *)
(* ================================================================== *)

Section BulkInsert.
Variable env : collaborators.

Lemma all_models_ok (l : list InsurancePolicyCreate) :
  (forall p, In p l -> model_failure env p = None) ->
  filter (model_ok env) l = l.
Proof.
  induction l as [|p l IH]; intros H; simpl; [reflexivity |].
  unfold model_ok at 1. rewrite (H p) by now left.
  rewrite IH; [reflexivity |]. intros q Hq. apply H. now right.
Qed.

Lemma build_models_spec (batch : list InsurancePolicyCreate) (c : counts) :
  exists msgs,
    build_models env batch c
    = (filter (model_ok env) batch,
       {| successful_count := successful_count c;
          failed_count := failed_count c + List.length msgs;
          error_messages := error_messages c ++ msgs |})
    /\ (List.length msgs + List.length (filter (model_ok env) batch)
        = List.length batch)%nat
    /\ Forall (fun t => is_row_error (Message t) = false) msgs.
Proof.
  unfold build_models.
  assert (G : forall l good s f m,
             exists msgs,
               fold_left
                 (fun acc policy_data =>
                    match model_failure env policy_data with
                    | None => (fst acc ++ [policy_data], snd acc)
                    | Some e =>
                        (fst acc,
                         {| successful_count := successful_count (snd acc);
                            failed_count := failed_count (snd acc) + 1;
                            error_messages :=
                              error_messages (snd acc)
                              ++ [PolicyError (policy_number policy_data)
                                              (str_of_exn e)] |})
                    end) l
                 (good, {| successful_count := s; failed_count := f;
                           error_messages := m |})
               = (good ++ filter (model_ok env) l,
                  {| successful_count := s;
                     failed_count := f + List.length msgs;
                     error_messages := m ++ msgs |})
               /\ (List.length msgs + List.length (filter (model_ok env) l)
                   = List.length l)%nat
               /\ Forall (fun t => is_row_error (Message t) = false) msgs).
  { induction l as [|p l IH]; intros good s f m.
    - exists []. simpl. rewrite !app_nil_r, Nat.add_0_r. now repeat split.
    - cbn [fold_left filter].
      assert (K : model_ok env p
                  = match model_failure env p with None => true | Some _ => false end)
        by reflexivity.
      destruct (model_failure env p) as [e|]; rewrite K;
        cbn [fst snd successful_count failed_count error_messages].
      + destruct (IH good s (f + 1)%nat
                     (m ++ [PolicyError (policy_number p) (str_of_exn e)]))
          as (msgs & E & L & R).
        exists (PolicyError (policy_number p) (str_of_exn e) :: msgs).
        rewrite E. cbn [List.length]. split; [| split].
        * f_equal. f_equal; [lia | now rewrite <- app_assoc].
        * simpl. lia.
        * constructor; [reflexivity | exact R].
      + destruct (IH (good ++ [p]) s f m) as (msgs & E & L & R).
        exists msgs. rewrite E. split; [| split].
        * now rewrite <- app_assoc.
        * simpl. lia.
        * exact R. }
  destruct c as [s f m].
  destruct (G batch [] s f m) as (msgs & E & L & R).
  exists msgs. rewrite E. now repeat split.
Qed.

(** One batch: what is stored, what is counted. *)
Lemma process_batch_spec (number : Z) (batch : list InsurancePolicyCreate)
      (c : counts) (w : world) :
  exists added msgs n w',
    process_batch env number batch c w
    = (Ok {| successful_count := successful_count c + List.length added;
             failed_count := failed_count c + n;
             error_messages := error_messages c ++ msgs |}, w')
    /\ insurance_policies w' = insurance_policies w ++ added
    /\ data_ingestion_logs w' = data_ingestion_logs w
    /\ (added = [] \/ added = filter (model_ok env) batch)
    /\ (List.length batch <= n + List.length added)%nat
    /\ ((forall p, In p batch -> model_failure env p = None) ->
        (n + List.length added = List.length batch)%nat)
    /\ (batch <> [] -> (n = 0%nat <-> msgs = []))
    /\ Forall (fun t => is_row_error (Message t) = false) msgs.
Proof.
  unfold process_batch, try_except, bind, call, ret.
  destruct (session_failure env w) as [e|].
  - exists [], [BatchError number (str_of_exn e)], (List.length batch), (tick w).
    unfold batch_failed. simpl. rewrite Nat.add_0_r, app_nil_r.
    split; [reflexivity |]. split; [reflexivity |]. split; [reflexivity |].
    split; [now left |]. split; [lia |]. split; [lia |]. split.
    + intros N. split; [| discriminate].
      intros Z. destruct batch; [contradiction | discriminate].
    + repeat constructor.
  - destruct (build_models_spec batch c) as (msgs & E & L & R).
    rewrite E.
    destruct (filter (model_ok env) batch) as [|p good] eqn:G.
    + exists [], msgs, (List.length msgs), (tick w).
      simpl. rewrite Nat.add_0_r, app_nil_r.
      split; [reflexivity |]. split; [reflexivity |]. split; [reflexivity |].
      split; [now left |]. simpl in L.
      split; [lia |]. split; [lia |]. split; [| exact R].
      intros _. split; intros H.
      * now destruct msgs.
      * now subst.
    + unfold commit.
      destruct (commit_failure env (tick w) (p :: good)) as [e|].
      * exists [], (msgs ++ [BatchError number (str_of_exn e)]),
          (List.length msgs + List.length batch)%nat, (tick (tick w)).
        unfold batch_failed.
        cbn [successful_count failed_count error_messages insurance_policies
             data_ingestion_logs tick List.length].
        rewrite Nat.add_0_r, app_nil_r, <- app_assoc, Nat.add_assoc.
        split; [reflexivity |]. split; [reflexivity |]. split; [reflexivity |].
        split; [now left |]. split; [lia |]. split; [| split].
        -- intros H. apply all_models_ok in H. rewrite H in G.
           rewrite G in L |- *. simpl in *. lia.
        -- intros N. split; intros H.
           ++ destruct batch; [contradiction | simpl in H; lia].
           ++ now destruct msgs.
        -- apply Forall_app. split; [exact R | repeat constructor].
      * exists (p :: good), msgs, (List.length msgs). eexists.
        cbn [successful_count failed_count error_messages].
        split; [reflexivity |].
        cbn [insurance_policies data_ingestion_logs tick].
        split; [reflexivity |]. split; [reflexivity |].
        split; [now right |]. split; [lia |]. split; [lia |]. split; [| exact R].
        intros _. split; intros H.
        -- now destruct msgs.
        -- now subst.
Qed.

Lemma process_batches_spec (bs : list (list InsurancePolicyCreate)) :
  Forall (fun b => b <> []) bs ->
  forall (number : Z) (c : counts) (w : world),
  exists added msgs n w',
    process_batches env number bs c w
    = (Ok {| successful_count := successful_count c + List.length added;
             failed_count := failed_count c + n;
             error_messages := error_messages c ++ msgs |}, w')
    /\ insurance_policies w' = insurance_policies w ++ added
    /\ data_ingestion_logs w' = data_ingestion_logs w
    /\ incl added (filter (model_ok env) (concat bs))
    /\ (List.length (concat bs) <= n + List.length added)%nat
    /\ ((forall p, In p (concat bs) -> model_failure env p = None) ->
        (n + List.length added = List.length (concat bs))%nat)
    /\ (n = 0%nat <-> msgs = [])
    /\ Forall (fun t => is_row_error (Message t) = false) msgs.
Proof.
  induction 1 as [|batch bs Nb Nbs IH]; intros number c w.
  - exists [], [], 0%nat, w. destruct c as [s f m]. simpl.
    rewrite !Nat.add_0_r, !app_nil_r.
    split; [reflexivity |]. split; [reflexivity |]. split; [reflexivity |].
    split; [apply incl_refl |]. split; [lia |]. split; [reflexivity |].
    split; [tauto | constructor].
  - cbn [process_batches]. unfold bind.
    destruct (process_batch_spec number batch c w)
      as (a1 & m1 & n1 & w1 & E1 & S1 & L1 & A1 & C1 & Q1 & Z1 & R1).
    rewrite E1.
    destruct (IH (number + 1)
                 {| successful_count := successful_count c + List.length a1;
                    failed_count := failed_count c + n1;
                    error_messages := error_messages c ++ m1 |} w1)
      as (a2 & m2 & n2 & w2 & E2 & S2 & L2 & A2 & C2 & Q2 & Z2 & R2).
    rewrite E2.
    cbn [successful_count failed_count error_messages].
    exists (a1 ++ a2), (m1 ++ m2), (n1 + n2)%nat, w2.
    cbn [concat]. rewrite filter_app, !length_app.
    split; [| split; [| split; [| split; [| split; [| split; [| split]]]]]].
    + now rewrite !Nat.add_assoc, !app_assoc.
    + now rewrite S2, S1, app_assoc.
    + congruence.
    + apply incl_app.
      * apply incl_appl. destruct A1 as [-> | ->]; [intros x [] | apply incl_refl].
      * now apply incl_appr.
    + lia.
    + intros H.
      assert (H1 : forall p, In p batch -> model_failure env p = None)
        by (intros p Hp; apply H, in_or_app; now left).
      assert (H2 : forall p, In p (concat bs) -> model_failure env p = None)
        by (intros p Hp; apply H, in_or_app; now right).
      specialize (Q1 H1). specialize (Q2 H2). lia.
    + specialize (Z1 Nb). split.
      * intros H. assert (n1 = 0%nat /\ n2 = 0%nat) as [X Y] by lia.
        apply Z1 in X. apply Z2 in Y. now subst.
      * intros H. apply app_eq_nil in H as [X Y].
        apply Z1 in X. apply Z2 in Y. lia.
    + apply Forall_app. now split.
Qed.

Lemma process_batches_reliable (bs : list (list InsurancePolicyCreate)) :
  (forall w, session_failure env w = None) ->
  (forall p, model_failure env p = None) ->
  (forall w ps, commit_failure env w ps = None) ->
  forall (number : Z) (c : counts) (w : world),
  exists w',
    process_batches env number bs c w
    = (Ok {| successful_count := successful_count c + List.length (concat bs);
             failed_count := failed_count c;
             error_messages := error_messages c |}, w')
    /\ insurance_policies w' = insurance_policies w ++ concat bs.
Proof.
  intros HS HM HC. induction bs as [|batch bs IH]; intros number c w.
  - exists w. destruct c as [s f m]. simpl.
    now rewrite Nat.add_0_r, app_nil_r.
  - cbn [process_batches concat]. unfold bind at 1.
    assert (B : exists w1,
               process_batch env number batch c w
               = (Ok {| successful_count := successful_count c + List.length batch;
                        failed_count := failed_count c;
                        error_messages := error_messages c |}, w1)
               /\ insurance_policies w1 = insurance_policies w ++ batch).
    { unfold process_batch, try_except, bind, call, ret. rewrite HS.
      destruct (build_models_spec batch c) as (msgs & E & L & _).
      rewrite E, all_models_ok in * by (intros; apply HM).
      assert (msgs = []) as -> by (destruct msgs; [reflexivity | simpl in L; lia]).
      destruct batch as [|p batch].
      - exists (tick w). simpl. now rewrite !Nat.add_0_r, !app_nil_r.
      - unfold commit. rewrite HC. eexists.
        cbn [successful_count failed_count error_messages List.length].
        rewrite Nat.add_0_r, app_nil_r. split; reflexivity. }
    destruct B as (w1 & E1 & S1). rewrite E1.
    destruct (IH (number + 1)
                 {| successful_count := successful_count c + List.length batch;
                    failed_count := failed_count c;
                    error_messages := error_messages c |} w1)
      as (w2 & E2 & S2).
    exists w2. rewrite E2, S2, S1, length_app.
    cbn [successful_count failed_count error_messages].
    now rewrite Nat.add_assoc, app_assoc.
Qed.

(** What [bulk_create_policies] returns, stores and counts. *)
Lemma bulk_create_cases
      (policies_data : list InsurancePolicyCreate) (size : Z) (w : world) :
  match bulk_create_policies env policies_data size w with
  | (Ok c, w') =>
      size <> 0
      /\ (exists added,
             insurance_policies w' = insurance_policies w ++ added
             /\ List.length added = successful_count c
             /\ forall p, In p added ->
                          In p policies_data /\ model_failure env p = None)
      /\ data_ingestion_logs w' = data_ingestion_logs w
      /\ (0 < size ->
          (List.length policies_data <= successful_count c + failed_count c)%nat
          /\ ((forall p, In p policies_data -> model_failure env p = None) ->
              (successful_count c + failed_count c)%nat = List.length policies_data)
          /\ (failed_count c = 0%nat <-> error_messages c = [])
          /\ Forall (fun t => is_row_error (Message t) = false) (error_messages c))
  | (Raise e, w') =>
      size = 0 /\ e = ValueError RangeStepZero /\ w' = w
  end.
Proof.
  unfold bulk_create_policies, bind, lift, batches.
  destruct (size =? 0) eqn:E0; [now split; [lia |] |].
  destruct (size <? 0) eqn:E1.
  - cbn [process_batches ret]. split; [lia |]. split; [| split; [reflexivity | lia]].
    exists []. rewrite app_nil_r.
    split; [reflexivity |]. split; [reflexivity |]. intros p [].
  - assert (P : (0 < Z.to_nat size)%nat) by lia.
    set (bs := slices (List.length policies_data) (Z.to_nat size) policies_data).
    assert (N : Forall (fun b : list InsurancePolicyCreate => b <> []) bs).
    { eapply Forall_impl; [| apply (slices_bounds (List.length policies_data)
                                      policies_data P)].
      intros b [N _]. exact N. }
    assert (C : concat bs = policies_data) by (apply slices_concat; lia).
    destruct (process_batches_spec N 1
                {| successful_count := 0; failed_count := 0; error_messages := [] |} w)
      as (added & msgs & n & w' & E & S & L & I & G & Q & Z & R).
    rewrite E, C in *.
    cbn [successful_count failed_count error_messages] in *.
    split; [lia |]. split; [| split; [exact L |]].
    + exists added. split; [exact S |]. split; [reflexivity |].
      intros p Hp. apply I, filter_In in Hp as [Hp Ho].
      split; [exact Hp |]. unfold model_ok in Ho.
      destruct (model_failure env p); [discriminate | reflexivity].
    + intros _. split; [lia |]. split; [| split; [exact Z | exact R]].
      intros H. specialize (Q H). lia.
Qed.

(** X2.  [bulk_create_policies] raises for a batch size of zero only,
    and then before anything is stored.  When it returns, the table of
    policies has grown by exactly [successful_count] records, each of
    them one of the records given whose database model could be built;
    the audit log is not written. *)
Theorem bulk_create_stores_what_it_counts
        (policies_data : list InsurancePolicyCreate) (size : Z) (w : world) :
  match bulk_create_policies env policies_data size w with
  | (Ok c, w') =>
      size <> 0
      /\ (exists added,
             insurance_policies w' = insurance_policies w ++ added
             /\ List.length added = successful_count c
             /\ forall p, In p added ->
                          In p policies_data /\ model_failure env p = None)
      /\ data_ingestion_logs w' = data_ingestion_logs w
  | (Raise e, w') =>
      size = 0 /\ e = ValueError RangeStepZero /\ w' = w
  end.
Proof.
  pose proof (bulk_create_cases policies_data size w) as H.
  destruct (bulk_create_policies env policies_data size w) as [[c | e] w'];
    [| exact H].
  destruct H as (A & B & C & _). split; [exact A |]. split; [exact B | exact C].
Qed.

(** X3.  For a positive batch size [bulk_create_policies] returns, and
    every record given is counted: the successful and the failed
    together are at least the records given, and exactly the records
    given when every database model can be built.  No record failed
    exactly when no error message is returned. *)
Theorem bulk_create_counts_every_record
        (policies_data : list InsurancePolicyCreate) (size : Z) (w : world) :
  0 < size ->
  exists c w',
    bulk_create_policies env policies_data size w = (Ok c, w')
    /\ (List.length policies_data <= successful_count c + failed_count c)%nat
    /\ ((forall p, In p policies_data -> model_failure env p = None) ->
        (successful_count c + failed_count c)%nat = List.length policies_data)
    /\ (failed_count c = 0%nat <-> error_messages c = []).
Proof.
  intros P.
  pose proof (bulk_create_cases policies_data size w) as H.
  destruct (bulk_create_policies env policies_data size w) as [[c | e] w'].
  - destruct H as (_ & _ & _ & H). destruct (H P) as (A & B & C & _).
    exists c, w'. split; [reflexivity |]. split; [exact A |].
    split; [exact B | exact C].
  - lia.
Qed.

(** X4.  When the session, the database models and the commit never
    fail, [bulk_create_policies] with a positive batch size stores
    every record given, in the order given, after those already there,
    and counts them all as successful.  It does not look at the policy
    numbers already in the table. *)
Theorem reliable_database_stores_every_record
        (policies_data : list InsurancePolicyCreate) (size : Z) (w : world) :
  (forall w, session_failure env w = None) ->
  (forall p, model_failure env p = None) ->
  (forall w ps, commit_failure env w ps = None) ->
  0 < size ->
  exists w',
    bulk_create_policies env policies_data size w
    = (Ok {| successful_count := List.length policies_data;
             failed_count := 0;
             error_messages := [] |}, w')
    /\ insurance_policies w' = insurance_policies w ++ policies_data.
Proof.
  intros HS HM HC P. unfold bulk_create_policies, bind, lift, batches.
  destruct (size =? 0) eqn:E0; [lia |].
  destruct (size <? 0) eqn:E1; [lia |].
  destruct (process_batches_reliable
              (slices (List.length policies_data) (Z.to_nat size) policies_data)
              HS HM HC 1
              {| successful_count := 0; failed_count := 0; error_messages := [] |} w)
    as (w' & E & S).
  rewrite slices_concat in E, S by lia.
  exists w'. split; [exact E | exact S].
Qed.

End BulkInsert.

Lemma bulk_create_counts_every_record_witness :
  exists c w',
    bulk_create_policies reliable [acme; acme; acme] 2 fresh = (Ok c, w')
    /\ (successful_count c + failed_count c)%nat = 3%nat.
Proof.
  destruct (@bulk_create_counts_every_record reliable [acme; acme; acme] 2 fresh)
    as (c & w' & E & _ & Q & _); [lia |].
  exists c, w'. split; [exact E |]. apply Q. reflexivity.
Defined.

Lemma reliable_database_stores_every_record_witness :
  exists w',
    bulk_create_policies reliable [acme; acme; acme] 2 fresh
    = (Ok {| successful_count := 3; failed_count := 0; error_messages := [] |}, w')
    /\ insurance_policies w' = [acme; acme; acme].
Proof.
  apply (@reliable_database_stores_every_record reliable [acme; acme; acme] 2 fresh);
    try reflexivity.
Defined.


(* ================================================================== *)
(** * The column mapping *)
(* ================================================================== *)

Lemma is_prefix_refl (s : str) : is_prefix s s = true.
Proof. induction s as [|c s IH]; simpl; [reflexivity |]. now rewrite N.eqb_refl. Qed.

Lemma is_infix_refl (s : str) : is_infix s s = true.
Proof. destruct s; simpl; [reflexivity |]. now rewrite N.eqb_refl, is_prefix_refl. Qed.

Lemma partial_match_spec (name : str) (excel_columns : list str) :
  match partial_match name excel_columns with
  | Some col =>
      In col excel_columns
      /\ (is_infix name col = true \/ is_infix col name = true)
  | None =>
      forall col, In col excel_columns ->
                  is_infix name col = false /\ is_infix col name = false
  end.
Proof.
  induction excel_columns as [|col rest IH]; simpl; [intros col [] |].
  destruct (is_infix name col || is_infix col name) eqn:E.
  - split; [now left |]. now apply orb_true_iff.
  - apply orb_false_iff in E.
    destruct (partial_match name rest) as [found|].
    + destruct IH as [I M]. split; [now right | exact M].
    + intros c [<- | H]; [exact E | now apply IH].
Qed.

(** X5.  The column [_find_best_column_match] returns is a column of
    the sheet, and one of the possible names, in upper case, contains
    it or is contained in it.  It returns nothing exactly when no
    column of the sheet contains, or is contained in, any of the
    names. *)
Theorem best_column_match_is_sound_and_complete
        (excel_columns possible_names : list str) :
  match _find_best_column_match excel_columns possible_names with
  | Some col =>
      In col excel_columns
      /\ exists name,
          In name possible_names
          /\ (is_infix (upper name) col = true \/ is_infix col (upper name) = true)
  | None =>
      forall name col,
        In name possible_names -> In col excel_columns ->
        is_infix (upper name) col = false /\ is_infix col (upper name) = false
  end.
Proof.
  induction possible_names as [|name rest IH]; simpl; [intros name col [] |].
  destruct (mem_str (upper name) excel_columns) eqn:E.
  - apply mem_str_In in E. split; [exact E |].
    exists name. split; [now left |]. left. apply is_infix_refl.
  - pose proof (partial_match_spec (upper name) excel_columns) as P.
    destruct (partial_match (upper name) excel_columns) as [col|].
    + destruct P as [I M]. split; [exact I |]. exists name. split; [now left | exact M].
    + destruct (_find_best_column_match excel_columns rest) as [col|].
      * destruct IH as (I & n & Hn & M). split; [exact I |].
        exists n. split; [now right | exact M].
      * intros n col [<- | Hn] Hc; [now apply P | now apply IH].
Qed.

Lemma best_column_match_in_sheet (excel_columns possible_names : list str)
      (col : str) :
  _find_best_column_match excel_columns possible_names = Some col ->
  In col excel_columns.
Proof.
  revert col. induction possible_names as [|name rest IH]; simpl; [discriminate |].
  intros col.
  destruct (mem_str (upper name) excel_columns) eqn:E.
  - intros H. inversion H; subst. now apply mem_str_In.
  - pose proof (partial_match_spec (upper name) excel_columns) as P.
    destruct (partial_match (upper name) excel_columns) as [c|].
    + intros H. inversion H; subst. apply P.
    + apply IH.
Qed.

(** ** The dictionary [column_map] *)

Lemma dict_set_keys {V} (k : str) (v : V) (d : list (str * V)) :
  map fst (dict_set k v d)
  = if mem_str k (map fst d) then map fst d else map fst d ++ [k].
Proof.
  induction d as [|[k' v'] d IH]; simpl; [reflexivity |].
  destruct (str_eqb k' k) eqn:E.
  - apply str_eqb_spec in E. subst k'. simpl. now rewrite str_eqb_refl.
  - simpl. rewrite IH.
    assert (E' : str_eqb k k' = false).
    { destruct (str_eqb k k') eqn:X; [| reflexivity].
      apply str_eqb_spec in X. subst. now rewrite str_eqb_refl in E. }
    unfold mem_str. simpl. rewrite E'. simpl.
    now destruct (existsb (str_eqb k) (map fst d)).
Qed.

Lemma dict_set_In {V} (k : str) (v : V) (d : list (str * V)) (kv : str * V) :
  In kv (dict_set k v d) -> kv = (k, v) \/ In kv d.
Proof.
  induction d as [|[k' v'] d IH]; simpl.
  - intros [<- | []]. now left.
  - destruct (str_eqb k' k) eqn:E.
    + apply str_eqb_spec in E. subst k'.
      intros [<- | H]; [now left | now right; right].
    + intros [<- | H]; [now right; left |].
      destruct (IH H) as [-> | H']; [now left | now right; right].
Qed.

Lemma dict_set_values {V} (k : str) (v : V) (d : list (str * V)) :
  NoDup (map snd d) -> ~ In v (map snd d) -> NoDup (map snd (dict_set k v d)).
Proof.
  induction d as [|[k' v'] d IH]; simpl; intros N F.
  - constructor; [intros [] | constructor].
  - inversion N as [|x l N1 N2]; subst.
    destruct (str_eqb k' k); simpl.
    + constructor; [tauto | exact N2].
    + constructor.
      * intros H. apply in_map_iff in H as ([k0 v0] & Hv & Hi). simpl in Hv. subst v0.
        apply dict_set_In in Hi as [Hi | Hi].
        -- inversion Hi; subst. apply F. now left.
        -- apply N1. apply in_map_iff. now exists (k0, v').
      * apply IH; [exact N2 | tauto].
Qed.

Lemma dict_set_fresh {V} (k : str) (v : V) (d : list (str * V)) :
  ~ In k (map fst d) -> dict_set k v d = d ++ [(k, v)].
Proof.
  induction d as [|[k' v'] d IH]; simpl; intros F; [reflexivity |].
  destruct (str_eqb k' k) eqn:E.
  - apply str_eqb_spec in E. tauto.
  - rewrite IH; [reflexivity | tauto].
Qed.

Lemma dict_get_In {V} (k : str) (v : V) (d : list (str * V)) :
  NoDup (map fst d) -> In (k, v) d -> dict_get k d = Some v.
Proof.
  induction d as [|[k' v'] d IH]; simpl; intros N H; [contradiction |].
  inversion N as [|x l N1 N2]; subst.
  destruct H as [H | H].
  - inversion H; subst. now rewrite str_eqb_refl.
  - destruct (str_eqb k' k) eqn:E.
    + apply str_eqb_spec in E. subst k'. exfalso. apply N1.
      apply in_map_iff. now exists (k, v).
    + now apply IH.
Qed.

Section ColumnMap.
Variable excel_columns : list str.

Lemma column_map_fold (rules done : list (str * list str))
      (column_map : list (str * str)) :
  NoDup (map fst (done ++ rules)) ->
  NoDup (map fst column_map) ->
  NoDup (map snd column_map) ->
  (forall col field,
      In (col, field) column_map ->
      In col excel_columns /\ col <> []
      /\ exists names,
          In (field, names) done
          /\ _find_best_column_match excel_columns names = Some col) ->
  let result :=
    fold_left
      (fun column_map rule =>
         match _find_best_column_match excel_columns (snd rule) with
         | Some (c :: s) => dict_set (c :: s) (fst rule) column_map
         | _ => column_map
         end) rules column_map in
  NoDup (map fst result)
  /\ NoDup (map snd result)
  /\ forall col field,
      In (col, field) result ->
      In col excel_columns /\ col <> []
      /\ exists names,
          In (field, names) (done ++ rules)
          /\ _find_best_column_match excel_columns names = Some col.
Proof.
  revert done column_map.
  induction rules as [|[field names] rules IH]; intros done column_map ND NK NV I.
  - simpl. rewrite app_nil_r. split; [exact NK | split; [exact NV | exact I]].
  - cbn [fold_left fst snd].
    replace (done ++ (field, names) :: rules)
      with ((done ++ [(field, names)]) ++ rules) in * by now rewrite <- app_assoc.
    apply IH; [exact ND | | |].
    + destruct (_find_best_column_match excel_columns names) as [[|c s]|];
        try exact NK.
      rewrite dict_set_keys.
      destruct (mem_str (c :: s) (map fst column_map)) eqn:E; [exact NK |].
      apply mem_str_false in E.
      apply NoDup_app; [exact NK | constructor; [intros [] | constructor] |].
      intros x Hx [<- | []]. contradiction.
    + destruct (_find_best_column_match excel_columns names) as [[|c s]|];
        try exact NV.
      apply dict_set_values; [exact NV |].
      intros H. apply in_map_iff in H as ([col f] & Hf & Hi). simpl in Hf. subst f.
      destruct (I col field Hi) as (_ & _ & names' & Hd & _).
      rewrite map_app, map_app in ND. apply NoDup_app_remove_r in ND.
      apply NoDup_remove_2 in ND. rewrite app_nil_r in ND. apply ND.
      apply in_map_iff. now exists (field, names').
    + intros col f H.
      assert (Old : In (col, f) column_map ->
                    In col excel_columns /\ col <> [] /\
                    exists names0,
                      In (f, names0) (done ++ [(field, names)])
                      /\ _find_best_column_match excel_columns names0 = Some col).
      { intros Hi. destruct (I col f Hi) as (A & B & n & Hn & M).
        split; [exact A |]. split; [exact B |].
        exists n. split; [apply in_or_app; now left | exact M]. }
      destruct (_find_best_column_match excel_columns names) as [[|c s]|] eqn:M;
        try (now apply Old).
      apply dict_set_In in H as [H | H]; [| now apply Old].
      inversion H; subst.
      split; [eapply best_column_match_in_sheet; exact M |].
      split; [discriminate |].
      exists names. split; [apply in_or_app; right; now left | exact M].
Qed.

End ColumnMap.

Lemma mapping_rules_fields (mapping : ExcelColumnMapping) :
  map fst (mapping_rules mapping)
  = [ F.policy_number; F.insured_name; F.sum_insured; F.premium;
      F.own_retention_ppn; F.own_retention_sum_insured; F.own_retention_premium;
      F.treaty_ppn; F.treaty_sum_insured; F.treaty_premium;
      F.period_of_insurance; F.insurance_period_start_date;
      F.insurance_period_end_date ].
Proof. reflexivity. Qed.

Lemma mapping_rules_distinct (mapping : ExcelColumnMapping) :
  NoDup (map fst (mapping_rules mapping)).
Proof.
  rewrite mapping_rules_fields.
  repeat (apply NoDup_cons; [apply mem_str_false; vm_compute; reflexivity |]).
  apply NoDup_nil.
Qed.

Lemma column_map_facts (excel_columns : list str) (mapping : ExcelColumnMapping) :
  let column_map := _create_column_mapping excel_columns mapping in
  NoDup (map fst column_map)
  /\ NoDup (map snd column_map)
  /\ forall col field,
      In (col, field) column_map ->
      In col excel_columns /\ col <> []
      /\ exists names,
          In (field, names) (mapping_rules mapping)
          /\ _find_best_column_match excel_columns names = Some col.
Proof.
  unfold _create_column_mapping.
  apply (@column_map_fold excel_columns (mapping_rules mapping) [] []).
  - apply mapping_rules_distinct.
  - constructor.
  - constructor.
  - intros col field [].
Qed.


(** ** Sheets that carry the configured column names *)

Lemma exact_match_first (excel_columns : list str) (name : str) (rest : list str) :
  In (upper name) excel_columns ->
  _find_best_column_match excel_columns (name :: rest) = Some (upper name).
Proof.
  intros H. simpl. apply mem_str_In in H. now rewrite H.
Qed.

Lemma fold_exact_matches (excel_columns : list str)
      (rules : list (str * list str)) (names : list str) :
  Forall2 (fun rule name =>
             upper name <> [] /\ In (upper name) excel_columns
             /\ exists rest, snd rule = name :: rest) rules names ->
  forall column_map : list (str * str),
    NoDup (map fst column_map ++ map upper names) ->
    fold_left
      (fun column_map rule =>
         match _find_best_column_match excel_columns (snd rule) with
         | Some (c :: s) => dict_set (c :: s) (fst rule) column_map
         | _ => column_map
         end) rules column_map
    = column_map ++ combine (map upper names) (map fst rules).
Proof.
  induction 1 as [|[field aliases] name rules names (N & I & rest & E) F2 IH];
    intros column_map ND.
  - simpl. now rewrite app_nil_r.
  - cbn [fold_left fst snd map combine]. simpl in E. subst aliases.
    rewrite (@exact_match_first excel_columns name rest I).
    cbn [map] in ND.
    destruct (upper name) as [|c s] eqn:U; [contradiction |].
    rewrite dict_set_fresh by (apply NoDup_remove_2 in ND; intros X; apply ND;
                               apply in_or_app; now left).
    rewrite IH.
    + now rewrite <- app_assoc.
    + rewrite map_app, <- app_assoc. exact ND.
Qed.

(** X7.  Take any column mapping without separate date columns whose
    eleven column names are, in upper case, pairwise distinct, not
    empty, and columns of the sheet.  Then [_create_column_mapping]
    maps each of these columns to its own field, whatever other columns
    the sheet has, and [_validate_required_columns] misses nothing. *)
Theorem configured_columns_are_mapped
        (excel_columns : list str) (mapping : ExcelColumnMapping) :
  start_date_col mapping = None ->
  end_date_col mapping = None ->
  NoDup (map upper (configured_names mapping)) ->
  (forall name, In name (configured_names mapping) ->
                upper name <> [] /\ In (upper name) excel_columns) ->
  _create_column_mapping excel_columns mapping
  = combine (map upper (configured_names mapping)) configured_fields
  /\ _validate_required_columns (_create_column_mapping excel_columns mapping) = [].
Proof.
  intros HS HE ND HI.
  assert (E : _create_column_mapping excel_columns mapping
              = combine (map upper (configured_names mapping)) configured_fields).
  { unfold _create_column_mapping, mapping_rules. rewrite HS, HE.
    match goal with
    | |- fold_left ?f [?r1; ?r2; ?r3; ?r4; ?r5; ?r6; ?r7; ?r8; ?r9; ?r10; ?r11;
                       ?r12; ?r13] [] = _ =>
        change (fold_left f ([r1; r2; r3; r4; r5; r6; r7; r8; r9; r10; r11]
                             ++ [r12; r13]) [] = 
                combine (map upper (configured_names mapping)) configured_fields)
    end.
    rewrite fold_left_app.
    match goal with
    | |- fold_left _ _ (fold_left ?f ?l []) = _ =>
        rewrite (@fold_exact_matches excel_columns l (configured_names mapping))
    end.
    - reflexivity.
    - unfold configured_names.
      repeat (constructor;
              [split; [apply HI; simpl; tauto |];
               split; [apply HI; simpl; tauto |];
               eexists; reflexivity |]).
      constructor.
    - exact ND. }
  split; [exact E |]. rewrite E. reflexivity.
Qed.

Lemma configured_columns_are_mapped_witness :
  _validate_required_columns
    (_create_column_mapping (columns (normalize_columns one_row)) default_mapping)
  = [].
Proof.
  apply (@configured_columns_are_mapped
           (columns (normalize_columns one_row)) default_mapping).
  - reflexivity.
  - reflexivity.
  - repeat (apply NoDup_cons; [apply mem_str_false; vm_compute; reflexivity |]).
    apply NoDup_nil.
  - intros name H.
    repeat (destruct H as [<- | H];
            [split; [vm_compute; discriminate
                    | apply mem_str_In; vm_compute; reflexivity] |]).
    destruct H.
Defined.


(* ================================================================== *)
(** * The period column *)
(* ================================================================== *)

Lemma strptime_date (s : str) (fmt : list directive) (d : date) :
  strptime s fmt = Some d -> valid_date (year d) (month d) (day d) = true.
Proof.
  unfold strptime.
  destruct (re_match (regex_of_format fmt) s) as [[[|c rest] caps]|];
    try discriminate.
  destruct (assign_fields fmt caps (1900, 1, 1)) as [[y m] dd].
  destruct (valid_date y m dd) eqn:V; [| discriminate].
  intros H. inversion H; subst. exact V.
Qed.

Lemma first_some_found {A B} (f : A -> option B) (l : list A) (y : B) :
  first_some f l = Some y -> exists x, In x l /\ f x = Some y.
Proof.
  induction l as [|a l IH]; simpl; [discriminate |].
  destruct (f a) as [fa|] eqn:E.
  - intros H. inversion H; subst. exists a. split; [now left | exact E].
  - intros H. destruct (IH H) as (x & I & F). exists x. split; [now right | exact F].
Qed.

Lemma parse_single_date_exists (s : str) (d : date) :
  _parse_single_date s = Some d -> valid_date (year d) (month d) (day d) = true.
Proof.
  unfold _parse_single_date. intros H.
  apply first_some_found in H as (fmt & _ & H). eapply strptime_date, H.
Qed.

Lemma parsed_period_is_two_dates (period_str : str) (start_date end_date : date) :
  _parse_insurance_period period_str = Ok (start_date, end_date) ->
  valid_date (year start_date) (month start_date) (day start_date) = true
  /\ valid_date (year end_date) (month end_date) (day end_date) = true.
Proof.
  unfold _parse_insurance_period.
  destruct (first_some (try_pattern (strip period_str)) date_patterns)
    as [[a b]|] eqn:E; [| discriminate].
  intros H. inversion H; subst. clear H.
  apply first_some_found in E as (pattern & _ & E).
  unfold try_pattern in E.
  destruct (re_search pattern (strip period_str)) as [[|s1 [|s2 [|s3 caps]]]|];
    try discriminate.
  destruct (_parse_single_date s1) as [d1|] eqn:E1; [| discriminate].
  destruct (_parse_single_date s2) as [d2|] eqn:E2; [| discriminate].
  inversion E; subst.
  split; eapply parse_single_date_exists; eassumption.
Qed.

Lemma period_of_row_dates (ir : nat * row) :
  let dates := fst (period_of_row ir) in
  valid_date (year (fst dates)) (month (fst dates)) (day (fst dates)) = true
  /\ valid_date (year (snd dates)) (month (snd dates)) (day (snd dates)) = true.
Proof.
  unfold period_of_row.
  destruct (_parse_insurance_period _) as [[a b]|e] eqn:E; simpl.
  - eapply parsed_period_is_two_dates, E.
  - split; reflexivity.
Qed.

(** ** Cells of a row *)

Lemma lookup_In (k : str) (r : row) : lookup k r <> None <-> In k (map fst r).
Proof.
  induction r as [|[k' v] r IH]; simpl; [tauto |].
  destruct (str_eqb k' k) eqn:E.
  - apply str_eqb_spec in E. split; [now left | discriminate].
  - rewrite IH. split; [now right |].
    intros [H | H]; [| exact H].
    subst. now rewrite str_eqb_refl in E.
Qed.

Lemma lookup_app (k : str) (r r' : row) :
  lookup k (r ++ r') = match lookup k r with
                       | Some v => Some v
                       | None => lookup k r'
                       end.
Proof.
  induction r as [|[k' v] r IH]; simpl; [reflexivity |].
  now destruct (str_eqb k' k).
Qed.

Lemma lookup_assign_cell_same (k : str) (v : pyval) (r : row) :
  lookup k (assign_cell k v r) = Some v.
Proof.
  unfold assign_cell. destruct (lookup k r) eqn:E.
  - now rewrite lookup_set_cell_same, E.
  - rewrite lookup_app, E. simpl. now rewrite str_eqb_refl.
Qed.

Lemma lookup_assign_cell_other (k k' : str) (v : pyval) (r : row) :
  k <> k' -> lookup k' (assign_cell k v r) = lookup k' r.
Proof.
  intros N. unfold assign_cell. destruct (lookup k r).
  - now apply lookup_set_cell_other.
  - rewrite lookup_app. destruct (lookup k' r); [reflexivity |].
    simpl. destruct (str_eqb k k') eqn:E; [| reflexivity].
    apply str_eqb_spec in E. contradiction.
Qed.

Lemma lookup_without_same (k : str) (r : row) :
  lookup k (filter (fun kv => negb (str_eqb (fst kv) k)) r) = None.
Proof.
  induction r as [|[k' v] r IH]; simpl; [reflexivity |].
  destruct (str_eqb k' k) eqn:E; simpl; [exact IH | now rewrite E].
Qed.

Lemma lookup_without_other (k k' : str) (r : row) :
  k <> k' ->
  lookup k' (filter (fun kv => negb (str_eqb (fst kv) k)) r) = lookup k' r.
Proof.
  intros N. induction r as [|[k0 v] r IH]; simpl; [reflexivity |].
  destruct (str_eqb k0 k) eqn:E; simpl.
  - apply str_eqb_spec in E. subst k0.
    destruct (str_eqb k k') eqn:E'; [| exact IH].
    apply str_eqb_spec in E'. contradiction.
  - now rewrite IH.
Qed.

Lemma combine_maps {A B C} (f : A -> B) (g : A -> C) (l : list A) :
  combine (map f l) (map g l) = map (fun x => (f x, g x)) l.
Proof. induction l as [|a l IH]; simpl; [reflexivity | now rewrite IH]. Qed.

Lemma assign_column_has (k : str) (values : list pyval) (df : frame) :
  has_column (assign_column k values df) k = true.
Proof.
  unfold has_column at 1, assign_column. cbn [columns].
  destruct (has_column df k) eqn:E; [exact E |].
  apply mem_str_In, in_or_app. right. left. reflexivity.
Qed.

Lemma assign_column_keeps (k k' : str) (values : list pyval) (df : frame) :
  has_column df k' = true -> has_column (assign_column k values df) k' = true.
Proof.
  intros H. unfold has_column at 1, assign_column. cbn [columns].
  destruct (has_column df k); [exact H |].
  apply mem_str_In, in_or_app. left. apply mem_str_In. exact H.
Qed.

Lemma drop_column_keeps (k k' : str) (df : frame) :
  k' <> k -> has_column df k' = true -> has_column (drop_column k df) k' = true.
Proof.
  intros N H. unfold has_column, drop_column. cbn [columns].
  apply mem_str_In, filter_In. split; [apply mem_str_In; exact H |].
  destruct (str_eqb k' k) eqn:E; [| reflexivity].
  apply str_eqb_spec in E. contradiction.
Qed.

Lemma drop_column_removes (k : str) (df : frame) :
  has_column (drop_column k df) k = false.
Proof.
  unfold has_column, drop_column. cbn [columns].
  apply mem_str_false. intros I. apply filter_In in I as [_ I].
  rewrite str_eqb_refl in I. discriminate I.
Qed.

Lemma Forall2_map_self {A B} (R : A -> B -> Prop) (f : A -> B) (l : list A) :
  (forall x, In x l -> R x (f x)) -> Forall2 R l (map f l).
Proof.
  induction l as [|a l IH]; intros H; simpl; constructor.
  - apply H. now left.
  - apply IH. intros x Hx. apply H. now right.
Qed.

Lemma different_labels (a b : str) : str_eqb a b = false -> a <> b.
Proof. intros E ->. now rewrite str_eqb_refl in E. Qed.

(** ** The two date columns *)

Lemma combine_map_r {A B C} (g : B -> C) (l : list A) (d : list B) :
  combine l (map g d) = map (fun p => (fst p, g (snd p))) (combine l d).
Proof.
  revert d. induction l as [|a l IH]; intros [|b d]; simpl; try reflexivity.
  now rewrite IH.
Qed.

Lemma combine_map_combine {A B C D} (f : A * B -> C) (g : B -> D)
      (l : list A) (d : list B) :
  combine (map f (combine l d)) (map g d)
  = map (fun p => (f p, g (snd p))) (combine l d).
Proof.
  revert d. induction l as [|a l IH]; intros [|b d]; simpl; try reflexivity.
  now rewrite IH.
Qed.

Lemma combine_self {A B} (f : A -> B) (l : list A) :
  combine l (map f l) = map (fun a => (a, f a)) l.
Proof. induction l as [|a l IH]; simpl; [reflexivity | now rewrite IH]. Qed.

(** The cells of a row that has received its two dates. *)
Lemma dated_cells (d : date * date) (r : row) :
  lookup F.period_of_insurance (dated d r) = None
  /\ (forall field,
         field <> F.period_of_insurance ->
         field <> F.insurance_period_start_date ->
         field <> F.insurance_period_end_date ->
         lookup field (dated d r) = lookup field r)
  /\ lookup F.insurance_period_start_date (dated d r) = Some (VDate (fst d))
  /\ lookup F.insurance_period_end_date (dated d r) = Some (VDate (snd d)).
Proof.
  assert (SP : F.insurance_period_start_date <> F.period_of_insurance)
    by (apply different_labels; vm_compute; reflexivity).
  assert (EP : F.insurance_period_end_date <> F.period_of_insurance)
    by (apply different_labels; vm_compute; reflexivity).
  assert (ES : F.insurance_period_end_date <> F.insurance_period_start_date)
    by (apply different_labels; vm_compute; reflexivity).
  unfold dated. split; [apply lookup_without_same |]. split; [| split].
  - intros field NP NS NE.
    rewrite lookup_without_other, !lookup_assign_cell_other by congruence.
    reflexivity.
  - rewrite lookup_without_other, lookup_assign_cell_other by congruence.
    apply lookup_assign_cell_same.
  - rewrite lookup_without_other by congruence.
    apply lookup_assign_cell_same.
Qed.

(** The end of [_transform_period_column] wants one pair of dates for
    each row, and gives each row its pair. *)
Lemma set_period_dates_cases (dates : list (date * date)) (df : frame) :
  set_period_dates dates df
  = if Nat.eqb (List.length dates) (List.length (rows df)) then
      Ok {| columns := columns (drop_column F.period_of_insurance
                         (assign_column F.insurance_period_end_date []
                            (assign_column F.insurance_period_start_date [] df)));
            rows := map (fun ird => (fst (fst ird), dated (snd ird) (snd (fst ird))))
                        (combine (rows df) dates) |}
    else Raise (ValueError (LengthMismatch (List.length dates)
                                           (List.length (rows df)))).
Proof.
  unfold set_period_dates.
  destruct (Nat.eqb (List.length dates) (List.length (rows df))); [| reflexivity].
  f_equal. unfold drop_column, assign_column, dated. cbn [rows columns]. f_equal.
  rewrite (combine_map_r _ (rows df)), (map_map _ _ (combine (rows df) dates)).
  rewrite combine_map_combine, !map_map.
  apply map_ext. intros [[idx r] [a b]]. reflexivity.
Qed.

Lemma set_period_dates_columns (dates : list (date * date)) (df df' : frame) :
  set_period_dates dates df = Ok df' ->
  has_column df' F.period_of_insurance = false
  /\ has_column df' F.insurance_period_start_date = true
  /\ has_column df' F.insurance_period_end_date = true
  /\ forall field,
      field <> F.period_of_insurance ->
      has_column df field = true -> has_column df' field = true.
Proof.
  assert (SP : F.insurance_period_start_date <> F.period_of_insurance)
    by (apply different_labels; vm_compute; reflexivity).
  assert (EP : F.insurance_period_end_date <> F.period_of_insurance)
    by (apply different_labels; vm_compute; reflexivity).
  unfold set_period_dates.
  destruct (Nat.eqb (List.length dates) (List.length (rows df))); [| discriminate].
  intros H. inversion H; subst. clear H.
  split; [apply drop_column_removes |]. split; [| split].
  - apply drop_column_keeps; [exact SP |].
    apply assign_column_keeps, assign_column_has.
  - apply drop_column_keeps; [exact EP |]. apply assign_column_has.
  - intros field N C. apply drop_column_keeps; [exact N |].
    apply assign_column_keeps, assign_column_keeps. exact C.
Qed.

(** ** A loop that stops at the first turn that raises *)

Lemma res_all_ok {A B} (f : A -> res B) (l : list A) (bs : list B) :
  res_all f l = Ok bs -> Forall2 (fun a b => f a = Ok b) l bs.
Proof.
  revert bs. induction l as [|a l IH]; intros bs; simpl.
  - intros H. inversion H. constructor.
  - destruct (f a) as [b|e] eqn:E; cbn [res_bind]; [| discriminate].
    destruct (res_all f l) as [bs'|e]; cbn [res_bind]; [| discriminate].
    intros H. inversion H; subst. constructor; [exact E | now apply IH].
Qed.

Lemma res_all_raise {A B} (f : A -> res B) (l : list A) (e : exn) :
  res_all f l = Raise e -> exists a, In a l /\ f a = Raise e.
Proof.
  induction l as [|a l IH]; simpl; [discriminate |].
  destruct (f a) as [b|e'] eqn:E; cbn [res_bind].
  - destruct (res_all f l) as [bs'|e']; cbn [res_bind]; [discriminate |].
    intros H. inversion H; subst. destruct (IH eq_refl) as (x & I & X).
    exists x. split; [now right | exact X].
  - intros H. inversion H; subst. exists a. split; [now left | exact E].
Qed.

Lemma columns_of_length (k : str) (df : frame) :
  List.length (columns_of k df) = occurrences k (columns df).
Proof. unfold columns_of. now rewrite length_map, length_seq. Qed.

(** ** [_transform_period_column] *)

(** When one column carries the label, the rows are read one by one
    and nothing raises. *)
Lemma transform_period_rows (series_text : list (nat * pyval) -> str) (df : frame) :
  has_column df F.period_of_insurance = true ->
  duplicated df F.period_of_insurance = false ->
  exists df',
    _transform_period_column series_text df
    = Ok (df', flat_map (fun ir => snd (period_of_row ir)) (rows df))
    /\ set_period_dates (map (fun ir => fst (period_of_row ir)) (rows df)) df = Ok df'
    /\ rows df' = map (fun ir => (fst ir, dated (fst (period_of_row ir)) (snd ir)))
                      (rows df).
Proof.
  intros H D. unfold _transform_period_column. rewrite H, D. cbn [negb].
  rewrite map_map, set_period_dates_cases, length_map, Nat.eqb_refl.
  cbn [res_bind]. eexists. split; [| split; [reflexivity |]].
  - now rewrite flat_map_concat_map, map_map.
  - cbn [rows]. rewrite combine_self, map_map. reflexivity.
Qed.

(** When several columns carry the label, the columns are read one by
    one: a text that does not parse raises, and so does a number of
    columns that is not the number of rows. *)
Lemma transform_period_columns (series_text : list (nat * pyval) -> str) (df : frame) :
  duplicated df F.period_of_insurance = true ->
  match _transform_period_column series_text df with
  | Ok result =>
      exists dates,
        Forall2 (fun column d => _parse_insurance_period (series_text column) = Ok d)
                (columns_of F.period_of_insurance df) dates
        /\ set_period_dates dates df = Ok (fst result)
        /\ snd result = []
  | Raise e =>
      (e = TypeError StrPlusInt
       /\ exists column e',
           In column (columns_of F.period_of_insurance df)
           /\ _parse_insurance_period (series_text column) = Raise e')
      \/ (e = ValueError (LengthMismatch (occurrences F.period_of_insurance (columns df))
                                         (List.length (rows df)))
          /\ occurrences F.period_of_insurance (columns df) <> List.length (rows df))
  end.
Proof.
  intros D. unfold _transform_period_column.
  rewrite (duplicated_has_column _ _ D), D. cbn [negb].
  destruct (res_all (period_of_column series_text)
                    (columns_of F.period_of_insurance df)) as [dates|e] eqn:R;
    cbn [res_bind].
  - pose proof (res_all_ok _ _ R) as F2.
    assert (L : List.length dates = occurrences F.period_of_insurance (columns df)).
    { rewrite <- (Forall2_length F2). apply columns_of_length. }
    assert (P : Forall2 (fun column d =>
                           _parse_insurance_period (series_text column) = Ok d)
                        (columns_of F.period_of_insurance df) dates).
    { eapply Forall2_impl; [| exact F2]. intros column d. unfold period_of_column.
      destruct (_parse_insurance_period (series_text column)); [tauto | discriminate]. }
    destruct (set_period_dates dates df) as [df'|e] eqn:S; cbn [res_bind].
    + exists dates. split; [exact P |]. split; [exact S | reflexivity].
    + right. rewrite set_period_dates_cases in S.
      destruct (Nat.eqb (List.length dates) (List.length (rows df))) eqn:N;
        [discriminate |].
      apply Nat.eqb_neq in N. rewrite L in N, S. inversion S. now split.
  - left. apply res_all_raise in R as (column & I & R).
    unfold period_of_column in R.
    destruct (_parse_insurance_period (series_text column)) as [d|e'] eqn:P;
      [discriminate |].
    inversion R. split; [reflexivity |]. now exists column, e'.
Qed.

(** Whichever way it went, a frame [_transform_period_column] returns
    has received one pair of calendar dates for each row. *)
Lemma transform_period_dates (series_text : list (nat * pyval) -> str)
      (df : frame) (result : frame * list ExcelValidationError) :
  has_column df F.period_of_insurance = true ->
  _transform_period_column series_text df = Ok result ->
  exists dates,
    set_period_dates dates df = Ok (fst result)
    /\ Forall (fun d => valid_date (year (fst d)) (month (fst d)) (day (fst d)) = true
                        /\ valid_date (year (snd d)) (month (snd d)) (day (snd d))
                           = true)
              dates.
Proof.
  intros H R. destruct (duplicated df F.period_of_insurance) eqn:D.
  - pose proof (transform_period_columns series_text df D) as C.
    rewrite R in C. destruct C as (dates & P & S & _).
    exists dates. split; [exact S |].
    clear S. induction P as [|column [a b] columns dates P _ IH]; constructor.
    + eapply parsed_period_is_two_dates, P.
    + exact IH.
  - destruct (transform_period_rows series_text df H D) as (df' & E & S & _).
    rewrite E in R. inversion R; subst. cbn [fst].
    eexists. split; [exact S |].
    apply Forall_forall. intros d Hd. apply in_map_iff in Hd as (ir & <- & _).
    apply period_of_row_dates.
Qed.

(** X9.  On a frame in which one column carries the period label,
    [_transform_period_column] returns.  It keeps the rows and their
    index labels, removes the period cell of each row and leaves the
    other cells alone, and writes two dates in each row: those parsed
    from the period text of that row, or 2024-01-01 and 2024-12-31 when
    the text does not parse.  Its errors are, in the order of the rows,
    one error for each row whose text does not parse, of kind
    "invalid_date_format" on the period column, with the sheet row and
    the text.  When several columns carry the label, it reads the
    columns instead of the rows: it raises a [TypeError] when the text
    of one of these columns does not parse, and a [ValueError] when
    there are not as many rows as such columns; otherwise row number i
    receives the dates parsed from the text of column number i, and no
    error is recorded. *)
Theorem period_column_becomes_two_dates
        (series_text : list (nat * pyval) -> str) (df : frame) :
  has_column df F.period_of_insurance = true ->
  (duplicated df F.period_of_insurance = false ->
   exists result,
     _transform_period_column series_text df = Ok result
     /\ Forall2
          (fun before after =>
             fst after = fst before
             /\ lookup F.period_of_insurance (snd after) = None
             /\ (forall field,
                    field <> F.period_of_insurance ->
                    field <> F.insurance_period_start_date ->
                    field <> F.insurance_period_end_date ->
                    lookup field (snd after) = lookup field (snd before))
             /\ match _parse_insurance_period
                        (str_of_val (cell F.period_of_insurance (snd before))) with
                | Ok (start_date, end_date) =>
                    lookup F.insurance_period_start_date (snd after)
                    = Some (VDate start_date)
                    /\ lookup F.insurance_period_end_date (snd after)
                       = Some (VDate end_date)
                | Raise _ =>
                    lookup F.insurance_period_start_date (snd after)
                    = Some (VDate (mk_date 2024 1 1))
                    /\ lookup F.insurance_period_end_date (snd after)
                       = Some (VDate (mk_date 2024 12 31))
                end)
          (rows df) (rows (fst result))
     /\ snd result
        = flat_map
            (fun ir =>
               let period_value := str_of_val (cell F.period_of_insurance (snd ir)) in
               match _parse_insurance_period period_value with
               | Ok _ => []
               | Raise e =>
                   [ {| row_number := fst ir + 2;
                        column_name := F.period_of_insurance;
                        error_type := lit "invalid_date_format";
                        error_message := CannotParseDateRange (str_of_exn e);
                        raw_value := Some period_value |} ]
               end)
            (rows df)
     /\ has_column (fst result) F.period_of_insurance = false
     /\ has_column (fst result) F.insurance_period_start_date = true
     /\ has_column (fst result) F.insurance_period_end_date = true)
  /\ (duplicated df F.period_of_insurance = true ->
      match _transform_period_column series_text df with
      | Ok result =>
          exists dates,
            Forall2 (fun column d =>
                       _parse_insurance_period (series_text column) = Ok d)
                    (columns_of F.period_of_insurance df) dates
            /\ List.length (rows df) = occurrences F.period_of_insurance (columns df)
            /\ Forall2
                 (fun before after =>
                    fst after = fst (fst before)
                    /\ lookup F.insurance_period_start_date (snd after)
                       = Some (VDate (fst (snd before)))
                    /\ lookup F.insurance_period_end_date (snd after)
                       = Some (VDate (snd (snd before))))
                 (combine (rows df) dates) (rows (fst result))
            /\ snd result = []
      | Raise e =>
          (e = TypeError StrPlusInt
           /\ exists column e',
               In column (columns_of F.period_of_insurance df)
               /\ _parse_insurance_period (series_text column) = Raise e')
          \/ (e = ValueError
                    (LengthMismatch (occurrences F.period_of_insurance (columns df))
                                    (List.length (rows df)))
              /\ occurrences F.period_of_insurance (columns df)
                 <> List.length (rows df))
      end).
Proof.
  intros H. split.
  - intros D.
    destruct (transform_period_rows series_text df H D) as (df' & E & S & R).
    eexists. split; [exact E |]. cbn [fst snd].
    destruct (set_period_dates_columns _ _ S) as (C1 & C2 & C3 & _).
    split; [| split; [| split; [exact C1 | split; [exact C2 | exact C3]]]].
    + rewrite R. apply Forall2_map_self. intros [idx r] _. cbn [fst snd].
      destruct (dated_cells (fst (period_of_row (idx, r))) r) as (G1 & G2 & G3 & G4).
      split; [reflexivity |]. split; [exact G1 |]. split; [exact G2 |].
      unfold period_of_row in G3, G4 |- *. cbn [fst snd] in G3, G4 |- *.
      destruct (_parse_insurance_period _) as [[a b]|e]; cbn [fst snd] in G3, G4;
        split; assumption.
    + apply flat_map_ext. intros [idx r]. unfold period_of_row. cbn [fst snd].
      destruct (_parse_insurance_period _) as [[a b]|e]; reflexivity.
  - intros D. pose proof (transform_period_columns series_text df D) as C.
    destruct (_transform_period_column series_text df) as [result|e]; [| exact C].
    destruct C as (dates & P & S & N). exists dates.
    assert (L : List.length dates = occurrences F.period_of_insurance (columns df)).
    { rewrite <- (Forall2_length P). apply columns_of_length. }
    rewrite set_period_dates_cases in S.
    destruct (Nat.eqb (List.length dates) (List.length (rows df))) eqn:Q;
      [| discriminate].
    apply Nat.eqb_eq in Q. inversion S as [S'].
    split; [exact P |]. split; [congruence |]. split; [| exact N].
    cbn [rows]. apply Forall2_map_self. intros [[idx r] d] _. cbn [fst snd].
    destruct (dated_cells d r) as (_ & _ & G3 & G4).
    split; [reflexivity |]. split; assumption.
Qed.

Lemma period_column_becomes_two_dates_witness :
  exists result,
    _transform_period_column values_only (renamed one_row) = Ok result
    /\ has_column (fst result) F.period_of_insurance = false.
Proof.
  destruct (proj1 (@period_column_becomes_two_dates values_only
                     (renamed one_row) eq_refl)
                  eq_refl)
    as (result & E & _ & _ & C & _).
  exists result. split; [exact E | exact C].
Defined.


(* ================================================================== *)
(** * No row is dropped *)
(* ================================================================== *)

Lemma relabel_as_read (f : str -> str) (df : frame) :
  as_read df -> as_read (relabel f df).
Proof.
  unfold as_read, relabel. cbn [rows columns]. intros H.
  apply Forall_forall. intros ir Hir.
  apply in_map_iff in Hir as (ir0 & <- & H0).
  rewrite Forall_forall in H. specialize (H ir0 H0).
  cbn [snd]. rewrite map_map. cbn [fst].
  rewrite <- H, map_map. reflexivity.
Qed.

Lemma fold_keeps_index (step : nat * row -> str -> nat * row) :
  (forall ir f, fst (step ir f) = fst ir) ->
  forall fields ir, fst (fold_left step fields ir) = fst ir.
Proof.
  intros S. induction fields as [|f fields IH]; intros ir; simpl; [reflexivity |].
  now rewrite IH, S.
Qed.

Lemma clean_row_index (cols : list str) (ir : nat * row) :
  fst (clean_row cols ir) = fst ir.
Proof.
  rewrite clean_row_unfold.
  rewrite fold_keeps_index.
  - apply fold_keeps_index. intros x f. unfold clean_string_in_row.
    now destruct (mem_str f cols).
  - intros x f. unfold clean_number_in_row. now destruct (mem_str f cols).
Qed.

Lemma clean_string_in_row_same (cols : list str) (ir : nat * row) (f : str) :
  mem_str f cols = true -> lookup f (snd ir) <> None ->
  exists s, lookup f (snd (clean_string_in_row cols ir f)) = Some (VStr s).
Proof.
  intros C L. unfold clean_string_in_row. rewrite C. cbn [snd].
  rewrite lookup_set_cell_same.
  destruct (lookup f (snd ir)); [| contradiction].
  unfold clean_string_cell. eexists. reflexivity.
Qed.

(** After the cleaning, the identity cells of a row that has them are
    texts. *)
Lemma clean_row_identity (cols : list str) (ir : nat * row) :
  (forall field, In field string_fields ->
                 mem_str field cols = true /\ lookup field (snd ir) <> None) ->
  identity_is_text (clean_row cols ir).
Proof.
  intros H field Hf. rewrite clean_row_unfold.
  assert (Nn : ~ In field numeric_fields).
  { apply mem_str_false.
    destruct Hf as [<- | [<- | []]]; vm_compute; reflexivity. }
  destruct (@fold_leaves_cell (clean_number_in_row cols) field
              (@clean_number_in_row_other cols field) numeric_fields
              (fold_left (clean_string_in_row cols) string_fields ir) Nn) as [L _].
  rewrite L. clear L.
  assert (D : F.insured_name <> F.policy_number)
    by (apply different_labels; vm_compute; reflexivity).
  unfold string_fields at 1. cbn [fold_left].
  destruct (H F.policy_number) as [C1 L1]; [left; reflexivity |].
  destruct (H F.insured_name) as [C2 L2]; [right; left; reflexivity |].
  destruct Hf as [<- | [<- | []]].
  - destruct (@clean_string_in_row_other cols F.policy_number
                (clean_string_in_row cols ir F.policy_number) F.insured_name D)
      as [E _].
    rewrite E. apply clean_string_in_row_same; assumption.
  - apply clean_string_in_row_same; [exact C2 |].
    destruct (@clean_string_in_row_other cols F.insured_name ir F.policy_number)
      as [E _]; [congruence |].
    rewrite E. exact L2.
Qed.

Lemma filter_all {A} (f : A -> bool) (l : list A) :
  (forall x, In x l -> f x = true) -> filter f l = l.
Proof.
  induction l as [|a l IH]; intros H; simpl; [reflexivity |].
  rewrite (H a) by now left.
  rewrite IH; [reflexivity |]. intros x Hx. apply H. now right.
Qed.

(** [dropna] on a frame whose identity cells are texts. *)
Lemma dropna_keeps_texts (df : frame) :
  (forall field, In field string_fields -> has_column df field = true) ->
  Forall identity_is_text (rows df) ->
  dropna [F.policy_number; F.insured_name] df = Ok df.
Proof.
  intros C T. unfold dropna.
  cbn [filter]. rewrite !C by (simpl; tauto). cbn [negb].
  rewrite filter_all; [now destruct df |].
  intros ir Hir. rewrite Forall_forall in T. specialize (T ir Hir).
  cbn [forallb]. unfold cell.
  destruct (T F.policy_number) as (s1 & ->); [left; reflexivity |].
  destruct (T F.insured_name) as (s2 & ->); [right; left; reflexivity |].
  reflexivity.
Qed.

Lemma fold_keeps_float (cols : list str) (field : str) (fields : list str) :
  forall ir,
    (exists x, lookup field (snd ir) = Some (VFloat x)) ->
    exists x, lookup field (snd (fold_left (clean_number_in_row cols) fields ir))
              = Some (VFloat x).
Proof.
  induction fields as [|f fields IH]; intros ir H; [exact H |].
  cbn [fold_left]. apply IH. destruct H as (x & L).
  unfold clean_number_in_row. destruct (mem_str f cols); [| now exists x].
  cbn [snd]. destruct (str_eqb f field) eqn:E.
  - apply str_eqb_spec in E. subst f. rewrite lookup_set_cell_same, L.
    eexists. reflexivity.
  - rewrite lookup_set_cell_other by (apply different_labels; exact E).
    now exists x.
Qed.

Lemma fold_makes_float (cols : list str) (field : str) (fields : list str) :
  mem_str field cols = true ->
  In field fields ->
  forall ir,
    lookup field (snd ir) <> None ->
    exists x, lookup field (snd (fold_left (clean_number_in_row cols) fields ir))
              = Some (VFloat x).
Proof.
  intros C. induction fields as [|f fields IH]; intros I ir L; [destruct I |].
  cbn [fold_left]. destruct (str_eqb f field) eqn:E.
  - apply str_eqb_spec in E. subst f. apply fold_keeps_float.
    unfold clean_number_in_row. rewrite C. cbn [snd].
    rewrite lookup_set_cell_same.
    destruct (lookup field (snd ir)); [| contradiction].
    eexists. reflexivity.
  - apply different_labels in E.
    destruct I as [I | I]; [contradiction |].
    apply IH; [exact I |].
    destruct (@clean_number_in_row_other cols field ir f E) as [X _].
    rewrite X. exact L.
Qed.

(** After the cleaning, the numeric cells of a row that has them are
    floats. *)
Lemma clean_row_numbers (cols : list str) (ir : nat * row) :
  (forall field, In field numeric_fields ->
                 mem_str field cols = true /\ lookup field (snd ir) <> None) ->
  numbers_are_floats (clean_row cols ir).
Proof.
  intros H field Hf. rewrite clean_row_unfold.
  destruct (H field Hf) as [C L].
  apply fold_makes_float; [exact C | exact Hf |].
  assert (Ns : ~ In field string_fields).
  { apply mem_str_false.
    repeat (destruct Hf as [<- | Hf]; [vm_compute; reflexivity |]). destruct Hf. }
  destruct (@fold_leaves_cell (clean_string_in_row cols) field
              (@clean_string_in_row_other cols field) string_fields ir Ns) as [X _].
  rewrite X. exact L.
Qed.

Lemma map_fst_combine {A B} (l : list A) (d : list B) :
  List.length d = List.length l -> map fst (combine l d) = l.
Proof.
  revert d. induction l as [|a l IH]; intros [|b d] H; simpl in *;
    try reflexivity; try discriminate.
  rewrite IH; [reflexivity | lia].
Qed.

Section ParsedRows.
Variable series_text : list (nat * pyval) -> str.
Variable column_map : list (str * str).
Variable df : frame.
Hypothesis sheet : as_read df.
Hypothesis one_column_per_label : NoDup (map fst column_map).
Hypothesis from_sheet :
  forall col field, In (col, field) column_map -> In col (columns df).
Hypothesis identity_mapped :
  forall field, In field string_fields -> In field (map snd column_map).

Lemma renamed_has_field (field : str) :
  In field (map snd column_map) ->
  has_column (rename column_map df) field = true
  /\ forall ir, In ir (rows (rename column_map df)) -> lookup field (snd ir) <> None.
Proof.
  intros Hf.
  assert (I : In field (columns (rename column_map df))).
  { apply in_map_iff in Hf as ([col f] & E & Hi).
    simpl in E. subst f.
    unfold rename, relabel. cbn [columns]. apply in_map_iff.
    exists col. split; [| eapply from_sheet; exact Hi].
    unfold rename_label.
    rewrite (@dict_get_In str col field column_map one_column_per_label Hi).
    reflexivity. }
  split; [apply mem_str_In; exact I |].
  intros ir Hir.
  pose proof (@relabel_as_read (rename_label column_map) df sheet) as R.
  unfold as_read in R. rewrite Forall_forall in R.
  apply (proj2 (lookup_In field (snd ir))).
  specialize (R ir Hir). cbv beta in R.
  unfold rename in I. rewrite <- R in I. exact I.
Qed.

(** What the cleaning leaves, when it returns: the rows it was given,
    in order, with texts in their identity cells and floats in the
    numeric cells that are mapped. *)
Lemma cleaned_rows :
  let cleaned := fst (cleaned_and_validated (rename column_map df)) in
  map fst (rows cleaned) = map fst (rows df)
  /\ (forall field, In field (map snd column_map) -> has_column cleaned field = true)
  /\ Forall identity_is_text (rows cleaned)
  /\ ((forall field, In field numeric_fields -> In field (map snd column_map)) ->
      Forall numbers_are_floats (rows cleaned)).
Proof.
  cbv zeta. set (df1 := rename column_map df).
  assert (I1 : map fst (rows df1) = map fst (rows df)).
  { unfold df1, rename, relabel. cbn [rows]. rewrite map_map. reflexivity. }
  destruct (clean_and_validate_by_row df1) as (C2 & R2 & _).
  destruct (cleaned_and_validated df1) as [df2 validation_errors].
  cbn [fst snd] in C2, R2 |- *.
  split; [| split; [| split]].
  - rewrite R2, map_map, <- I1. apply map_ext. intros ir. apply clean_row_index.
  - intros field Hf. unfold has_column. rewrite C2.
    apply (@renamed_has_field field Hf).
  - rewrite R2. apply Forall_forall. intros ir Hir.
    apply in_map_iff in Hir as (ir1 & <- & H1).
    apply clean_row_identity. intros field Hf.
    destruct (@renamed_has_field field (identity_mapped Hf)) as [C L].
    split; [exact C | now apply L].
  - intros M. rewrite R2. apply Forall_forall. intros ir Hir.
    apply in_map_iff in Hir as (ir1 & <- & H1).
    apply clean_row_numbers. intros field Hf.
    destruct (@renamed_has_field field (M field Hf)) as [C L].
    split; [exact C | now apply L].
Qed.

(** What the dates change in these rows: nothing but the period and
    the two dates. *)
Lemma dated_rows (dates : list (date * date)) (df2 df3 : frame) :
  set_period_dates dates df2 = Ok df3 ->
  Forall (fun d => valid_date (year (fst d)) (month (fst d)) (day (fst d)) = true
                   /\ valid_date (year (snd d)) (month (snd d)) (day (snd d)) = true)
         dates ->
  map fst (rows df3) = map fst (rows df2)
  /\ (Forall identity_is_text (rows df2) -> Forall identity_is_text (rows df3))
  /\ (Forall numbers_are_floats (rows df2) -> Forall numbers_are_floats (rows df3))
  /\ Forall period_is_dates (rows df3).
Proof.
  intros S V. rewrite set_period_dates_cases in S.
  destruct (Nat.eqb (List.length dates) (List.length (rows df2))) eqn:Q;
    [| discriminate].
  apply Nat.eqb_eq in Q. inversion S as [S']. cbn [rows]. clear S S'.
  split; [| split; [| split]].
  - rewrite map_map. cbn [fst].
    rewrite <- (map_map fst fst). now rewrite map_fst_combine.
  - intros T. apply Forall_forall. intros ir Hir.
    apply in_map_iff in Hir as ([[idx r] d] & <- & Hi).
    apply in_combine_l in Hi. rewrite Forall_forall in T. specialize (T _ Hi).
    intros field Hf. destruct (T field Hf) as (s & L). exists s. cbn [fst snd] in *.
    destruct (dated_cells d r) as (_ & G & _). rewrite G; [exact L | | |];
      apply different_labels;
      destruct Hf as [<- | [<- | []]]; vm_compute; reflexivity.
  - intros N. apply Forall_forall. intros ir Hir.
    apply in_map_iff in Hir as ([[idx r] d] & <- & Hi).
    apply in_combine_l in Hi. rewrite Forall_forall in N. specialize (N _ Hi).
    intros field Hf. destruct (N field Hf) as (x & L). exists x. cbn [fst snd] in *.
    destruct (dated_cells d r) as (_ & G & _). rewrite G; [exact L | | |];
      apply different_labels;
      repeat (destruct Hf as [<- | Hf]; [vm_compute; reflexivity |]);
      destruct Hf.
  - apply Forall_forall. intros ir Hir.
    apply in_map_iff in Hir as ([[idx r] d] & <- & Hi).
    apply in_combine_r in Hi. rewrite Forall_forall in V.
    destruct (V _ Hi) as [V1 V2]. cbn [fst snd] in *.
    destruct (dated_cells d r) as (_ & _ & G3 & G4).
    exists (fst d), (snd d). cbn [snd].
    split; [exact G3 |]. split; [exact G4 |]. split; [exact V1 | exact V2].
Qed.

(** The rows [parse_rows] returns are the rows it was given, in order,
    with texts in their identity cells, floats in the numeric cells
    that are mapped, and dates when the period column is mapped. *)
Lemma parse_rows_keeps_rows (valid_df : frame) (errors : list ExcelValidationError) :
  parse_rows series_text column_map df = Ok (valid_df, errors) ->
  map fst (rows valid_df) = map fst (rows df)
  /\ Forall identity_is_text (rows valid_df)
  /\ ((forall field, In field numeric_fields -> In field (map snd column_map)) ->
      Forall numbers_are_floats (rows valid_df))
  /\ (In F.period_of_insurance (map snd column_map) ->
      Forall period_is_dates (rows valid_df)).
Proof.
  unfold parse_rows. cbv zeta. rewrite clean_and_validate_cases.
  destruct (existsb (duplicated (rename column_map df)) text_fields);
    [discriminate |].
  cbn [res_bind].
  destruct cleaned_rows as (I2 & H2 & T2 & N2).
  destruct (cleaned_and_validated (rename column_map df))
    as [df2 validation_errors].
  cbn [fst snd] in *.
  destruct (has_column df2 F.period_of_insurance) eqn:P.
  - destruct (_transform_period_column series_text df2)
      as [[df3 date_errors]|e] eqn:T; cbn [res_bind fst snd]; [| discriminate].
    destruct (transform_period_dates series_text df2 P T) as (dates & S & V).
    cbn [fst] in S.
    destruct (@dated_rows dates df2 df3 S V) as (I3 & T3 & N3 & D3).
    destruct (set_period_dates_columns _ _ S) as (_ & _ & _ & C3).
    rewrite dropna_keeps_texts; [| | exact (T3 T2)].
    + cbn [res_bind]. intros R. inversion R; subst.
      split; [congruence |]. split; [exact (T3 T2) |].
      split; [intros M; exact (N3 (N2 M)) | intros _; exact D3].
    + intros field Hf. apply C3; [| now apply H2, identity_mapped].
      apply different_labels.
      destruct Hf as [<- | [<- | []]]; vm_compute; reflexivity.
  - cbn [res_bind fst snd].
    rewrite dropna_keeps_texts;
      [| intros field Hf; now apply H2, identity_mapped | exact T2].
    cbn [res_bind]. intros R. inversion R; subst.
    split; [exact I2 |]. split; [exact T2 |]. split; [exact N2 |].
    intros M. apply H2 in M. rewrite M in P. discriminate P.
Qed.


End ParsedRows.

Lemma parsed_rows_are_the_sheet_rows
        (series_text : list (nat * pyval) -> str)
        (df : frame) (column_mapping : option ExcelColumnMapping)
        (valid_df : frame) (errors : list ExcelValidationError) :
  as_read df ->
  parse_excel_file series_text (Ok df) column_mapping = Ok (valid_df, errors) ->
  (map fst (rows valid_df) = map fst (rows df)
   /\ Forall identity_is_text (rows valid_df))
  /\ Forall numbers_are_floats (rows valid_df)
  /\ (In F.period_of_insurance
         (map snd (_create_column_mapping
                     (columns (normalize_columns df))
                     match column_mapping with
                     | Some m => m
                     | None => default_mapping
                     end)) ->
      Forall period_is_dates (rows valid_df)).
Proof.
  intros S. unfold parse_excel_file, res_bind.
  set (mapping := match column_mapping with
                  | Some m => m
                  | None => default_mapping
                  end).
  set (sheet := normalize_columns df).
  destruct (column_map_facts (columns sheet) mapping) as (NK & _ & I).
  pose proof (validate_required_columns_nil
                (_create_column_mapping (columns sheet) mapping)) as V.
  set (column_map := _create_column_mapping (columns sheet) mapping) in *.
  destruct (_validate_required_columns column_map); [| discriminate].
  destruct V as [V _]. destruct (V eq_refl) as [R _]. clear V.
  destruct (parse_rows series_text column_map sheet) as [[v e]|x] eqn:P;
    [| discriminate].
  intros H. inversion H; subst.
  pose proof (fun a b c d =>
                @parse_rows_keeps_rows series_text column_map sheet a b c d
                                       valid_df errors P) as K.
  destruct K as (L & T & N & D).
  - apply relabel_as_read. exact S.
  - exact NK.
  - intros col field Hc. apply (I col field Hc).
  - intros field Hf. apply R.
    destruct Hf as [<- | [<- | []]]; [left | right; left]; reflexivity.
  - split; [split; [| exact T] |].
    + rewrite L. unfold sheet, normalize_columns, relabel. cbn [rows].
      rewrite map_map. reflexivity.
    + split; [| exact D]. apply N. intros field Hf. apply R.
      apply mem_str_In.
      repeat (destruct Hf as [<- | Hf]; [vm_compute; reflexivity |]). destruct Hf.
Qed.

(** X10.  On a sheet as [read_excel] delivers it, [parse_excel_file]
    drops no row: when it returns, the frame has the rows of the sheet,
    with their index labels and in their order, and the policy number
    and the insured name of every row are texts (the empty text for a
    cell that was empty), so that [dropna] finds nothing to drop. *)
Theorem parse_drops_no_row
        (series_text : list (nat * pyval) -> str)
        (df : frame) (column_mapping : option ExcelColumnMapping)
        (valid_df : frame) (errors : list ExcelValidationError) :
  as_read df ->
  parse_excel_file series_text (Ok df) column_mapping = Ok (valid_df, errors) ->
  map fst (rows valid_df) = map fst (rows df)
  /\ Forall identity_is_text (rows valid_df).
Proof.
  intros S P.
  exact (proj1 (@parsed_rows_are_the_sheet_rows series_text df column_mapping
                  valid_df errors S P)).
Qed.

Lemma parse_drops_no_row_witness :
  map fst (rows (parsed three_rows)) = [0; 1; 2]%nat.
Proof.
  apply (@parse_drops_no_row values_only three_rows None (parsed three_rows)
           (match parse_excel_file values_only (Ok three_rows) None with
            | Ok (_, errors) => errors
            | Raise _ => []
            end)).
  - unfold as_read. repeat constructor.
  - vm_compute. reflexivity.
Defined.

(** X20.  In the frame [parse_excel_file] returns for a sheet as
    [read_excel] delivers it, the eight numeric cells of every row are
    floats, whatever the sheet held there; and when a column of the
    sheet is mapped to the period, the two date cells of every row are
    dates of the calendar. *)
Theorem parsed_cells_are_floats_and_dates
        (series_text : list (nat * pyval) -> str)
        (df : frame) (column_mapping : option ExcelColumnMapping)
        (valid_df : frame) (errors : list ExcelValidationError) :
  as_read df ->
  parse_excel_file series_text (Ok df) column_mapping = Ok (valid_df, errors) ->
  Forall numbers_are_floats (rows valid_df)
  /\ (In F.period_of_insurance
        (map snd (_create_column_mapping
                    (columns (normalize_columns df))
                    match column_mapping with
                    | Some m => m
                    | None => default_mapping
                    end)) ->
      Forall period_is_dates (rows valid_df)).
Proof.
  intros S P.
  exact (proj2 (@parsed_rows_are_the_sheet_rows series_text df column_mapping
                  valid_df errors S P)).
Qed.

Lemma parsed_cells_are_floats_and_dates_witness :
  Forall numbers_are_floats (rows (parsed three_rows)).
Proof.
  apply (@parsed_cells_are_floats_and_dates values_only three_rows None
           (parsed three_rows)
           (match parse_excel_file values_only (Ok three_rows) None with
            | Ok (_, errors) => errors
            | Raise _ => []
            end)).
  - unfold as_read. repeat constructor.
  - vm_compute. reflexivity.
Defined.


(* ================================================================== *)
(** * The report of a run, the store and the audit log *)
(* ================================================================== *)

Section Run.
Variable env : collaborators.
Variable file : upload.
Variable request : ExcelIngestionRequest.

(** What the body of the [try] has done when it reaches the status. *)
Lemma compute_outcome_cases (w : world) :
  match compute_outcome env file request w with
  | (Ok o, w1) =>
      exists df parsing_errors c w0,
        parse_excel_file (series_text env) (read_excel file) None = Ok (df, parsing_errors)
        /\ rows df <> []
        /\ bulk_create_policies env (fst (convert_rows df)) (batch_size request) w0
           = (Ok c, w1)
        /\ insurance_policies w0 = insurance_policies w
        /\ data_ingestion_logs w0 = data_ingestion_logs w
        /\ out_total_rows o = List.length (rows df)
        /\ out_successful o = successful_count c
        /\ out_failed o = failed_count c
        /\ out_errors o
           = map CellError parsing_errors
             ++ map Message (snd (convert_rows df))
             ++ map Message (error_messages c)
        /\ out_status o
           = if Nat.eqb (failed_count c) 0 then lit "success"
             else if Nat.ltb 0 (successful_count c) then lit "partial"
                  else lit "failed"
  | (Raise e, w1) =>
      insurance_policies w1 = insurance_policies w
      /\ data_ingestion_logs w1 = data_ingestion_logs w
  end.
Proof.
  unfold compute_outcome, bind, get_repository, call, lift, raise.
  destruct (repository_failure env w); [split; reflexivity |].
  destruct (repository_failure env (tick w)); [split; reflexivity |].
  destruct (parse_excel_file (series_text env) (read_excel file) None) as [[df parsing_errors]|e];
    [| split; reflexivity].
  destruct (rows df) as [|ir l] eqn:R; [split; reflexivity |].
  destruct (convert_rows df) as [policies_data conversion_errors] eqn:C.
  pose proof (bulk_create_cases env policies_data (batch_size request)
                                (tick (tick w))) as B.
  destruct (bulk_create_policies env policies_data (batch_size request)
                                 (tick (tick w))) as [[c|e] w1] eqn:E.
  - exists df, parsing_errors, c, (tick (tick w)).
    rewrite C, R. cbn [fst snd ret out_total_rows out_successful out_failed
                       out_errors out_status].
    split; [reflexivity |]. split; [discriminate |]. split; [exact E |].
    repeat (split; [reflexivity |]). reflexivity.
  - destruct B as (_ & _ & ->). split; reflexivity.
Qed.

Lemma join_has_no_cell_error (items : list error_item) (position : nat)
      (ts : list text) :
  join position items = Ok ts -> items = map Message ts.
Proof.
  revert position ts. induction items as [|[e|t] items IH]; intros position ts; simpl.
  - intros H. inversion H. reflexivity.
  - discriminate.
  - destruct (join (S position) items) as [ts'|] eqn:J; simpl; [| discriminate].
    intros H. inversion H; subst. simpl. now rewrite (IH _ _ J).
Qed.

Lemma error_details_without_cell_error (items : list error_item)
      (details : option (list text)) :
  error_details items = Ok details -> Forall (fun i => exists t, i = Message t) items.
Proof.
  unfold error_details. destruct items as [|i items]; [constructor |].
  destruct (join 0 (i :: items)) as [ts|] eqn:J; simpl; [| discriminate].
  intros _. apply join_has_no_cell_error in J. rewrite J.
  apply Forall_forall. intros x Hx. apply in_map_iff in Hx as (t & <- & _).
  now exists t.
Qed.

(** The two ways the [try] of [ingest_excel_file] ends.  When it
    raises, the entry of the outcome may be in the audit log all the
    same: the refresh that follows its commit has failed. *)
Lemma ingestion_attempt_cases (w : world) :
  match ingestion_attempt env file request w with
  | (Ok report, w') =>
      exists o w1 details,
        compute_outcome env file request w = (Ok o, w1)
        /\ error_details (out_errors o) = Ok details
        /\ report = report_of file o
        /\ (exists added,
               insurance_policies w' = insurance_policies w ++ added
               /\ List.length added = out_successful o)
        /\ data_ingestion_logs w'
           = data_ingestion_logs w ++ [entry_of file o details]
  | (Raise e, w') =>
      (exists added, insurance_policies w' = insurance_policies w ++ added)
      /\ (data_ingestion_logs w' = data_ingestion_logs w
          \/ exists o w1 details,
              compute_outcome env file request w = (Ok o, w1)
              /\ error_details (out_errors o) = Ok details
              /\ data_ingestion_logs w'
                 = data_ingestion_logs w ++ [entry_of file o details]
              /\ exists w2, refresh_failure env w2 = Some e)
  end.
Proof.
  unfold ingestion_attempt, log_data_ingestion, commit_entry.
  unfold bind, lift, call, ret.
  pose proof (compute_outcome_cases w) as C.
  destruct (compute_outcome env file request w) as [[o|e] w1] eqn:E.
  - destruct C as (df & pe & c & w0 & _ & _ & B & S0 & L0 & _ & OS & _).
    pose proof (bulk_create_cases env (fst (convert_rows df)) (batch_size request) w0)
      as B'.
    rewrite B in B'. destruct B' as (_ & (added & S1 & LA & _) & L1 & _).
    assert (L : data_ingestion_logs w1 = data_ingestion_logs w) by congruence.
    assert (S : exists added, insurance_policies w1 = insurance_policies w ++ added)
      by (exists added; congruence).
    destruct (error_details (out_errors o)) as [details|e] eqn:D.
    + fold (entry_of file o details).
      destruct (audit_failure env w1 (entry_of file o details)).
      * split; [exact S | left; exact L].
      * match goal with
        | |- context [refresh_failure env ?w2] =>
            destruct (refresh_failure env w2) as [e|] eqn:R
        end.
        -- split; [exact S |]. right. exists o, w1, details.
           split; [reflexivity |]. split; [exact D |].
           cbn [tick data_ingestion_logs]. split; [now rewrite L |].
           eexists. exact R.
        -- exists o, w1, details. split; [reflexivity |]. split; [exact D |].
           split; [reflexivity |].
           cbn [tick insurance_policies data_ingestion_logs].
           split; [| now rewrite L].
           exists added. split; congruence.
    + split; [exact S | left; exact L].
  - destruct C as [S L]. split; [| left; exact L].
    exists []. rewrite app_nil_r. exact S.
Qed.

(** The [except] of [ingest_excel_file]: its report, and the one entry
    it may write. *)
Lemma ingestion_failed_cases (e : exn) (w : world) :
  exists w',
    ingestion_failed env file e w = (Ok (failed_report file e), w')
    /\ insurance_policies w' = insurance_policies w
    /\ (data_ingestion_logs w' = data_ingestion_logs w
        \/ data_ingestion_logs w'
           = data_ingestion_logs w ++ [failed_entry file e])
    /\ ((forall w0 entry, audit_failure env w0 entry = None) ->
        (forall w0, repository_failure env w0 = None) ->
        data_ingestion_logs w' <> data_ingestion_logs w).
Proof.
  unfold ingestion_failed, get_repository, log_data_ingestion, commit_entry.
  unfold bind, try_except, call, ret.
  fold (failed_entry file e).
  assert (G : forall l : list audit_entry, l ++ [failed_entry file e] <> l).
  { intros l H. apply (f_equal (@List.length _)) in H.
    rewrite length_app in H. simpl in H. lia. }
  destruct (repository_failure env w) eqn:R.
  - eexists. split; [reflexivity |]. split; [reflexivity |]. split; [now left |].
    intros _ H. rewrite H in R. discriminate R.
  - destruct (audit_failure env (tick w) (failed_entry file e)) eqn:A.
    + eexists. split; [reflexivity |]. split; [reflexivity |]. split; [now left |].
      intros H _. rewrite H in A. discriminate A.
    + match goal with
      | |- context [refresh_failure env ?w2] => destruct (refresh_failure env w2)
      end;
        (eexists; split; [reflexivity |]; split; [reflexivity |];
         split; [now right |]; intros _ _; apply G).
Qed.

(** X11.  A run of [ingest_excel_file] writes at most two entries in
    the audit log, each under the name and the size of the file.  In
    all cases but one the entries are at most one, and an entry agrees
    with the report returned: same status and counts.  The case apart
    is a run of which the outcome was computed and its entry committed,
    and in which the refresh of that entry then failed: the entry stays
    in the log with the status and the counts of the outcome, the
    report is that of a failed run, and the second entry, if the log can
    still be written, agrees with the report.
    When the refresh never fails this case does not arise; when neither
    the audit log nor the repositories fail, at least one entry is
    written. *)
Theorem audit_entry_agrees_with_report (w : world) :
  exists report w' added,
    ingest_excel_file env file request w = (Ok report, w')
    /\ data_ingestion_logs w' = data_ingestion_logs w ++ added
    /\ Forall (fun entry => log_filename entry = filename report
                            /\ log_file_size_bytes entry = upload_size file)
              added
    /\ (added = []
        \/ (exists entry, added = [entry] /\ agrees entry report)
        \/ (exists o w1 details e,
               compute_outcome env file request w = (Ok o, w1)
               /\ report = failed_report file e
               /\ (exists w2, refresh_failure env w2 = Some e)
               /\ (added = [entry_of file o details]
                   \/ (added = [entry_of file o details; failed_entry file e]
                       /\ agrees (failed_entry file e) report))))
    /\ ((forall w0, refresh_failure env w0 = None) -> (List.length added <= 1)%nat)
    /\ ((forall w0 entry, audit_failure env w0 entry = None) ->
        (forall w0, repository_failure env w0 = None) ->
        added <> []).
Proof.
  unfold ingest_excel_file, try_except.
  pose proof (ingestion_attempt_cases w) as A.
  destruct (ingestion_attempt env file request w) as [[report|e] w1].
  - destruct A as (o & w0 & details & _ & _ & -> & _ & L).
    exists (report_of file o), w1, [entry_of file o details].
    split; [reflexivity |]. split; [exact L |].
    split; [constructor; [split; reflexivity | constructor] |].
    split; [| split; [intros _; simpl; lia | intros _ _; discriminate]].
    right. left. eexists. split; [reflexivity |].
    unfold agrees. repeat (split; [reflexivity |]). reflexivity.
  - destruct A as (_ & L).
    destruct (ingestion_failed_cases e w1) as (w' & E & _ & LL & H).
    rewrite E.
    assert (FA : agrees (failed_entry file e) (failed_report file e)).
    { unfold agrees. repeat (split; [reflexivity |]). reflexivity. }
    destruct L as [L | (o & w0 & details & C & D & L & R)].
    + rewrite L in H, LL.
      destruct LL as [LL | LL].
      * exists (failed_report file e), w', [].
        split; [reflexivity |]. split; [now rewrite app_nil_r |].
        split; [constructor |]. split; [now left |].
        split; [intros _; simpl; lia |].
        intros HA HR. exfalso. exact (H HA HR LL).
      * exists (failed_report file e), w', [failed_entry file e].
        split; [reflexivity |]. split; [exact LL |].
        split; [constructor; [split; reflexivity | constructor] |].
        split; [right; left; eexists; split; [reflexivity | exact FA] |].
        split; [intros _; simpl; lia | intros _ _; discriminate].
    + destruct LL as [LL | LL].
      * exists (failed_report file e), w', [entry_of file o details].
        split; [reflexivity |]. split; [congruence |].
        split; [constructor; [split; reflexivity | constructor] |].
        split; [| split; [| intros _ _; discriminate]].
        -- right. right. exists o, w0, details, e.
           split; [exact C |]. split; [reflexivity |]. split; [exact R |]. now left.
        -- intros N. destruct R as (w2 & R). rewrite N in R. discriminate R.
      * exists (failed_report file e), w',
          [entry_of file o details; failed_entry file e].
        split; [reflexivity |].
        split; [rewrite LL, L, <- app_assoc; reflexivity |].
        split; [constructor; [split; reflexivity |];
                constructor; [split; reflexivity | constructor] |].
        split; [| split; [| intros _ _; discriminate]].
        -- right. right. exists o, w0, details, e.
           split; [exact C |]. split; [reflexivity |]. split; [exact R |].
           right. split; [reflexivity | exact FA].
        -- intros N. destruct R as (w2 & R). rewrite N in R. discriminate R.
Qed.

(** X12.  The report of [ingest_excel_file] names the file, has no
    warnings, and its status agrees with its counts: "success" with no
    failed row, "partial" with rows processed and rows failed, or
    "failed" with no row processed.  It never counts more processed
    rows than the run added to the table of policies, and the run
    removes nothing from that table. *)
Theorem report_status_agrees_with_counts (w : world) :
  exists report w',
    ingest_excel_file env file request w = (Ok report, w')
    /\ filename report = upload_name file
    /\ warnings report = []
    /\ ((status report = lit "success" /\ failed_rows report = 0%nat)
        \/ (status report = lit "partial"
            /\ (0 < processed_rows report)%nat /\ (0 < failed_rows report)%nat)
        \/ (status report = lit "failed" /\ processed_rows report = 0%nat))
    /\ exists added,
        insurance_policies w' = insurance_policies w ++ added
        /\ (processed_rows report <= List.length added)%nat.
Proof.
  unfold ingest_excel_file, try_except.
  pose proof (ingestion_attempt_cases w) as A.
  destruct (ingestion_attempt env file request w) as [[report|e] w1].
  - destruct A as (o & w0 & details & C & _ & -> & (added & S & LA) & _).
    pose proof (compute_outcome_cases w) as O. rewrite C in O.
    destruct O as (df & pe & c & w2 & _ & _ & _ & _ & _ & _ & OS & OF & _ & ST).
    do 2 eexists. split; [reflexivity |].
    cbn [report_of filename warnings status failed_rows processed_rows].
    split; [reflexivity |]. split; [reflexivity |]. split.
    + rewrite ST, OS, OF.
      destruct (Nat.eqb (failed_count c) 0) eqn:F0.
      * left. split; [reflexivity |]. now apply Nat.eqb_eq.
      * apply Nat.eqb_neq in F0.
        destruct (Nat.ltb 0 (successful_count c)) eqn:S0.
        -- right. left. apply Nat.ltb_lt in S0. split; [reflexivity |]. lia.
        -- right. right. apply Nat.ltb_ge in S0. split; [reflexivity |]. lia.
    + exists added. split; [exact S | lia].
  - destruct A as ((added & S) & _).
    destruct (ingestion_failed_cases e w1) as (w' & E & S' & _).
    rewrite E. do 2 eexists. split; [reflexivity |].
    cbn [failed_report filename warnings status failed_rows processed_rows].
    split; [reflexivity |]. split; [reflexivity |].
    split; [right; right; split; reflexivity |].
    exists added. split; [congruence | lia].
Qed.

Lemma convert_rows_count (df : frame) :
  (List.length (fst (convert_rows df)) + List.length (snd (convert_rows df))
   = List.length (rows df))%nat
  /\ Forall (fun t => is_row_error (Message t) = true) (snd (convert_rows df)).
Proof.
  rewrite convert_rows_spec. cbn [fst snd].
  induction (rows df) as [|ir l [IH1 IH2]]; simpl; [split; [reflexivity | constructor] |].
  destruct (_convert_row_to_policy (snd ir)); simpl.
  - split; [lia | exact IH2].
  - split; [lia | constructor; [reflexivity | exact IH2]].
Qed.

Lemma filter_none {A} (f : A -> bool) (l : list A) :
  Forall (fun x => f x = false) l -> filter f l = [].
Proof.
  intros H. apply filter_nil_iff. now apply Forall_forall.
Qed.

Lemma filter_every {A} (f : A -> bool) (l : list A) :
  Forall (fun x => f x = true) l -> filter f l = l.
Proof.
  intros H. apply filter_all. now apply Forall_forall.
Qed.

(** X13.  When the report of a run with a positive batch size has the
    status "success" or "partial", the rows are accounted for: the
    table of policies has grown by exactly [processed_rows] records, and
    [total_rows] is at most the processed rows, the failed rows and the
    rows refused by the conversion (the errors "Row n: ...") together,
    and exactly their sum when every database model can be built.  For
    a sheet as [read_excel] delivers it, [total_rows] is the number of
    rows of the sheet.  With the status "success" the errors of the
    report are the refused rows and nothing else. *)
Theorem rows_are_accounted_for
        (w : world) (report : ExcelIngestionResponse) (w' : world) :
  ingest_excel_file env file request w = (Ok report, w') ->
  status report <> lit "failed" ->
  0 < batch_size request ->
  let refused := List.length (filter is_row_error (errors report)) in
  List.length (insurance_policies w')
  = (List.length (insurance_policies w) + processed_rows report)%nat
  /\ (total_rows report <= processed_rows report + failed_rows report + refused)%nat
  /\ ((forall p, model_failure env p = None) ->
      total_rows report
      = (processed_rows report + failed_rows report + refused)%nat)
  /\ (forall df, read_excel file = Ok df -> as_read df ->
                 total_rows report = List.length (rows df))
  /\ (status report = lit "success" ->
      Forall (fun item => is_row_error item = true) (errors report)).
Proof.
  unfold ingest_excel_file, try_except.
  pose proof (ingestion_attempt_cases w) as A.
  destruct (ingestion_attempt env file request w) as [[r|e] w1].
  - intros H. inversion H; subst r w1. clear H.
    destruct A as (o & w0 & details & C & D & -> & (added & S & LA) & _).
    pose proof (compute_outcome_cases w) as O. rewrite C in O.
    destruct O as (df & pe & c & w2 & P & _ & B & _ & _ & OT & OS & OF & OE & ST).
    pose proof (bulk_create_cases env (fst (convert_rows df)) (batch_size request) w2)
      as B'.
    rewrite B in B'. destruct B' as (_ & _ & _ & B').
    cbn [report_of total_rows processed_rows failed_rows status errors].
    intros NF Pos. destruct (B' Pos) as (GE & EQ & Z & NR). clear B'.
    destruct (convert_rows_count df) as [CC CR].
    apply error_details_without_cell_error in D. rewrite OE in D.
    apply Forall_app in D as [D _].
    assert (pe = []) as ->.
    { destruct pe as [|x pe]; [reflexivity |].
      inversion D as [|? ? (t & X) ?]. discriminate X. }
    cbv zeta. rewrite OE. cbn [map app].
    rewrite filter_app, length_app.
    rewrite (@filter_every _ is_row_error (map Message (snd (convert_rows df))))
      by (apply Forall_map; exact CR).
    rewrite (@filter_none _ is_row_error (map Message (error_messages c)))
      by (apply Forall_map; exact NR).
    rewrite !length_map. cbn [List.length]. rewrite Nat.add_0_r.
    rewrite OT, OS, OF.
    split; [rewrite S, length_app; lia |].
    split; [lia |].
    split; [intros M; specialize (EQ (fun p _ => M p)); lia |].
    split.
    + intros df0 R S0. rewrite R in P.
      destruct (@parsed_rows_are_the_sheet_rows (series_text env) df0 None df []
                  S0 P) as [[I _] _].
      apply (f_equal (@List.length _)) in I. now rewrite !length_map in I.
    + intros SU. rewrite ST in SU.
      destruct (Nat.eqb (failed_count c) 0) eqn:F0.
      * apply Nat.eqb_eq in F0. apply Z in F0. rewrite F0. cbn [map].
        rewrite app_nil_r. apply Forall_map. exact CR.
      * destruct (Nat.ltb 0 (successful_count c)); vm_compute in SU; discriminate SU.
  - destruct (ingestion_failed_cases e w1) as (w2 & E & _).
    rewrite E. intros H. inversion H; subst. intros NF. exfalso. apply NF. reflexivity.
Qed.

End Run.

(** The sound row, with an audit log that commits and then fails to
    refresh: the record is stored, the log holds the entry of the
    outcome, with the status "success", and after it the entry of a
    failed run; the report is that of a failed run. *)
Example refresh_failure_leaves_two_entries :
  let run := ingest_excel_file refresh_down (file_of one_row) Scenario.request fresh in
  map log_status (data_ingestion_logs (snd run)) = [lit "success"; lit "failed"]
  /\ map log_rows_successful (data_ingestion_logs (snd run)) = [1; 0]%nat
  /\ insurance_policies (snd run) = [acme]
  /\ fst run
     = Ok (failed_report (file_of one_row)
                         (OtherError (Plain (lit "connection lost")))).
Proof. cbv zeta. conjuncts; vm_compute; reflexivity. Qed.

Lemma rows_are_accounted_for_witness :
  exists report w',
    ingest_excel_file reliable (file_of one_row) Scenario.request fresh
    = (Ok report, w')
    /\ List.length (insurance_policies w')
       = (List.length (insurance_policies fresh) + processed_rows report)%nat.
Proof.
  do 2 eexists. split; [vm_compute; reflexivity |].
  eapply (@rows_are_accounted_for reliable (file_of one_row) Scenario.request fresh).
  - vm_compute. reflexivity.
  - vm_compute. discriminate.
  - reflexivity.
Defined.


(* ================================================================== *)
(** * Rows that the conversion accepts *)
(* ================================================================== *)

Lemma check_nil_iff (ok : bool) (name : str) :
  (if ok then [] else [name]) = @nil str <-> ok = true.
Proof. destruct ok; split; intros H; try reflexivity; discriminate. Qed.

Lemma length_bounds (s : str) (most : nat) :
  (1 <=? Z.of_nat (List.length s)) && (Z.of_nat (List.length s) <=? Z.of_nat most)
  = true
  <-> s <> [] /\ (List.length s <= most)%nat.
Proof.
  rewrite andb_true_iff, !Z.leb_le. destruct s as [|c s]; simpl List.length.
  - split; [lia | intros [H _]; now contradiction H].
  - split; [intros [_ H]; split; [discriminate | lia] | lia].
Qed.

Lemma check_app_nil (ok : bool) (name : str) (rest : list str) :
  (if ok then [] else [name]) ++ rest = [] <-> ok = true /\ rest = [].
Proof.
  destruct ok; simpl; split.
  - intros H. now split.
  - now intros [_ H].
  - discriminate.
  - intros [H _]. discriminate H.
Qed.

(** The field constraints of the schema, one by one. *)
Lemma field_violations_none {D} (p : policy_fields D) :
  field_violations p = []
  <-> (policy_number p <> [] /\ (List.length (policy_number p) <= 50)%nat)
      /\ (insured_name p <> [] /\ (List.length (insured_name p) <= 200)%nat)
      /\ flt f_zero (sum_insured p) = true
      /\ flt f_zero (premium p) = true
      /\ (fle f_zero (own_retention_ppn p) && fle (own_retention_ppn p) f_hundred
          = true)
      /\ fle f_zero (own_retention_sum_insured p) = true
      /\ fle f_zero (own_retention_premium p) = true
      /\ (fle f_zero (treaty_ppn p) && fle (treaty_ppn p) f_hundred = true)
      /\ fle f_zero (treaty_sum_insured p) = true
      /\ fle f_zero (treaty_premium p) = true.
Proof.
  unfold field_violations. cbv beta zeta.
  rewrite <- (length_bounds (policy_number p) 50).
  rewrite <- (length_bounds (insured_name p) 200).
  change (Z.of_nat 50) with 50. change (Z.of_nat 200) with 200.
  rewrite !check_app_nil, check_nil_iff. tauto.
Qed.

(** X14.  A row as the parser leaves it (texts in the identity cells,
    floats in the eight numeric cells, dates in the two date cells) is
    converted exactly when it meets the constraints of the schema:
    policy number of 1 to 50 characters and insured name of 1 to 200
    once stripped, sum insured and premium above zero, percentages from
    0 to 100, shares not below zero, end date after start date.  The
    record then holds the cells of the row as they stand, the two texts
    stripped. *)
Theorem clean_row_is_converted_as_it_stands
        (r : row) (number name : str)
        (si pr op os opr tp ts tpr : float) (sd ed : date)
        (p : InsurancePolicyCreate) :
  lookup F.policy_number r = Some (VStr number) ->
  lookup F.insured_name r = Some (VStr name) ->
  lookup F.sum_insured r = Some (VFloat si) ->
  lookup F.premium r = Some (VFloat pr) ->
  lookup F.own_retention_ppn r = Some (VFloat op) ->
  lookup F.own_retention_sum_insured r = Some (VFloat os) ->
  lookup F.own_retention_premium r = Some (VFloat opr) ->
  lookup F.treaty_ppn r = Some (VFloat tp) ->
  lookup F.treaty_sum_insured r = Some (VFloat ts) ->
  lookup F.treaty_premium r = Some (VFloat tpr) ->
  lookup F.insurance_period_start_date r = Some (VDate sd) ->
  lookup F.insurance_period_end_date r = Some (VDate ed) ->
  _convert_row_to_policy r = Ok p
  <-> p = {| policy_number := strip number;
             insured_name := strip name;
             sum_insured := si;
             premium := pr;
             own_retention_ppn := op;
             own_retention_sum_insured := os;
             own_retention_premium := opr;
             treaty_ppn := tp;
             treaty_sum_insured := ts;
             treaty_premium := tpr;
             insurance_period_start_date := sd;
             insurance_period_end_date := ed |}
      /\ ((strip number <> [] /\ (List.length (strip number) <= 50)%nat)
          /\ (strip name <> [] /\ (List.length (strip name) <= 200)%nat)
          /\ flt f_zero si = true
          /\ flt f_zero pr = true
          /\ (fle f_zero op && fle op f_hundred = true)
          /\ fle f_zero os = true
          /\ fle f_zero opr = true
          /\ (fle f_zero tp && fle tp f_hundred = true)
          /\ fle f_zero ts = true
          /\ fle f_zero tpr = true)
      /\ date_leb ed sd = false.
Proof.
  intros H1 H2 H3 H4 H5 H6 H7 H8 H9 H10 H11 H12.
  unfold _convert_row_to_policy.
  rewrite H1, H2, H3, H4, H5, H6, H7, H8, H9, H10, H11, H12.
  cbn [float_of_val res_bind str_of_val policy_number insured_name
       insurance_period_start_date insurance_period_end_date convert_date].
  set (d := with_dates _ (Some (VDate sd)) (Some (VDate ed))).
  pose proof (field_violations_none d) as V.
  cbn [d with_dates policy_number insured_name sum_insured premium
       own_retention_ppn own_retention_sum_insured own_retention_premium
       treaty_ppn treaty_sum_insured treaty_premium] in V.
  assert (N : new_InsurancePolicyCreate d
              = match field_violations d with
                | [] => if date_leb ed sd
                        then Raise (ValueError
                                      (SchemaRejected [lit "validate_period_dates"]))
                        else Ok (with_dates d sd ed)
                | failed => Raise (ValueError (SchemaRejected failed))
                end).
  { unfold new_InsurancePolicyCreate.
    change (date_field (insurance_period_start_date d)) with (Some sd).
    change (date_field (insurance_period_end_date d)) with (Some ed).
    cbv iota beta. rewrite !app_nil_r. reflexivity. }
  destruct (strip number) as [|c1 n1] eqn:E1.
  { split; [discriminate |]. intros (_ & ((X & _) & _) & _). now contradiction X. }
  destruct (strip name) as [|c2 n2] eqn:E2.
  { split; [discriminate |]. intros (_ & (_ & (X & _) & _) & _). now contradiction X. }
  rewrite N. clear N.
  destruct (field_violations d) as [|f fs].
  - destruct V as [V _]. specialize (V eq_refl).
    destruct (date_leb ed sd).
    + split; [discriminate |]. intros (_ & _ & X). discriminate X.
    + split.
      * intros H. inversion H. split; [reflexivity |]. split; [exact V | reflexivity].
      * intros (-> & _). reflexivity.
  - split; [discriminate |]. intros (_ & C & _).
    destruct V as [_ V]. specialize (V C). discriminate V.
Qed.

Lemma clean_row_is_converted_as_it_stands_witness :
  _convert_row_to_policy (snd (hd (0%nat, []) (rows (parsed one_row)))) = Ok acme.
Proof.
  refine (proj2 (@clean_row_is_converted_as_it_stands
                   (snd (hd (0%nat, []) (rows (parsed one_row))))
                   (lit "POL-001") (lit "Acme Ltd")
                   (float_of_Z 1000000) (float_of_Z 5000) (float_of_Z 40)
                   (float_of_Z 400000) (float_of_Z 2000) (float_of_Z 60)
                   (float_of_Z 600000) (float_of_Z 3000)
                   (mk_date 2024 1 1) (mk_date 2024 12 31) acme
                   _ _ _ _ _ _ _ _ _ _ _ _) _);
    try (vm_compute; reflexivity).
  split; [vm_compute; reflexivity |].
  split; [| vm_compute; reflexivity].
  split; [split; [vm_compute; discriminate | vm_compute; lia] |].
  split; [split; [vm_compute; discriminate | vm_compute; lia] |].
  conjuncts; vm_compute; reflexivity.
Defined.


(* ================================================================== *)
(** * The structure check *)
(* ================================================================== *)

Lemma validate_excel_structure_readable (max_excel_rows : Z) (df : frame) :
  let result := validate_excel_structure max_excel_rows (Ok df) in
  let missing_columns :=
    _validate_required_columns
      (_create_column_mapping (columns (normalize_columns df)) default_mapping) in
  (Structure.valid result = true <-> Structure.issues result = [])
  /\ (Structure.valid result = true
      <-> rows df <> []
          /\ Z.of_nat (List.length (rows df)) <= max_excel_rows
          /\ missing_columns = []).
Proof.
  cbv zeta. unfold validate_excel_structure.
  change (map (fun c => upper (strip c)) (columns df))
    with (columns (normalize_columns df)).
  set (missing := _validate_required_columns _).
  assert (E : Nat.eqb (List.length (rows df)) 0 = true <-> rows df = []).
  { rewrite Nat.eqb_eq. destruct (rows df); simpl; split; congruence. }
  destruct (max_excel_rows <? Z.of_nat (List.length (rows df))) eqn:M;
    [apply Z.ltb_lt in M | apply Z.ltb_ge in M];
    (destruct (Nat.eqb (List.length (rows df)) 0) eqn:Z;
     [destruct E as [E _]; specialize (E eq_refl)
     | assert (rows df <> []) by (intros X; apply E in X; discriminate X)]);
    destruct missing as [|m ms]; cbn;
    (split; split; try discriminate; try reflexivity; try lia;
     try (intros (X & Y & W); first [contradiction | discriminate | lia]);
     try (intros _; repeat split; first [assumption | lia | reflexivity])).
Qed.

(** X15.  [validate_excel_structure] never raises.  For a readable file
    it reports the sheet as valid exactly when it lists no issue, and
    exactly when the sheet has at least one row, at most
    [max_excel_rows] rows, and no required column missing under the
    default mapping; it counts the rows and columns of the sheet.  A
    file that cannot be read is reported as not valid. *)
Theorem structure_check_is_coherent (max_excel_rows : Z) (read : res frame) :
  let result := validate_excel_structure max_excel_rows read in
  (Structure.valid result = true <-> Structure.issues result = [])
  /\ match read with
     | Ok df =>
         (Structure.valid result = true
          <-> rows df <> []
              /\ Z.of_nat (List.length (rows df)) <= max_excel_rows
              /\ _validate_required_columns
                   (_create_column_mapping (columns (normalize_columns df))
                                           default_mapping) = [])
         /\ Structure.total_rows result = List.length (rows df)
         /\ Structure.total_columns result = List.length (columns df)
     | Raise e =>
         Structure.valid result = false
         /\ Structure.error result = Some (str_of_exn e)
     end.
Proof.
  destruct read as [df|e].
  - destruct (validate_excel_structure_readable max_excel_rows df) as [A B].
    split; [exact A |]. split; [exact B |].
    unfold validate_excel_structure.
    repeat match goal with
           | |- context [if ?b then _ else _] => destruct b
           | |- context [match ?l with [] => _ | _ :: _ => _ end] => destruct l
           end; split; reflexivity.
  - cbv zeta. cbn. split; [split; discriminate | split; reflexivity].
Qed.

(** ** Headers that are distinct once normalized *)







(** A sheet in which, once renamed, several columns carry the label of
    one of the ten fields that are cleaned is refused. *)
Lemma colliding_headers_are_refused
      (series_text : list (nat * pyval) -> str) (df : frame)
      (column_mapping : option ExcelColumnMapping) (field : str) :
  let mapping := match column_mapping with
                 | Some m => m
                 | None => default_mapping
                 end in
  let column_map :=
    _create_column_mapping (columns (normalize_columns df)) mapping in
  _validate_required_columns column_map = [] ->
  In field text_fields ->
  duplicated (rename column_map (normalize_columns df)) field = true ->
  parse_excel_file series_text (Ok df) column_mapping
  = Raise (ValueError (ExcelParsingFailed FrameHasNoStr)).
Proof.
  intros mapping column_map MI Hf D.
  unfold parse_excel_file, res_bind. fold mapping. fold column_map.
  rewrite MI. unfold parse_rows. cbv zeta.
  rewrite clean_and_validate_cases.
  assert (E : existsb (duplicated (rename column_map (normalize_columns df)))
                      text_fields = true).
  { apply existsb_exists. exists field. split; [exact Hf | exact D]. }
  rewrite E. reflexivity.
Qed.



(** Two period columns and one row: each column is read as a text.
    Whatever text [str] gives for a column, the file is refused: a text
    that does not parse raises in the handler, and two pairs of dates
    do not fit one row. *)
Example colliding_period_headers_are_refused
        (series_text : list (nat * pyval) -> str) :
  Structure.valid (validate_excel_structure 100000 (Ok two_periods)) = true
  /\ (parse_excel_file series_text (Ok two_periods) None
      = Raise (ValueError (ExcelParsingFailed StrPlusInt))
      \/ parse_excel_file series_text (Ok two_periods) None
         = Raise (ValueError (ExcelParsingFailed (LengthMismatch 2 1)))).
Proof.
  split; [vm_compute; reflexivity |].
  unfold parse_excel_file, parse_rows, _transform_period_column, period_of_column,
    period_of_row.
  generalize _parse_insurance_period. intros parse.
  vm_compute.
  repeat match goal with
         | |- context [match parse ?t with _ => _ end] => destruct (parse t)
         end;
    (now left) || (now right).
Qed.

(** X22.  A run on a sheet in which, once renamed, several columns
    carry the label of one of the ten fields that are cleaned (headers
    such as "Premium" and "PREMIUM ") stores nothing and reports a
    failed run with no row counted; unless a repository fails first,
    the only error of the report is the text of the [AttributeError]
    that [df[field].str] raises, under "Excel parsing failed". *)
Theorem colliding_headers_fail_the_run
        (env : collaborators) (file : upload) (request : ExcelIngestionRequest)
        (df : frame) (field : str) (w : world) :
  read_excel file = Ok df ->
  _validate_required_columns
    (_create_column_mapping (columns (normalize_columns df)) default_mapping) = [] ->
  In field text_fields ->
  duplicated (rename (_create_column_mapping (columns (normalize_columns df))
                                             default_mapping)
                     (normalize_columns df))
             field = true ->
  exists e w',
    ingest_excel_file env file request w = (Ok (failed_report file e), w')
    /\ insurance_policies w' = insurance_policies w
    /\ ((forall w0, repository_failure env w0 = None) ->
        e = ValueError (ExcelParsingFailed FrameHasNoStr)).
Proof.
  intros R MI Hf D.
  pose proof (@colliding_headers_are_refused (series_text env) df None field
                MI Hf D) as P.
  rewrite <- R in P.
  unfold ingest_excel_file, try_except.
  assert (A : exists e w1,
             ingestion_attempt env file request w = (Raise e, w1)
             /\ insurance_policies w1 = insurance_policies w
             /\ ((forall w0, repository_failure env w0 = None) ->
                 e = ValueError (ExcelParsingFailed FrameHasNoStr))).
  { unfold ingestion_attempt, compute_outcome, get_repository.
    unfold bind, call, lift. rewrite P.
    destruct (repository_failure env w) eqn:R1.
    - do 2 eexists. split; [reflexivity |]. split; [reflexivity |].
      intros N. rewrite N in R1. discriminate R1.
    - destruct (repository_failure env (tick w)) eqn:R2.
      + do 2 eexists. split; [reflexivity |]. split; [reflexivity |].
        intros N. rewrite N in R2. discriminate R2.
      + do 2 eexists. split; [reflexivity |]. split; [reflexivity |].
        intros _. reflexivity. }
  destruct A as (e & w1 & -> & S & N).
  destruct (ingestion_failed_reports env file e w1) as (w' & E & S').
  rewrite E. exists e, w'. split; [reflexivity |]. split; [congruence | exact N].
Qed.

Lemma colliding_headers_fail_the_run_witness :
  exists w',
    ingest_excel_file reliable (file_of two_premiums) Scenario.request fresh
    = (Ok (failed_report (file_of two_premiums)
                         (ValueError (ExcelParsingFailed FrameHasNoStr))), w')
    /\ insurance_policies w' = [].
Proof.
  destruct (@colliding_headers_fail_the_run
              reliable (file_of two_premiums) Scenario.request two_premiums
              F.premium fresh eq_refl)
    as (e & w' & E & S & N).
  - vm_compute. reflexivity.
  - right. right. right. left. reflexivity.
  - vm_compute. reflexivity.
  - rewrite (N (fun _ => eq_refl)) in E. exists w'. split; [exact E | exact S].
Defined.

(* ================================================================== *)
(** * The route [/ingest-excel] *)
(* ================================================================== *)

(** X17.  The route [/ingest-excel] answers with the report of
    [ingest_excel_file] exactly when the file name ends in ".xlsx" or
    ".xls", the file is not larger than [max_file_size_mb] megabytes
    and the batch size is from 100 to 10000.  Otherwise it raises an
    [HTTPException] and has done nothing to the database or the audit
    log: 400 for the name, 400 for the size, and 500 only for the batch
    size, as the pipeline itself never raises. *)
Theorem route_answers_or_refuses_untouched
        (env : collaborators) (max_file_size_mb : Z) (file : upload)
        (validate_schema skip_duplicates : bool) (batch_size : Z) (w : world) :
  let excel_name :=
    endswith (upload_name file) (lit ".xlsx")
    || endswith (upload_name file) (lit ".xls") in
  let fits := Z.of_nat (upload_size file) <= max_file_size_mb * 1024 * 1024 in
  match ingest_excel env max_file_size_mb file validate_schema skip_duplicates
                     batch_size w with
  | (Report report, w') =>
      excel_name = true /\ fits /\ 100 <= batch_size <= 10000
      /\ ingest_excel_file env file
           {| validate_schema := validate_schema;
              skip_duplicates := skip_duplicates;
              batch_size := batch_size |} w
         = (Ok report, w')
  | (HTTPException status_code why, w') =>
      w' = w
      /\ ((status_code = 400 /\ why = OnlyExcelFiles /\ excel_name = false)
          \/ (status_code = 400 /\ why = FileTooLarge max_file_size_mb
              /\ excel_name = true /\ ~ fits)
          \/ (status_code = 500
              /\ why = IngestionFailed (SchemaRejected [lit "batch_size"])
              /\ excel_name = true /\ fits /\ ~ 100 <= batch_size <= 10000))
  end.
Proof.
  cbv zeta. unfold ingest_excel.
  destruct (endswith (upload_name file) (lit ".xlsx")
            || endswith (upload_name file) (lit ".xls")) eqn:N; cbn [negb].
  2: { split; [reflexivity |]. left. repeat split. }
  destruct (max_file_size_mb * 1024 * 1024 <? Z.of_nat (upload_size file)) eqn:S;
    [apply Z.ltb_lt in S | apply Z.ltb_ge in S].
  { split; [reflexivity |]. right. left. repeat split. lia. }
  unfold new_ExcelIngestionRequest.
  destruct ((100 <=? batch_size) && (batch_size <=? 10000)) eqn:B.
  - apply andb_true_iff in B as [B1 B2]. apply Z.leb_le in B1, B2.
    destruct (ingest_cases env file
                {| validate_schema := validate_schema;
                   skip_duplicates := skip_duplicates;
                   batch_size := batch_size |} w)
      as [(report & w' & _ & I) | (e & w1 & w' & _ & I & _)];
      rewrite I; (split; [reflexivity |]); (split; [exact S |]);
      (split; [lia | reflexivity]).
  - split; [reflexivity |]. right. right.
    split; [reflexivity |]. split; [reflexivity |]. split; [reflexivity |].
    split; [exact S |]. intros [B1 B2].
    apply Z.leb_le in B1, B2. rewrite B1, B2 in B. discriminate B.
Qed.

(* ================================================================== *)
(** * One policy: [create_policy] and [get_policy_by_number] *)
(* ================================================================== *)

Section OnePolicyFacts.
Variable env : collaborators.
Variable query_failure : world -> option exn.
Variable is_integrity_error : exn -> bool.

Lemma numbered_none (number : str) (l : list InsurancePolicyCreate) :
  filter (fun p => str_eqb (policy_number p) number) l = []
  <-> forall x, In x l -> policy_number x <> number.
Proof.
  rewrite filter_nil_iff. split; intros H x Hx; specialize (H x Hx).
  - intros E. rewrite E, str_eqb_refl in H. discriminate H.
  - destruct (str_eqb (policy_number x) number) eqn:E; [| reflexivity].
    apply str_eqb_spec in E. contradiction.
Qed.

(** What [create_policy] does to the table of policies. *)
Lemma create_policy_cases (policy_data : InsurancePolicyCreate) (w : world) :
  match create_policy env query_failure is_integrity_error policy_data w with
  | (Ok created, w') =>
      created = policy_data
      /\ insurance_policies w' = insurance_policies w ++ [policy_data]
      /\ (forall x, In x (insurance_policies w) ->
                    policy_number x <> policy_number policy_data)
  | (Raise e, w') =>
      insurance_policies w' = insurance_policies w
      \/ (insurance_policies w' = insurance_policies w ++ [policy_data]
          /\ forall x, In x (insurance_policies w) ->
                       policy_number x <> policy_number policy_data)
  end
  /\ data_ingestion_logs
       (snd (create_policy env query_failure is_integrity_error policy_data w))
     = data_ingestion_logs w.
Proof.
  unfold create_policy, select_by_number.
  unfold try_except, bind, call, lift, raise, ret, commit. cbv beta.
  destruct (session_failure env w) as [e|].
  { destruct (is_integrity_error e); cbv beta iota.
    - split. + left. reflexivity. + reflexivity.
    - split. + left. reflexivity. + reflexivity. }
  destruct (query_failure (tick w)) as [e|].
  { destruct (is_integrity_error e); cbv beta iota; (split; [left; reflexivity | reflexivity]). }
  cbn [insurance_policies tick].
  pose proof (numbered_none (policy_number policy_data) (insurance_policies w)) as U.
  destruct (filter (fun p => str_eqb (policy_number p) (policy_number policy_data))
                   (insurance_policies w)) as [|x [|y l]]; cbn [scalar_one_or_none].
  - destruct U as [U _]. specialize (U eq_refl).
    destruct (model_failure env policy_data) as [e|].
    { destruct (is_integrity_error e); cbv beta iota; (split; [left; reflexivity | reflexivity]). }
    destruct (commit_failure env (tick (tick w)) [policy_data]) as [e|].
    { destruct (is_integrity_error e); cbv beta iota; (split; [left; reflexivity | reflexivity]). }
    match goal with
    | |- context [query_failure ?w0] => destruct (query_failure w0) as [e|]
    end.
    + destruct (is_integrity_error e); cbv beta iota; (split; [| reflexivity]);
        right; (split; [reflexivity | exact U]).
    + cbv beta iota. split; [| reflexivity].
      split; [reflexivity |]. split; [reflexivity | exact U].
  - match goal with
    | |- context [is_integrity_error ?e] => destruct (is_integrity_error e)
    end; cbv beta iota; (split; [left; reflexivity | reflexivity]).
  - match goal with
    | |- context [is_integrity_error ?e] => destruct (is_integrity_error e)
    end; cbv beta iota; (split; [left; reflexivity | reflexivity]).
Qed.

(** X18.  [create_policy] keeps the policy numbers of the table
    distinct: it adds nothing but the policy it was given, at the end
    and only after it found no policy with that number, so a table
    without two policies of the same number stays so, whether
    [create_policy] returns or raises.  When a policy with the number is
    already there, it raises and the table is as before.  It does not
    write the audit log. *)
Theorem create_policy_keeps_numbers_distinct
        (policy_data : InsurancePolicyCreate) (w : world) :
  NoDup (map (@policy_number date) (insurance_policies w)) ->
  let result :=
    create_policy env query_failure is_integrity_error policy_data w in
  NoDup (map (@policy_number date) (insurance_policies (snd result)))
  /\ data_ingestion_logs (snd result) = data_ingestion_logs w
  /\ (forall created, fst result = Ok created ->
        created = policy_data
        /\ insurance_policies (snd result) = insurance_policies w ++ [policy_data])
  /\ ((exists x, In x (insurance_policies w)
                 /\ policy_number x = policy_number policy_data) ->
      (exists e, fst result = Raise e)
      /\ insurance_policies (snd result) = insurance_policies w).
Proof.
  intros ND. cbv zeta.
  destruct (create_policy_cases policy_data w) as [C L].
  assert (G : forall l : list InsurancePolicyCreate,
             l = insurance_policies w ++ [policy_data] ->
             (forall x, In x (insurance_policies w) ->
                        policy_number x <> policy_number policy_data) ->
             NoDup (map (@policy_number date) l)).
  { intros l -> U. rewrite map_app. apply NoDup_app; [exact ND | | ].
    - constructor; [intros [] | constructor].
    - intros n Hn [<- | []]. apply in_map_iff in Hn as (x & E & Hx).
      now apply (U x Hx). }
  destruct (create_policy env query_failure is_integrity_error policy_data w)
    as [[created|e] w'].
  - destruct C as (-> & S & U). cbn [fst snd] in *.
    split; [now apply G |]. split; [exact L |]. split.
    + intros c H. inversion H; subst. split; [reflexivity | exact S].
    + intros (x & Hx & E). exfalso. now apply (U x Hx).
  - cbn [fst snd] in *. split; [| split; [exact L | split]].
    + destruct C as [-> | [S U]]; [exact ND | now apply G].
    + intros c H. discriminate H.
    + intros (x & Hx & E). split; [now exists e |].
      destruct C as [S | [_ U]]; [exact S |]. exfalso. now apply (U x Hx).
Qed.

(** X19.  [get_policy_by_number] never raises and changes neither the
    table of policies nor the audit log.  A policy it returns is in the
    table and has the number asked for.  After [create_policy] has
    returned, it finds the policy created, provided the session and the
    query go through. *)
Theorem lookup_finds_the_created_policy (number : str) (w : world) :
  (exists found w',
      get_policy_by_number env query_failure number w = (Ok found, w')
      /\ insurance_policies w' = insurance_policies w
      /\ data_ingestion_logs w' = data_ingestion_logs w
      /\ forall p, found = Some p ->
                   In p (insurance_policies w) /\ policy_number p = number)
  /\ forall policy_data created w0,
      create_policy env query_failure is_integrity_error policy_data w0
      = (Ok created, w) ->
      number = policy_number policy_data ->
      session_failure env w = None ->
      query_failure (tick w) = None ->
      fst (get_policy_by_number env query_failure number w) = Ok (Some policy_data).
Proof.
  split.
  - unfold get_policy_by_number, select_by_number.
    unfold try_except, bind, call, lift, ret. cbv beta.
    destruct (session_failure env w) as [e|].
    { do 2 eexists. split; [reflexivity |]. repeat split; try reflexivity;
        discriminate. }
    destruct (query_failure (tick w)) as [e|].
    { do 2 eexists. split; [reflexivity |]. repeat split; try reflexivity;
        discriminate. }
    cbn [insurance_policies tick].
    destruct (filter (fun p => str_eqb (policy_number p) number)
                     (insurance_policies w)) as [|x [|y l]] eqn:F;
      cbn [scalar_one_or_none]; do 2 eexists; (split; [reflexivity |]);
        (split; [reflexivity |]); (split; [reflexivity |]);
        intros p H; try discriminate H.
    inversion H; subst p.
    assert (I : In x (filter (fun p => str_eqb (policy_number p) number)
                             (insurance_policies w)))
      by (rewrite F; left; reflexivity).
    apply filter_In in I as [I E]. apply str_eqb_spec in E. now split.
  - intros policy_data created w0 C -> S Q.
    pose proof (create_policy_cases policy_data w0) as [K _].
    rewrite C in K. destruct K as (_ & St & U).
    unfold get_policy_by_number, select_by_number.
    unfold try_except, bind, call, lift, ret. cbv beta.
    rewrite S, Q. cbn [insurance_policies tick]. rewrite St, filter_app.
    apply numbered_none in U.
    match goal with
    | |- context [@filter ?A ?f (insurance_policies w0)] =>
        assert (F : @filter A f (insurance_policies w0) = []) by exact U;
        rewrite F
    end.
    cbn [filter app]. rewrite str_eqb_refl. reflexivity.
Qed.

End OnePolicyFacts.

(** On a table that holds the first record: the same number again is
    refused and the table stays as it is; another number is added. *)
Lemma create_policy_keeps_numbers_distinct_witness :
  let create := create_policy reliable (fun _ => None) (fun _ => false) in
  ((exists e, fst (create acme stocked) = Raise e)
   /\ insurance_policies (snd (create acme stocked)) = [acme])
  /\ insurance_policies (snd (create beta stocked)) = [acme; beta]
  /\ NoDup (map (@policy_number date)
               (insurance_policies (snd (create beta stocked)))).
Proof.
  cbv zeta.
  assert (ND : NoDup (map (@policy_number date) (insurance_policies stocked))).
  { constructor; [intros [] | constructor]. }
  destruct (@create_policy_keeps_numbers_distinct
              reliable (fun _ => None) (fun _ => false) acme stocked ND)
    as (_ & _ & _ & R).
  destruct (@create_policy_keeps_numbers_distinct
              reliable (fun _ => None) (fun _ => false) beta stocked ND)
    as (N & _ & C & _).
  split; [apply R; exists acme; split; [left; reflexivity | reflexivity] |].
  split; [exact (proj2 (C beta eq_refl)) | exact N].
Defined.


(* ================================================================== *)
(** * Period texts written day/month/year are read back *)
(* ================================================================== *)

Lemma firstn_prefix {A} (p rest : list A) :
  firstn (List.length (p ++ rest) - List.length rest) (p ++ rest) = p.
Proof.
  rewrite length_app, Nat.add_sub, firstn_app, Nat.sub_diag, firstn_all.
  simpl. apply app_nil_r.
Qed.

Lemma matches_first_seq (r1 r2 : regex) (p1 p2 : str) (g1 g2 : list str) :
  matches_first r1 p1 g1 -> matches_first r2 p2 g2 ->
  matches_first (RSeq r1 r2) (p1 ++ p2) (g1 ++ g2).
Proof.
  intros H1 H2 A rest caps k x K. cbn [rmatch]. rewrite <- app_assoc.
  apply H1. apply H2. rewrite <- app_assoc. exact K.
Qed.

Lemma matches_first_group (r : regex) (p : str) (g : list str) :
  matches_first r p g -> matches_first (RGroup r) p (g ++ [p]).
Proof.
  intros H A rest caps k x K. cbn [rmatch]. apply H.
  rewrite firstn_prefix, <- app_assoc. exact K.
Qed.

Lemma matches_first_chr (c : char) : matches_first (RChr c) [c] [].
Proof.
  intros A rest caps k x K. rewrite app_nil_r in K.
  unfold RChr. cbn [rmatch app]. rewrite N.eqb_refl. exact K.
Qed.

Lemma matches_first_two_digits (a b : char) :
  is_digit a = true -> is_digit b = true ->
  matches_first (re_digits 1 2) [a; b] [].
Proof.
  intros Ha Hb A rest caps k x K. rewrite app_nil_r in K.
  unfold re_digits, RDigit. cbn -[is_digit]. rewrite Ha. cbn -[is_digit].
  rewrite Hb. cbn -[is_digit]. rewrite K. reflexivity.
Qed.

Lemma matches_first_four_digits (a b c e : char) :
  is_digit a = true -> is_digit b = true -> is_digit c = true ->
  is_digit e = true ->
  matches_first (re_digits 4 4) [a; b; c; e] [].
Proof.
  intros Ha Hb Hc He A rest caps k x K. rewrite app_nil_r in K.
  unfold re_digits, RDigit. cbn -[is_digit].
  rewrite Ha. cbn -[is_digit]. rewrite Hb. cbn -[is_digit].
  rewrite Hc. cbn -[is_digit]. rewrite He. cbn -[is_digit].
  rewrite K. reflexivity.
Qed.

(** The text of a day, of a month and of a year. *)
Lemma day_text (d : Z) :
  1 <= d <= 31 ->
  exists a b,
    pad 2 (str_of_Z d) = [a; b]
    /\ is_digit a = true /\ is_digit b = true
    /\ Z_of_digits (strip [a; b]) = d
    /\ matches_first re_day [a; b] [].
Proof.
  intros R.
  assert (E : In d (map Z.of_nat (seq 1 31))).
  { apply in_map_iff. exists (Z.to_nat d). split; [lia | apply in_seq; lia]. }
  cbn [seq map] in E. cbv in E.
  repeat (destruct E as [<- | E];
          [do 2 eexists; split; [vm_compute; reflexivity |];
           split; [reflexivity |]; split; [reflexivity |];
           split; [vm_compute; reflexivity |];
           intros A rest caps k x K; rewrite app_nil_r in K;
           unfold re_day, RChr, RDigit, between; cbn; rewrite K; reflexivity |]).
  destruct E.
Qed.

Lemma month_text (m : Z) :
  1 <= m <= 12 ->
  exists a b,
    pad 2 (str_of_Z m) = [a; b]
    /\ is_digit a = true /\ is_digit b = true
    /\ Z_of_digits (strip [a; b]) = m
    /\ matches_first re_month [a; b] [].
Proof.
  intros R.
  assert (E : In m (map Z.of_nat (seq 1 12))).
  { apply in_map_iff. exists (Z.to_nat m). split; [lia | apply in_seq; lia]. }
  cbn [seq map] in E. cbv in E.
  repeat (destruct E as [<- | E];
          [do 2 eexists; split; [vm_compute; reflexivity |];
           split; [reflexivity |]; split; [reflexivity |];
           split; [vm_compute; reflexivity |];
           intros A rest caps k x K; rewrite app_nil_r in K;
           unfold re_month, RChr, RDigit, between; cbn; rewrite K; reflexivity |]).
  destruct E.
Qed.

Lemma digit_char (n : Z) :
  0 <= n <= 9 ->
  is_digit (Z.to_N n + 48)%N = true /\ digit_val (Z.to_N n + 48)%N = n.
Proof.
  intros R. unfold is_digit, in_range, digit_val. split.
  - apply andb_true_iff. split; apply N.leb_le; lia.
  - lia.
Qed.

Lemma digit_is_not_space (c : char) : is_digit c = true -> is_space c = false.
Proof.
  unfold is_digit, is_space, in_range. intros H.
  apply andb_true_iff in H as [H1 H2]. apply N.leb_le in H1, H2.
  repeat match goal with
         | |- (_ || _)%bool = false => apply orb_false_iff; split
         | |- (_ && _)%bool = false => apply andb_false_iff
         end;
    try (apply N.eqb_neq; lia);
    try (left; apply N.leb_gt; lia);
    try (right; apply N.leb_gt; lia).
Qed.

Lemma strip_between (a z : char) (m : str) :
  is_space a = false -> is_space z = false ->
  strip (a :: m ++ [z]) = a :: m ++ [z].
Proof.
  intros Ha Hz. unfold strip, rstrip. cbn [lstrip]. rewrite Ha.
  assert (R : rev (a :: m ++ [z]) = z :: rev m ++ [a])
    by (cbn [rev]; rewrite rev_app_distr; reflexivity).
  rewrite R. cbn [lstrip]. rewrite Hz, <- R. apply rev_involutive.
Qed.

(** [str(y)] for a year of four digits. *)
Lemma four_digits (y : Z) :
  1000 <= y <= 9999 ->
  str_of_Z y
  = [ (Z.to_N (y / 10 / 10 / 10 mod 10) + 48)%N;
      (Z.to_N (y / 10 / 10 mod 10) + 48)%N;
      (Z.to_N (y / 10 mod 10) + 48)%N;
      (Z.to_N (y mod 10) + 48)%N ].
Proof.
  intros R. unfold str_of_Z.
  replace (Z.abs y) with y by lia.
  assert (L : 10 <= Z.log2_up (y + 1)).
  { change 10 with (Z.log2_up 1001). apply Z.log2_up_le_mono. lia. }
  destruct (Z.to_nat (Z.log2_up (y + 1))) as [|[|[|f]]] eqn:F; try lia.
  replace (y <? 0) with false by (symmetry; apply Z.ltb_ge; lia).
  cbn [digits_of_pos].
  replace (y <? 10) with false by (symmetry; apply Z.ltb_ge; lia).
  replace (y / 10 <? 10) with false
    by (symmetry; apply Z.ltb_ge; Z.div_mod_to_equations; lia).
  replace (y / 10 / 10 <? 10) with false
    by (symmetry; apply Z.ltb_ge; Z.div_mod_to_equations; lia).
  replace (y / 10 / 10 / 10 <? 10) with true
    by (symmetry; apply Z.ltb_lt; Z.div_mod_to_equations; lia).
  reflexivity.
Qed.

Lemma year_text (y : Z) :
  1000 <= y <= 9999 ->
  exists a b c e,
    pad 4 (str_of_Z y) = [a; b; c; e]
    /\ is_digit a = true /\ is_digit b = true /\ is_digit c = true
    /\ is_digit e = true
    /\ Z_of_digits (strip [a; b; c; e]) = y.
Proof.
  intros R. rewrite (four_digits R).
  destruct (@digit_char (y / 10 / 10 / 10 mod 10)) as [A1 A2];
    [Z.div_mod_to_equations; lia |].
  destruct (@digit_char (y / 10 / 10 mod 10)) as [B1 B2];
    [Z.div_mod_to_equations; lia |].
  destruct (@digit_char (y / 10 mod 10)) as [C1 C2];
    [Z.div_mod_to_equations; lia |].
  destruct (@digit_char (y mod 10)) as [E1 E2];
    [Z.div_mod_to_equations; lia |].
  do 4 eexists. split; [reflexivity |].
  split; [exact A1 |]. split; [exact B1 |]. split; [exact C1 |].
  split; [exact E1 |].
  match goal with
  | |- Z_of_digits (strip [?a; ?b; ?c; ?e]) = _ =>
      change [a; b; c; e] with (a :: [b; c] ++ [e])
  end.
  rewrite strip_between by (apply digit_is_not_space; assumption).
  unfold Z_of_digits. cbn [app fold_left]. rewrite A2, B2, C2, E2.
  Z.div_mod_to_equations. lia.
Qed.

Section DayMonthYear.
Variable d : date.
Hypothesis exists_in_calendar : valid_date (year d) (month d) (day d) = true.
Hypothesis four_digit_year : 1000 <= year d.

Lemma date_ranges : 1 <= day d <= 31 /\ 1 <= month d <= 12 /\ 1000 <= year d <= 9999.
Proof.
  pose proof exists_in_calendar as V. unfold valid_date in V.
  repeat (apply andb_true_iff in V; destruct V as [V ?]).
  repeat match goal with
         | H : (_ <=? _) = true |- _ => apply Z.leb_le in H
         end.
  assert (days_in_month (year d) (month d) <= 31).
  { unfold days_in_month.
    repeat match goal with |- context [if ?b then _ else _] => destruct b end; lia. }
  lia.
Qed.

(** The text [strftime] writes for the date: ten characters, digits
    but for the two slashes. *)
Lemma strftime_dmy_text :
  exists d1 d2 m1 m2 y1 y2 y3 y4,
    strftime_dmy d = [d1; d2; slash; m1; m2; slash; y1; y2; y3; y4]
    /\ is_digit d1 = true /\ is_digit y4 = true
    /\ strptime [d1; d2; slash; m1; m2; slash; y1; y2; y3; y4] (fmt_dmy slash)
       = Some d
    /\ matches_first (re_dmy slash)
                     [d1; d2; slash; m1; m2; slash; y1; y2; y3; y4] [].
Proof.
  destruct date_ranges as (RD & RM & RY).
  destruct (day_text RD) as (d1 & d2 & ED & Hd1 & Hd2 & VD & MD).
  destruct (month_text RM) as (m1 & m2 & EM & Hm1 & Hm2 & VM & MM).
  destruct (year_text RY) as (y1 & y2 & y3 & y4 & EY & Hy1 & Hy2 & Hy3 & Hy4 & VY).
  exists d1, d2, m1, m2, y1, y2, y3, y4.
  split; [unfold strftime_dmy; rewrite ED, EM, EY; reflexivity |].
  split; [exact Hd1 |]. split; [exact Hy4 |]. split.
  - unfold strptime.
    assert (M : matches_first (regex_of_format (fmt_dmy slash))
                  ([d1; d2] ++ [slash] ++ [m1; m2] ++ [slash] ++ [y1; y2; y3; y4])
                  (([] ++ [[d1; d2]]) ++ [] ++ ([] ++ [[m1; m2]]) ++ []
                   ++ ([] ++ [[y1; y2; y3; y4]]))).
    { unfold regex_of_format, fmt_dmy. cbn [map regex_of_directive RSeqs].
      repeat apply matches_first_seq;
        try apply matches_first_chr; apply matches_first_group;
        [exact MD | exact MM |].
      apply (@matches_first_four_digits y1 y2 y3 y4 Hy1 Hy2 Hy3 Hy4). }
    unfold re_match.
    pose proof (M _ [] [] (fun rest caps => Some (rest, caps))
                  ([], [[d1; d2]; [m1; m2]; [y1; y2; y3; y4]]) eq_refl) as M'.
    cbn [app] in M'. rewrite M'.
    cbn [assign_fields fmt_dmy]. rewrite VD, VM, VY, exists_in_calendar.
    now destruct d.
  - unfold re_dmy. cbn [RSeqs].
    change [d1; d2; slash; m1; m2; slash; y1; y2; y3; y4]
      with ([d1; d2] ++ [slash] ++ [m1; m2] ++ [slash] ++ [y1; y2; y3; y4]).
    change (@nil str) with (@nil str ++ [] ++ [] ++ [] ++ []).
    repeat apply matches_first_seq;
      try apply matches_first_chr;
      try (apply matches_first_two_digits; assumption).
    apply (@matches_first_four_digits y1 y2 y3 y4 Hy1 Hy2 Hy3 Hy4).
Qed.

End DayMonthYear.

Lemma seq_matches {A} (a b : regex) (s : str) (caps : list str)
      (k : str -> list str -> option A) (x : A) :
  rmatch a s caps (fun s' caps' => rmatch b s' caps' k) = Some x ->
  rmatch (RSeq a b) s caps k = Some x.
Proof. intros H. exact H. Qed.

Lemma one_space_matches {A} (c : char) (t : str) (caps : list str)
      (k : str -> list str -> option A) (x : A) :
  is_space c = false ->
  k (c :: t) caps = Some x ->
  rmatch (RStar is_space) (32%N :: c :: t) caps k = Some x.
Proof.
  intros Hc K. cbn [rmatch]. change (is_space 32%N) with true. cbv iota.
  rewrite Hc, K. reflexivity.
Qed.

Lemma chr_matches {A} (c : char) (t : str) (caps : list str)
      (k : str -> list str -> option A) (x : A) :
  k t caps = Some x -> rmatch (RChr c) (c :: t) caps k = Some x.
Proof.
  intros K. unfold RChr. cbn [rmatch]. rewrite N.eqb_refl. exact K.
Qed.

(** The first pattern on two day/month/year texts around " - ". *)
Lemma range_matches (first : str) (c : char) (second : str) :
  matches_first (re_dmy slash) first [] ->
  matches_first (re_dmy slash) (c :: second) [] ->
  is_space c = false ->
  re_match (re_range (re_dmy slash)) (first ++ lit " - " ++ c :: second)
  = Some ([], [first; c :: second]).
Proof.
  intros H1 H2 Hc. unfold re_match, re_range. cbn [RSeqs].
  apply seq_matches. apply (matches_first_group H1). cbv beta.
  change (lit " - " ++ c :: second) with (32%N :: 45%N :: 32%N :: c :: second).
  apply seq_matches. apply one_space_matches; [reflexivity |]. cbv beta.
  apply seq_matches. apply chr_matches. cbv beta.
  apply seq_matches. apply one_space_matches; [exact Hc |]. cbv beta.
  match goal with
  | |- rmatch _ _ ?caps ?k = Some ?x =>
      pose proof (matches_first_group H2) as G; unfold matches_first in G;
      specialize (G _ [] caps k x)
  end.
  rewrite app_nil_r in G. apply G. cbn [app]. reflexivity.
Qed.

Section WrittenAndRead.
Variable start_date end_date : date.
Hypothesis start_exists :
  valid_date (year start_date) (month start_date) (day start_date) = true.
Hypothesis end_exists :
  valid_date (year end_date) (month end_date) (day end_date) = true.
Hypothesis start_year : 1000 <= year start_date.
Hypothesis end_year : 1000 <= year end_date.

Lemma written_date_is_read (d : date) :
  valid_date (year d) (month d) (day d) = true -> 1000 <= year d ->
  _parse_single_date (strftime_dmy d) = Some d.
Proof.
  intros V Y.
  destruct (@strftime_dmy_text d V Y)
    as (d1 & d2 & m1 & m2 & y1 & y2 & y3 & y4 & E & Hd & Hy & P & _).
  rewrite E. unfold _parse_single_date.
  change [d1; d2; slash; m1; m2; slash; y1; y2; y3; y4]
    with (d1 :: [d2; slash; m1; m2; slash; y1; y2; y3] ++ [y4]).
  rewrite strip_between by (apply digit_is_not_space; assumption).
  cbn [app]. unfold date_formats. cbn [first_some]. rewrite P. reflexivity.
Qed.

Lemma written_period_is_read :
  _parse_insurance_period (period_text start_date end_date)
  = Ok (start_date, end_date).
Proof.
  pose proof (@written_date_is_read start_date start_exists start_year) as S.
  pose proof (@written_date_is_read end_date end_exists end_year) as E.
  destruct (@strftime_dmy_text start_date start_exists start_year)
    as (a1 & a2 & a3 & a4 & a5 & a6 & a7 & a8 & EA & Ha & _ & _ & MA).
  destruct (@strftime_dmy_text end_date end_exists end_year)
    as (b1 & b2 & b3 & b4 & b5 & b6 & b7 & b8 & EB & Hb & Hz & _ & MB).
  unfold _parse_insurance_period, period_text.
  assert (T : strip (strftime_dmy start_date ++ lit " - " ++ strftime_dmy end_date)
              = strftime_dmy start_date ++ lit " - " ++ strftime_dmy end_date).
  { rewrite EA, EB.
    change ([a1; a2; slash; a3; a4; slash; a5; a6; a7; a8] ++ lit " - "
            ++ [b1; b2; slash; b3; b4; slash; b5; b6; b7; b8])
      with (a1 :: ([a2; slash; a3; a4; slash; a5; a6; a7; a8] ++ lit " - "
                   ++ [b1; b2; slash; b3; b4; slash; b5; b6; b7]) ++ [b8]).
    apply strip_between; apply digit_is_not_space; assumption. }
  rewrite T. unfold date_patterns. cbn [first_some]. unfold try_pattern at 1.
  assert (R : re_search (re_range (re_dmy slash))
                (strftime_dmy start_date ++ lit " - " ++ strftime_dmy end_date)
              = Some [strftime_dmy start_date; strftime_dmy end_date]).
  { rewrite EA, EB.
    pose proof (@range_matches [a1; a2; slash; a3; a4; slash; a5; a6; a7; a8]
                  b1 [b2; slash; b3; b4; slash; b5; b6; b7; b8] MA MB
                  (@digit_is_not_space b1 Hb)) as M.
    cbn [app] in M |- *.
    change (lit " - ") with [32%N; 45%N; 32%N] in M |- *. cbn [app] in M |- *.
    cbn [re_search]. rewrite M. reflexivity. }
  rewrite R, S, E. reflexivity.
Qed.

End WrittenAndRead.

(** X21.  A period text as the sample sheet has it, the start date and
    the end date each written day/month/year with two, two and four
    digits and " - " between them, is read back by
    [_parse_insurance_period] as these two dates, for all dates of the
    calendar from the year 1000 on; each date text alone is read back
    by [_parse_single_date]. *)
Theorem sample_period_text_is_read_back (start_date end_date : date) :
  valid_date (year start_date) (month start_date) (day start_date) = true ->
  valid_date (year end_date) (month end_date) (day end_date) = true ->
  1000 <= year start_date ->
  1000 <= year end_date ->
  _parse_insurance_period (period_text start_date end_date)
  = Ok (start_date, end_date)
  /\ _parse_single_date (strftime_dmy start_date) = Some start_date
  /\ _parse_single_date (strftime_dmy end_date) = Some end_date.
Proof.
  intros VS VE YS YE. split; [| split].
  - now apply written_period_is_read.
  - now apply written_date_is_read.
  - now apply written_date_is_read.
Qed.

Lemma sample_period_text_is_read_back_witness :
  _parse_insurance_period (period_text (mk_date 2024 2 29) (mk_date 2025 2 28))
  = Ok (mk_date 2024 2 29, mk_date 2025 2 28).
Proof.
  apply (@sample_period_text_is_read_back (mk_date 2024 2 29) (mk_date 2025 2 28));
    first [reflexivity | cbn [year]; lia].
Defined.

(** X8.  The dates [_parse_insurance_period] returns are dates of the
    calendar, and that is all it asks of them: it does not compare the
    two.  Every pair of calendar dates from the year 1000 on is returned
    for some text, whichever of the two comes first, and the text
    "31/12/2024 - 01/01/2024" is read as a period that ends before it
    starts.  When the parser raises, it raises the [ValueError] that
    names the text, stripped. *)
Theorem period_parser_returns_calendar_dates :
  (forall period_str : str,
      match _parse_insurance_period period_str with
      | Ok (start_date, end_date) =>
          valid_date (year start_date) (month start_date) (day start_date) = true
          /\ valid_date (year end_date) (month end_date) (day end_date) = true
      | Raise e => e = ValueError (CannotParsePeriod (strip period_str))
      end)
  /\ (forall start_date end_date : date,
         valid_date (year start_date) (month start_date) (day start_date) = true ->
         valid_date (year end_date) (month end_date) (day end_date) = true ->
         1000 <= year start_date ->
         1000 <= year end_date ->
         exists period_str,
           _parse_insurance_period period_str = Ok (start_date, end_date))
  /\ (_parse_insurance_period (lit "31/12/2024 - 01/01/2024")
      = Ok (mk_date 2024 12 31, mk_date 2024 1 1)
      /\ date_leb (mk_date 2024 1 1) (mk_date 2024 12 31) = true
      /\ date_leb (mk_date 2024 12 31) (mk_date 2024 1 1) = false).
Proof.
  split; [| split].
  - intros period_str.
    destruct (_parse_insurance_period period_str) as [[a b]|e] eqn:E.
    + now apply parsed_period_is_two_dates with (period_str := period_str).
    + unfold _parse_insurance_period in E.
      destruct (first_some _ _); [discriminate | congruence].
  - intros start_date end_date VS VE YS YE.
    exists (period_text start_date end_date).
    now apply written_period_is_read.
  - split; [vm_compute; reflexivity |]. split; vm_compute; reflexivity.
Qed.
